(** * Request-metrics instrumentation of app/app.js

    A shallow embedding of the Express application of [src/app/app.js]:
    the three prom-client series it registers, the middleware that updates
    them when a response finishes, the route table and the [/metrics]
    handler.

    - [Date.now()] values are integers (milliseconds), held in [Z].
    - JavaScript numbers that hold seconds (durations, bucket bounds, the
      running sum) are held in [Q]: exact rationals stand for the doubles.
      A duration is a whole number of milliseconds divided by 1000 and a
      bound is a decimal literal, so comparing a duration with a bound
      gives the same answer on the rationals as on the doubles; a sum is
      the exact sum.  Counts are naturals (exact in a double below 2^53).
    - A prom-client [hashMap] (a JavaScript object keyed by the hash of a
      label set) is an association list in insertion order, the order in
      which the library walks it when it exports.
    - The series are one shared state, passed explicitly: a finish listener
      and an export each run to completion on the state they find.

    The two build pipelines of the repository ([src/Jenkinsfile] and the
    earlier one kept after the application in [src/app/app.js]) are
    embedded as scripts of a small state and exception monad over the
    build: its result, the stages entered, the steps run, the console and
    the notifications sent. *)

From Stdlib Require Import ZArith QArith Qround List Sorted String Ascii Bool Lia.
From Stdlib Require Import DecimalString DecimalNat DecimalZ.
Import ListNotations.

Local Open Scope string_scope.

(** ** JavaScript primitives used by the application *)

Module JS.

(** [Number.prototype.toString] on an integer: its decimal digits, with a
    leading minus sign when negative. *)
Definition Z_toString (z : Z) : string :=
  NilZero.string_of_int (Z.to_int z).

(** The same conversion on a count. *)
Definition nat_toString (n : nat) : string :=
  NilZero.string_of_uint (Nat.to_uint n).

(** The characters the exposition format needs and a string literal
    cannot hold directly. *)
Definition dquote : string := String (ascii_of_nat 34) EmptyString.
Definition backslash : string := String (ascii_of_nat 92) EmptyString.
Definition newline : string := String (ascii_of_nat 10) EmptyString.

(** [lines.join('\n')] followed by a final newline: every line is
    terminated. *)
Fixpoint unlines (ls : list string) : string :=
  match ls with
  | [] => EmptyString
  | l :: rest => l ++ newline ++ unlines rest
  end.

(** The string holds no line feed. *)
Fixpoint singleLine (s : string) : bool :=
  match s with
  | EmptyString => true
  | String c rest => negb (Ascii.eqb c (ascii_of_nat 10)) && singleLine rest
  end.

(** The decimal digits of the fraction [r / d] (with [0 <= r < d]), at
    most [digits] of them, stopping when the expansion ends. *)
Fixpoint fraction (digits : nat) (r d : Z) : string :=
  match digits with
  | O => EmptyString
  | S k =>
      if (r =? 0)%Z then EmptyString
      else Z_toString (10 * r / d) ++ fraction k (10 * r mod d) d
  end.

(** [Number.prototype.toString] on a number whose decimal expansion is
    short enough to be printed in full (17 significant digits): [0.1],
    [0.012], [3]. *)
Definition decimal_toString (q : Q) : string :=
  let n := Z.abs (Qnum q) in
  let d := Z.pos (Qden q) in
  (if (Qnum q <? 0)%Z then "-" else EmptyString)
  ++ Z_toString (n / d)
  ++ (if (n mod d =? 0)%Z then EmptyString
      else "." ++ fraction 17 (n mod d) d).

(** [Date.now()]: the whole milliseconds elapsed at an instant, the
    instant given in microseconds. *)
Definition Date_now (micros : Z) : Z := (micros / 1000)%Z.

(** A value thrown by a [throw] statement and caught by [catch (err)]: an
    [Error] object with its message, a string thrown as it is, or the
    [TypeError] ([ERR_INVALID_ARG_TYPE]) with which Node refuses an
    argument of the wrong type.  Any other value that is neither a string
    nor a buffer is treated by the code below as an [Error] object is. *)
Inductive Thrown : Type :=
| Error (message : string)
| Primitive (text : string)
| InvalidArgType.

End JS.

(** ** The prom-client objects the application constructs

    prom-client is a dependency of the application ([require('prom-client')],
    line 2); its code is not under src/.  The definitions of this module
    model what the application uses of it. *)

Module PromClient.

(** A label set over the label names [method], [route], [status_code]
    that all three series of the application declare. *)
Record Labels : Type := mkLabels {
  method : string;
  route : string;
  status_code : string
}.

(** Modelled from the spec: the key of a label combination in a series
    (prom-client's hash of a label set, not under src/).  Two label sets
    have the same key exactly when they give the same value to every label
    name. *)
Definition Labels_eqb (a b : Labels) : bool :=
  String.eqb (method a) (method b)
  && String.eqb (route a) (route b)
  && String.eqb (status_code a) (status_code b).

(** Modelled from the spec: reading a [hashMap] of prom-client (not under
    src/): the entry of a label combination, if it was created. *)
Fixpoint get {V : Type} (labels : Labels) (hashMap : list (Labels * V))
  : option V :=
  match hashMap with
  | [] => None
  | (l, v) :: rest => if Labels_eqb l labels then Some v else get labels rest
  end.

(** Modelled from the spec: writing a [hashMap] of prom-client (not under
    src/): stores [e] under [labels], in place when the key exists, at the
    end when it is new, so that entries are created lazily and keep their
    creation order. *)
Fixpoint put {V : Type} (labels : Labels) (e : V)
  (hashMap : list (Labels * V)) : list (Labels * V) :=
  match hashMap with
  | [] => [(labels, e)]
  | (l, x) :: rest =>
      if Labels_eqb l labels then (l, e) :: rest
      else (l, x) :: put labels e rest
  end.

(** *** Counter *)

Module Counter.

(** Modelled from the spec: prom-client's [Counter] is a dependency that
    is not under src/.  A counter has a name, a help text and one count
    per label combination, created on the first increment. *)
Record t : Type := mk {
  name : string;
  help : string;
  hashMap : list (Labels * nat)
}.

(** Modelled from the spec: [new promClient.Counter({ name, help,
    labelNames })], the constructor not under src/: no label combination
    yet. *)
Definition new (name help : string) : t := mk name help [].

(** Modelled from the spec: the count a counter of prom-client (not under
    src/) holds for a label combination; nothing is held before the first
    increment, which reads as 0. *)
Definition value (labels : Labels) (c : t) : nat :=
  match get labels (hashMap c) with Some v => v | None => 0%nat end.

(** Modelled from the spec: [Counter.inc(labels)] of prom-client, not
    under src/: adds 1 to the entry of [labels], creating it at 1 when
    it does not exist yet. *)
Definition inc (labels : Labels) (c : t) : t :=
  mk (name c) (help c) (put labels (S (value labels c)) (hashMap c)).

End Counter.

(** *** Histogram *)

Module Histogram.

(** Modelled from the spec: one label combination of a prom-client
    histogram (not under src/): a count per bucket upper bound, the running
    sum and the number of observations. *)
Record Entry : Type := mkEntry {
  bucketValues : list (Q * nat);
  sum : Q;
  count : nat
}.

(** Modelled from the spec: prom-client's [Histogram] is a dependency
    that is not under src/.  It keeps the bucket upper bounds given at
    construction and one entry per label combination.  An entry counts,
    per bound, the observations whose first bound at or above the value
    is that bound; the cumulative counts that the spec describes are
    read off when the histogram is exported ([cumulative]). *)
Record t : Type := mk {
  name : string;
  help : string;
  upperBounds : list Q;
  hashMap : list (Labels * Entry)
}.

(** Modelled from the spec: [new promClient.Histogram({ name, help,
    labelNames, buckets })], the constructor not under src/: the bounds are
    fixed here, no label combination yet. *)
Definition new (name help : string) (buckets : list Q) : t :=
  mk name help buckets [].

(** Modelled from the spec: the entry prom-client (not under src/) creates
    on the first observation of a label combination: every bound at 0, sum
    0, count 0. *)
Definition createBaseValues (bounds : list Q) : Entry :=
  mkEntry (map (fun b => (b, 0%nat)) bounds) 0 0.

(** Modelled from the spec: the bucket prom-client (not under src/) counts
    a value in: the first upper bound at or above the value; [None] when
    the value is above every bound. *)
Fixpoint findBound (bounds : list Q) (v : Q) : option Q :=
  match bounds with
  | [] => None
  | b :: rest => if Qle_bool v b then Some b else findBound rest v
  end.

(** Modelled from the spec: [bucketValues[b] += 1] of prom-client's
    [observe] (not under src/), done when the entry has the key [b]. *)
Fixpoint bump (b : Q) (bv : list (Q * nat)) : list (Q * nat) :=
  match bv with
  | [] => []
  | (k, n) :: rest =>
      if Qeq_bool k b then (k, S n) :: rest else (k, n) :: bump b rest
  end.

(** Modelled from the spec: [bucketValues[b]] of a prom-client entry (not
    under src/); a key that is missing reads as 0. *)
Fixpoint bucketValue (b : Q) (bv : list (Q * nat)) : nat :=
  match bv with
  | [] => 0%nat
  | (k, n) :: rest => if Qeq_bool k b then n else bucketValue b rest
  end.

(** Modelled from the spec: what [observe] of prom-client (not under src/)
    does to the entry: the value is counted in its bucket, added to the sum,
    and the count grows by 1. *)
Definition observeEntry (bounds : list Q) (v : Q) (e : Entry) : Entry :=
  mkEntry
    (match findBound bounds v with
     | Some b => bump b (bucketValues e)
     | None => bucketValues e
     end)
    (sum e + v)
    (S (count e)).

(** Modelled from the spec: the entry of [labels] in a prom-client
    histogram (not under src/), a fresh one before its first observation. *)
Definition entry (labels : Labels) (h : t) : Entry :=
  match get labels (hashMap h) with
  | Some e => e
  | None => createBaseValues (upperBounds h)
  end.

(** Modelled from the spec: [Histogram.observe(labels, value)] of
    prom-client, not under src/: takes the entry of [labels] (a fresh
    one on the first observation), counts the value in its bucket, adds
    it to the sum and adds 1 to the count. *)
Definition observe (labels : Labels) (v : Q) (h : t) : t :=
  mk (name h) (help h) (upperBounds h)
    (put labels (observeEntry (upperBounds h) v (entry labels h))
       (hashMap h)).

(** Modelled from the spec: the cumulative counts prom-client (not under
    src/) exports for an entry: one per upper bound, in the order of the
    bounds, each the running total of the bucket counts up to that bound. *)
Fixpoint cumulative (bounds : list Q) (bv : list (Q * nat)) (acc : nat)
  : list (Q * nat) :=
  match bounds with
  | [] => []
  | b :: rest =>
      let acc' := (acc + bucketValue b bv)%nat in
      (b, acc') :: cumulative rest bv acc'
  end.

(** Modelled from the spec: the cumulative count prom-client (not under
    src/) exports for the bucket with upper bound [b]. *)
Definition cumulativeCount (b : Q) (labels : Labels) (h : t) : nat :=
  bucketValue b
    (cumulative (upperBounds h) (bucketValues (entry labels h)) 0).

(** Modelled from the spec: the buckets prom-client (not under src/)
    exports for an entry, in export order: every finite upper bound with
    its cumulative count, then the [+Inf] bucket ([None]), whose count is
    the number of observations. *)
Definition exportedBuckets (bounds : list Q) (e : Entry)
  : list (option Q * nat) :=
  map (fun bucket => (Some (fst bucket), snd bucket))
    (cumulative bounds (bucketValues e) 0)
  ++ [(None, count e)].

End Histogram.

(** *** Exposition format *)

Section Exposition.

(** [Number.prototype.toString] on the numbers that hold seconds (bucket
    bounds and sums). *)
Variable Number_toString : Q -> string.

(** Modelled from the spec: the label-value escaping of the exposition
    format, done by prom-client's exporter (not under src/): a backslash, a
    line feed and a double quote are written as a backslash followed by a
    backslash, [n] and a double quote. *)
Fixpoint escapeLabelValue (s : string) : string :=
  match s with
  | EmptyString => EmptyString
  | String c rest =>
      (if Ascii.eqb c (ascii_of_nat 92) then JS.backslash ++ JS.backslash
       else if Ascii.eqb c (ascii_of_nat 10) then JS.backslash ++ "n"
       else if Ascii.eqb c (ascii_of_nat 34) then JS.backslash ++ JS.dquote
       else String c EmptyString)
      ++ escapeLabelValue rest
  end.

(** Modelled from the spec: one label of a data line, [key="value"]
    (prom-client's exporter, not under src/). *)
Definition labelPair (key val : string) : string :=
  key ++ "=" ++ JS.dquote ++ escapeLabelValue val ++ JS.dquote.

(** Modelled from the spec: the labels of a data line of the three series,
    in the order of their label names (prom-client's exporter, not under
    src/). *)
Definition labelsText (l : Labels) : string :=
  labelPair "method" (method l) ++ ","
  ++ labelPair "route" (route l) ++ ","
  ++ labelPair "status_code" (status_code l).

(** Modelled from the spec: a data line of the exposition format (section
    6), [metric_name{label="value",...} numeric_value]; the exporter of
    prom-client is not under src/. *)
Definition sampleLine (name labels val : string) : string :=
  name ++ "{" ++ labels ++ "} " ++ val.

(** Modelled from the spec: the help line of a series (prom-client's
    exporter, not under src/). *)
Definition helpLine (name help : string) : string :=
  "# HELP " ++ name ++ " " ++ help.

(** Modelled from the spec: the type line of a series (section 6;
    prom-client's exporter, not under src/). *)
Definition typeLine (name type : string) : string :=
  "# TYPE " ++ name ++ " " ++ type.

(** Modelled from the spec: the data line of one label combination of a
    counter (prom-client's exporter, not under src/). *)
Definition counterSample (name : string) (kv : Labels * nat) : string :=
  sampleLine name (labelsText (fst kv)) (JS.nat_toString (snd kv)).

(** Modelled from the spec: the lines of a counter (prom-client's
    exporter, not under src/): its help and type lines, then one data line
    per label combination in creation order. *)
Definition counterLines (c : Counter.t) : list string :=
  helpLine (Counter.name c) (Counter.help c)
  :: typeLine (Counter.name c) "counter"
  :: map (counterSample (Counter.name c)) (Counter.hashMap c).

(** Modelled from the spec: the value of the [le] label of a bucket
    (prom-client's exporter, not under src/). *)
Definition leText (bound : option Q) : string :=
  match bound with
  | Some b => Number_toString b
  | None => "+Inf"
  end.

(** Modelled from the spec: the [_bucket] line of one exported bucket,
    [name_bucket{le="<bound>",...} count] (prom-client's exporter, not
    under src/). *)
Definition bucketSample (name : string) (l : Labels)
  (bucket : option Q * nat) : string :=
  sampleLine (name ++ "_bucket")
    (labelPair "le" (leText (fst bucket)) ++ "," ++ labelsText l)
    (JS.nat_toString (snd bucket)).

(** Modelled from the spec: the lines of one label combination of a
    histogram (prom-client's exporter, not under src/): a [_bucket] line
    per upper bound with its cumulative count, the [+Inf] bucket, then the
    [_sum] and [_count] lines. *)
Definition entryLines (name : string) (bounds : list Q)
  (kv : Labels * Histogram.Entry) : list string :=
  let (l, e) := kv in
  map (bucketSample name l) (Histogram.exportedBuckets bounds e)
  ++ [ sampleLine (name ++ "_sum") (labelsText l)
         (Number_toString (Histogram.sum e));
       sampleLine (name ++ "_count") (labelsText l)
         (JS.nat_toString (Histogram.count e)) ].

(** Modelled from the spec: the lines of a histogram (prom-client's
    exporter, not under src/): its help and type lines, then the lines of
    every label combination in creation order. *)
Definition histogramLines (h : Histogram.t) : list string :=
  helpLine (Histogram.name h) (Histogram.help h)
  :: typeLine (Histogram.name h) "histogram"
  :: flat_map (entryLines (Histogram.name h) (Histogram.upperBounds h))
       (Histogram.hashMap h).

End Exposition.

(** Modelled from the spec: [register.contentType] of prom-client, a
    constant that is not under src/. *)
Definition contentType : string :=
  "text/plain; version=0.0.4; charset=utf-8".

End PromClient.

(** ** The application: app/app.js *)

Module App.

Import PromClient.

(** *** Metrics setup (lines 10-37) *)

(** [buckets: [0.1, 0.3, 0.5, 0.7, 1, 3, 5, 7, 10]]. *)
Definition buckets : list Q :=
  [1 # 10; 3 # 10; 5 # 10; 7 # 10; 1 # 1; 3 # 1; 5 # 1; 7 # 1; 10 # 1].

(** The three custom series, the state every request handler shares. *)
Record Metrics : Type := mkMetrics {
  httpRequestDurationMicroseconds : Histogram.t;
  httpRequestsTotal : Counter.t;
  httpErrorsTotal : Counter.t
}.

(** The series as constructed at start-up, before any observation. *)
Definition initial : Metrics :=
  mkMetrics
    (Histogram.new "http_request_duration_seconds"
       "Duration of HTTP requests in seconds" buckets)
    (Counter.new "http_requests_total" "Total number of HTTP requests")
    (Counter.new "http_errors_total" "Total number of HTTP errors (5xx)").

(** What [register] holds, in registration order: the default metrics
    ([collectDefaultMetrics({ register })], line 14), then the three
    custom series (lines 23, 30, 37).  The registry refers to the series
    objects, so an export reads their current contents. *)
Inductive Registered : Type :=
| DefaultMetrics
| RequestDuration
| RequestsTotal
| ErrorsTotal.

(** [register], after the four registrations. *)
Definition register : list Registered :=
  [DefaultMetrics; RequestDuration; RequestsTotal; ErrorsTotal].

(** *** Requests and responses *)

(** [req.route], set by the router when a route matched. *)
Record Route : Type := mkRoute { path : string }.

(** What the middleware reads of a request. *)
Record Request : Type := mkRequest {
  req_method : string;   (* req.method *)
  req_path : string;     (* req.path *)
  req_route : option Route  (* req.route, undefined when nothing matched *)
}.

(** The values the JSON bodies of the handlers hold. *)
Inductive JSON : Type :=
| JString (s : string)
| JNumber (q : Q)
| JStrings (items : list string).

(** What a response is ended with: text ([res.send], [res.end]) or an
    object ([res.json]). *)
Inductive Body : Type :=
| Text (s : string)
| Json (fields : list (string * JSON)).

(** A response: the status code, the headers set on it, the latest first,
    and the body. *)
Record Response : Type := mkResponse {
  statusCode : Z;
  headers : list (string * string);
  body : Body
}.

(** How a handler leaves the response: ended, or not ended because the
    handler threw [err]; the handler of [/metrics] is an [async] function,
    whose promise is then rejected with [err]. *)
Inductive Reply : Type :=
| Ended (res : Response)
| Rejected (res : Response) (err : JS.Thrown).

(** What the framework does by itself in one exchange; Express is a
    dependency ([require('express')], line 1) and its code is not under
    src/.  [allowed] is the decision of the router for an [OPTIONS]
    request that no route handled: the methods of the routes that have the
    path of the request, as the text of the [Allow] header, when there are
    such routes.  [errorPage] and [errorLog] are the page the default error
    handler answers with and the lines it writes to the console (the stack
    of the error, or nothing in the test environment). *)
Record Framework : Type := mkFramework {
  allowed : option string;
  errorPage : string;
  errorLog : list string
}.

(** The version of Express: version 5 passes the rejection of an [async]
    handler to the error handlers, version 4 does not look at the promise
    a handler returns. *)
Inductive Version : Type :=
| Express4
| Express5.

(** *** Middleware to track request metrics (lines 40-62) *)

(** [(Date.now() - start) / 1000], with both readings in milliseconds. *)
Definition duration (start now : Z) : Q := (now - start) # 1000.

(** [req.route ? req.route.path : req.path]. *)
Definition routeLabel (req : Request) : string :=
  match req_route req with
  | Some r => path r
  | None => req_path req
  end.

(** [{ method: req.method, route, status_code: statusCode }] with
    [statusCode = res.statusCode.toString()]. *)
Definition labelsOf (req : Request) (status : Z) : Labels :=
  mkLabels (req_method req) (routeLabel req) (JS.Z_toString status).

(** The listener of the response's [finish] event.  [start] is the reading
    of [Date.now()] taken when the middleware ran, [now] the reading taken
    in the listener, [status] is [res.statusCode]. *)
Definition onFinish (start now : Z) (req : Request) (status : Z)
  (m : Metrics) : Metrics :=
  let duration := duration start now in
  let labels := labelsOf req status in
  let observed :=
    Histogram.observe labels duration (httpRequestDurationMicroseconds m) in
  let total := Counter.inc labels (httpRequestsTotal m) in
  let errors :=
    if (500 <=? status)%Z then Counter.inc labels (httpErrorsTotal m)
    else httpErrorsTotal m in
  mkMetrics observed total errors.

(** A request whose response finished. *)
Record Completed : Type := mkCompleted {
  started : Z;
  finished : Z;
  request : Request;
  status : Z
}.

(** The finish listener run for a completed request. *)
Definition record (m : Metrics) (c : Completed) : Metrics :=
  onFinish (started c) (finished c) (request c) (status c) m.

(** The metrics after a sequence of completed requests, oldest first. *)
Definition recordAll (cs : list Completed) (m : Metrics) : Metrics :=
  fold_left record cs m.

(** *** Export (line 86) *)

Section Exporter.

Variable Number_toString : Q -> string.

(** The process the default metrics are sampled from when an export
    runs, and the lines the default collectors of prom-client then produce
    (memory, uptime, handle counts, ...); the collectors are not under src/
    and the lines are taken as they come. *)
Variable ProcessEnv : Type.
Variable defaultMetrics : ProcessEnv -> list string.

(** The lines of one registered metric at the time of an export. *)
Definition linesOf (env : ProcessEnv) (m : Metrics) (r : Registered)
  : list string :=
  match r with
  | DefaultMetrics => defaultMetrics env
  | RequestDuration =>
      histogramLines Number_toString (httpRequestDurationMicroseconds m)
  | RequestsTotal => counterLines (httpRequestsTotal m)
  | ErrorsTotal => counterLines (httpErrorsTotal m)
  end.

(** The lines of the three custom series. *)
Definition customLines (m : Metrics) : list string :=
  histogramLines Number_toString (httpRequestDurationMicroseconds m)
  ++ counterLines (httpRequestsTotal m)
  ++ counterLines (httpErrorsTotal m).

(** Modelled from the spec: the lines [register.metrics()] of prom-client
    (not under src/) writes: every registered metric in registration
    order. *)
Definition metricsLines (env : ProcessEnv) (m : Metrics) : list string :=
  flat_map (linesOf env m) register.

(** Modelled from the spec: [await register.metrics()] of prom-client (not
    under src/): the snapshot as text, or the value the serialization
    threw.  Whether it throws does not depend on the series: [fault] is the
    failure of the serialization layer, if any. *)
Definition register_metrics (fault : option JS.Thrown) (env : ProcessEnv)
  (m : Metrics) : JS.Thrown + string :=
  match fault with
  | Some err => inl err
  | None => inr (JS.unlines (metricsLines env m))
  end.

(** *** Route handlers (lines 69-116) *)

(** What an exchange depends on besides the request and the metrics:
    [new Date().toISOString()], [process.uptime()], the process the default
    metrics sample, the fault, if any, that the serialization of this
    export raises, and what the framework does by itself. *)
Record Env : Type := mkEnv {
  isoNow : string;
  uptime : Q;
  process : ProcessEnv;
  fault : option JS.Thrown;
  framework : Framework
}.

(** A response as a handler receives it: status 200, nothing set. *)
Definition fresh : Response := mkResponse 200 [] (Text EmptyString).

(** [res.set(name, val)]. *)
Definition set (name val : string) (res : Response) : Response :=
  mkResponse (statusCode res) ((name, val) :: headers res) (body res).

(** [res.status(code)]. *)
Definition setStatus (code : Z) (res : Response) : Response :=
  mkResponse code (headers res) (body res).

(** [res.end(b)], [res.send(b)] or [res.json(b)]: the body is written and
    the response ends. *)
Definition finish (b : Body) (res : Response) : Response :=
  mkResponse (statusCode res) (headers res) b.

(** Modelled from the spec: [res.end(chunk)] of Node (not under src/) on a
    caught value: a string is written as the body and the response ends;
    an [Error] object, like every value that is neither a string nor a
    buffer, makes [res.end] throw a [TypeError] and the response is left as
    it was, not ended. *)
Definition endWith (chunk : JS.Thrown) (res : Response) : Reply :=
  match chunk with
  | JS.Primitive text => Ended (finish (Text text) res)
  | JS.Error _ | JS.InvalidArgType => Rejected res JS.InvalidArgType
  end.

(** A handler returns how it left the response and the lines it wrote to
    the console. *)
Definition Handler : Type := Env -> Metrics -> Reply * list string.

(** [app.get('/health', ...)], lines 69-71. *)
Definition health : Handler := fun env _ =>
  (Ended
     (finish (Json [("status", JString "healthy");
                    ("timestamp", JString (isoNow env))])
        (setStatus 200 fresh)), []).

(** [app.get('/ready', ...)], lines 74-77. *)
Definition ready : Handler := fun env _ =>
  (Ended
     (finish (Json [("status", JString "ready");
                    ("timestamp", JString (isoNow env))])
        (setStatus 200 fresh)), []).

(** [app.get('/metrics', ...)], lines 83-90: in the [catch] block the
    status is set to 500 and [res.end] is called on the caught value. *)
Definition metrics : Handler := fun env m =>
  let res := set "Content-Type" contentType fresh in
  match register_metrics (fault env) (process env) m with
  | inr snapshot => (Ended (finish (Text snapshot) res), [])
  | inl err => (endWith err (setStatus 500 res), [])
  end.

(** [app.get('/', ...)], lines 96-98. *)
Definition root : Handler := fun _ _ =>
  (Ended
     (finish
        (Text
           "🚀 CI/CD App is Running! (v2.0 - with DevSecOps & Observability)")
        fresh), []).

(** [app.get('/api/status', ...)], lines 101-108. *)
Definition apiStatus : Handler := fun env _ =>
  (Ended
     (finish
        (Json [("app", JString "ci-cd-app");
               ("version", JString "2.0.0");
               ("features",
                 JStrings ["DevSecOps"; "Observability"; "Chaos Engineering"]);
               ("uptime", JNumber (uptime env))])
        fresh), []).

(** [app.get('/api/error-test', ...)], lines 114-116. *)
Definition apiErrorTest : Handler := fun _ _ =>
  (Ended
     (finish (Json [("error", JString "Intentional error for testing")])
        (setStatus 500 fresh)), []).

(** Modelled from the spec: the answer of Express (not under src/) when no
    route handled the request: status 404. *)
Definition notFound : Handler := fun _ _ =>
  (Ended (setStatus 404 fresh), []).

(** Modelled from the spec: the answer of the router of Express (not under
    src/) to an [OPTIONS] request that no route handled and whose path
    routes have: status 200, the methods of these routes in the [Allow]
    header and as the body. *)
Definition optionsAnswer (methods : string) : Response :=
  finish (Text methods) (set "Allow" methods (setStatus 200 fresh)).

(** Modelled from the spec: what Express (not under src/) does with a
    request that no route handled: [OPTIONS] on a path that routes have is
    answered by the router, every other request is not found. *)
Definition unhandled (req : Request) : Handler := fun env m =>
  if String.eqb (req_method req) "OPTIONS"
  then
    match allowed (framework env) with
    | Some methods => (Ended (optionsAnswer methods), [])
    | None => notFound env m
    end
  else notFound env m.

(** The route table, in registration order: every route is
    [app.get(path, handler)]. *)
Definition routes : list (string * Handler) :=
  [("/health", health); ("/ready", ready); ("/metrics", metrics);
   ("/", root); ("/api/status", apiStatus);
   ("/api/error-test", apiErrorTest)].

(** The handler registered under a path pattern, the first in
    registration order. *)
Fixpoint lookup (pattern : string) (table : list (string * Handler))
  : option Handler :=
  match table with
  | [] => None
  | (p, h) :: rest =>
      if String.eqb p pattern then Some h else lookup pattern rest
  end.

(** The handler the router runs for a request: the one registered under
    the pattern of the route it matched ([req.route]); which pattern a path
    matches is the router's decision and comes with the request.  A
    request that matched no route is left to the framework. *)
Definition handlerOf (req : Request) : Handler :=
  match req_route req with
  | Some r =>
      match lookup (path r) routes with
      | Some h => h
      | None => unhandled req
      end
  | None => unhandled req
  end.

(** Modelled from the spec: the default error handler of Express (not
    under src/), run by version 5 when the promise of a handler is
    rejected with a value that carries no status of its own: the status of
    the response is kept when it is an error status and is 500 otherwise,
    the page of the error is the body, typed as HTML. *)
Definition defaultErrorHandler (page : string) (res : Response)
  : Response :=
  let code :=
    if (400 <=? statusCode res)%Z && (statusCode res <=? 599)%Z
    then statusCode res
    else 500%Z in
  finish (Text page)
    (set "Content-Type" "text/html; charset=utf-8"
       (set "X-Content-Type-Options" "nosniff"
          (set "Content-Security-Policy" "default-src 'none'"
             (setStatus code res)))).

(** The response that finishes and the lines on the console, when the
    exchange finishes: what the handler ended or, when the handler threw,
    the answer and the log of the default error handler. *)
Definition finished_as (fw : Framework) (replied : Reply * list string)
  : Response * list string :=
  match replied with
  | (Ended res, out) => (res, out)
  | (Rejected res _, out) =>
      (defaultErrorHandler (errorPage fw) res, (out ++ errorLog fw)%list)
  end.

(** What serving one request leaves behind: the response, the lines
    written to the console, the metrics after the finish listener ran. *)
Record Served : Type := mkServed {
  response : Response;
  console : list string;
  after : Metrics
}.

(** One request served from arrival to the [finish] event: the
    middleware reads the clock ([start]), the router runs the handler on
    the metrics as they are, and when the response has finished the
    listener reads the clock again ([now]) and updates the metrics.  When
    the handler threw, the response that finishes is the one of the
    default error handler: this is how such an exchange finishes when it
    does (see [exchange]). *)
Definition serve (env : Env) (start now : Z) (req : Request)
  (m : Metrics) : Served :=
  let (res, out) := finished_as (framework env) (handlerOf req env m) in
  mkServed res out (onFinish start now req (statusCode res) m).

(** Modelled from the spec: what a version of Express (not under src/)
    does with the promise of a handler.  Version 4 does not look at it:
    when it is rejected nothing answers the request, the response never
    finishes and the listener of the middleware never runs ([None]).
    Every other exchange finishes as [serve] says. *)
Definition exchange (version : Version) (env : Env) (start now : Z)
  (req : Request) (m : Metrics) : option Served :=
  match version, fst (handlerOf req env m) with
  | Express4, Rejected _ _ => None
  | _, _ => Some (serve env start now req m)
  end.

End Exporter.

(** *** Server startup (lines 122-128) *)

(** [process.env.PORT || 3000]: an unset or empty variable gives 3000. *)
Definition PORT (envPORT : option string) : string :=
  match envPORT with
  | Some p => if String.eqb p EmptyString then "3000" else p
  | None => "3000"
  end.

(** The lines the [listen] callback writes to the console. *)
Definition listening (port : string) : list string :=
  [ "🚀 Server listening on http://localhost:" ++ port;
    "📊 Metrics available at http://localhost:" ++ port ++ "/metrics";
    "❤️  Health check at http://localhost:" ++ port ++ "/health";
    "✅ Readiness check at http://localhost:" ++ port ++ "/ready" ].

(** A scrape: [GET /metrics], matched by the route of that pattern. *)
Definition getMetrics : Request :=
  mkRequest "GET" "/metrics" (Some (mkRoute "/metrics")).

(** The requests of the scenario of the spec as the finish listener sees
    them: three to [GET /api/status], answered 200, then one to
    [GET /api/error-test], answered 500. *)
Definition scenario : list Completed :=
  [ mkCompleted 0 12
      (mkRequest "GET" "/api/status" (Some (mkRoute "/api/status"))) 200;
    mkCompleted 20 21
      (mkRequest "GET" "/api/status" (Some (mkRoute "/api/status"))) 200;
    mkCompleted 30 430
      (mkRequest "GET" "/api/status" (Some (mkRoute "/api/status"))) 200;
    mkCompleted 500 503
      (mkRequest "GET" "/api/error-test" (Some (mkRoute "/api/error-test")))
      500 ].

(** One of the default collectors, as an instance of the default metrics:
    the resident memory of the process, sampled when the export runs. *)
Definition residentMemory (bytes : Z) : list string :=
  [ PromClient.helpLine "process_resident_memory_bytes"
      "Resident memory size in bytes.";
    PromClient.typeLine "process_resident_memory_bytes" "gauge";
    "process_resident_memory_bytes " ++ JS.Z_toString bytes ].

(** An instance of what the framework does by itself: no route has the
    path of the request, and the default error handler answers with the
    page of the production environment and logs the error. *)
Definition express : Framework :=
  mkFramework None "<pre>Internal Server Error</pre>"
    ["TypeError [ERR_INVALID_ARG_TYPE]: The chunk argument must be of type string or an instance of Buffer or Uint8Array. Received an instance of Error"].

(** The same for an [OPTIONS] request on a path that a [GET] route has. *)
Definition expressOptions : Framework :=
  mkFramework (Some "GET,HEAD") (errorPage express) (errorLog express).

(** A scrape during which the serialization throws an [Error] object. *)
Definition failingExport : Env Z :=
  mkEnv Z "2026-01-01T00:00:00.000Z" 0 4096%Z (Some (JS.Error "boom"))
    express.

(** *** Views used to state the behaviour of the series *)

(** The three series change at [labels] as one completed request with
    final status [status] changes them, and at no other label
    combination. *)
Definition updatedAt (labels : Labels) (status : Z) (m m' : Metrics)
  : Prop :=
  Histogram.count (Histogram.entry labels (httpRequestDurationMicroseconds m'))
  = S (Histogram.count
         (Histogram.entry labels (httpRequestDurationMicroseconds m)))
  /\ Counter.value labels (httpRequestsTotal m')
     = S (Counter.value labels (httpRequestsTotal m))
  /\ Counter.value labels (httpErrorsTotal m')
     = (Counter.value labels (httpErrorsTotal m)
        + if (500 <=? status)%Z then 1 else 0)%nat
  /\ forall other, other <> labels ->
       get other (Histogram.hashMap (httpRequestDurationMicroseconds m'))
       = get other (Histogram.hashMap (httpRequestDurationMicroseconds m))
       /\ get other (Counter.hashMap (httpRequestsTotal m'))
          = get other (Counter.hashMap (httpRequestsTotal m))
       /\ get other (Counter.hashMap (httpErrorsTotal m'))
          = get other (Counter.hashMap (httpErrorsTotal m)).

(** What an export shows of one label combination of a histogram: the
    cumulative count of every bucket, the sum and the count. *)
Record View : Type := mkView {
  bucketsOf : list (Q * nat);
  sumOf : Q;
  countOf : nat
}.

(** The view of [labels]; before the first observation it is the view of
    a fresh entry. *)
Definition view (labels : Labels) (h : Histogram.t) : View :=
  let e := Histogram.entry labels h in
  mkView
    (Histogram.cumulative (Histogram.upperBounds h)
       (Histogram.bucketValues e) 0)
    (Histogram.sum e)
    (Histogram.count e).

(** Adds 1 to the cumulative count of a bucket whose upper bound is at
    or above [d]. *)
Definition countIn (d : Q) (bucket : Q * nat) : Q * nat :=
  (fst bucket,
   if Qle_bool d (fst bucket) then S (snd bucket) else snd bucket).

(** Observation in the words of section 4.1 of the spec: increment the
    cumulative count of every bucket whose upper bound is at or above the
    duration, increment the total count, add the duration to the running
    sum. *)
Definition spec_observe (d : Q) (v : View) : View :=
  mkView (map (countIn d) (bucketsOf v)) (sumOf v + d) (S (countOf v)).

(** The operations the component exposes: a request completes and is
    observed, or the series are exported.  An export reads the three
    series and leaves them as they are. *)
Inductive Operation : Type :=
| Observe (c : Completed)
| Export.

(** The metrics after one operation. *)
Definition perform (m : Metrics) (op : Operation) : Metrics :=
  match op with
  | Observe c => record m c
  | Export => m
  end.

(** The metrics after a sequence of operations, oldest first. *)
Definition performAll (ops : list Operation) (m : Metrics) : Metrics :=
  fold_left perform ops m.

(** The shape every entry of the duration histogram has: one bucket per
    configured upper bound, and no cumulative count above the number of
    observations. *)
Definition entryShaped (e : Histogram.Entry) : Prop :=
  map fst (Histogram.bucketValues e) = buckets
  /\ Forall (fun bucket => (snd bucket <= Histogram.count e)%nat)
       (Histogram.cumulative buckets (Histogram.bucketValues e) 0).

(** The shape of the duration histogram: the bounds given at registration,
    and every entry shaped. *)
Definition shaped (h : Histogram.t) : Prop :=
  Histogram.upperBounds h = buckets
  /\ forall l e, get l (Histogram.hashMap h) = Some e -> entryShaped e.

(** [m'] holds every label combination of [m], and no count of [m'] is
    below the count [m] has for it. *)
Definition grows (m m' : Metrics) : Prop :=
  (forall l,
     (get l (Histogram.hashMap (httpRequestDurationMicroseconds m)) <> None ->
      get l (Histogram.hashMap (httpRequestDurationMicroseconds m')) <> None)
     /\ (get l (Counter.hashMap (httpRequestsTotal m)) <> None ->
         get l (Counter.hashMap (httpRequestsTotal m')) <> None)
     /\ (get l (Counter.hashMap (httpErrorsTotal m)) <> None ->
         get l (Counter.hashMap (httpErrorsTotal m')) <> None))
  /\ (forall l,
        (Counter.value l (httpRequestsTotal m)
         <= Counter.value l (httpRequestsTotal m'))%nat
        /\ (Counter.value l (httpErrorsTotal m)
            <= Counter.value l (httpErrorsTotal m'))%nat
        /\ (countOf (view l (httpRequestDurationMicroseconds m))
            <= countOf (view l (httpRequestDurationMicroseconds m')))%nat
        /\ forall b,
             (Histogram.cumulativeCount b l (httpRequestDurationMicroseconds m)
              <= Histogram.cumulativeCount b l
                   (httpRequestDurationMicroseconds m'))%nat).

(** What the text of a snapshot needs of the platform to be read back line
    by line: a number prints on one line, every line of the default metrics
    is one line, and the default collectors do not write the help line of
    the duration histogram (the registry holds one metric per name). *)
Definition linewise (Number_toString : Q -> string) {ProcessEnv : Type}
  (defaultMetrics : ProcessEnv -> list string) : Prop :=
  (forall q, JS.singleLine (Number_toString q) = true)
  /\ (forall env,
        Forall (fun l => JS.singleLine l = true) (defaultMetrics env))
  /\ (forall env,
        ~ In (helpLine "http_request_duration_seconds"
                "Duration of HTTP requests in seconds") (defaultMetrics env)).

(** Two metrics states hold the same entries: every label combination has
    the same entry, or none, in each of the three series. *)
Definition sameEntries (m m' : Metrics) : Prop :=
  forall l,
    get l (Histogram.hashMap (httpRequestDurationMicroseconds m))
    = get l (Histogram.hashMap (httpRequestDurationMicroseconds m'))
    /\ get l (Counter.hashMap (httpRequestsTotal m))
       = get l (Counter.hashMap (httpRequestsTotal m'))
    /\ get l (Counter.hashMap (httpErrorsTotal m))
       = get l (Counter.hashMap (httpErrorsTotal m')).

(** The label combinations of two metrics states were created in the same
    order in each of the three series. *)
Definition sameOrder (m m' : Metrics) : Prop :=
  map fst (Histogram.hashMap (httpRequestDurationMicroseconds m))
  = map fst (Histogram.hashMap (httpRequestDurationMicroseconds m'))
  /\ map fst (Counter.hashMap (httpRequestsTotal m))
     = map fst (Counter.hashMap (httpRequestsTotal m'))
  /\ map fst (Counter.hashMap (httpErrorsTotal m))
     = map fst (Counter.hashMap (httpErrorsTotal m')).

(** Two requests that finish with different labels, for the order in which
    label combinations are created. *)
Definition healthThenReady : list Operation :=
  [ Observe
      (mkCompleted 0 1
         (mkRequest "GET" "/health" (Some (mkRoute "/health"))) 200);
    Observe
      (mkCompleted 2 3
         (mkRequest "GET" "/ready" (Some (mkRoute "/ready"))) 200) ].

(** A completed request belongs to the series of a method, a route label
    and a status code. *)
Definition sameSeries (meth rt : string) (code : Z) (c : Completed)
  : bool :=
  String.eqb (req_method (request c)) meth
  && String.eqb (routeLabel (request c)) rt
  && (status c =? code)%Z.

End App.

From Stdlib Require Import Permutation.

(** ** Traffic: sequences of requests through the server *)

Module Traffic.

Import PromClient App.

(** The router matched the request to the route registered under
    [pattern]. *)
Definition routed (pattern : string) (req : Request) : bool :=
  match req_route req with
  | Some r => String.eqb pattern (path r)
  | None => false
  end.

(** The patterns of the route table, in registration order. *)
Definition patterns : list string :=
  ["/health"; "/ready"; "/metrics"; "/"; "/api/status"; "/api/error-test"].

(** What one completed request does to the view of a label combination of
    the duration histogram: an observation when the request has these
    labels, nothing otherwise. *)
Definition observedIn (l : Labels) (v : View) (c : Completed) : View :=
  if Labels_eqb (labelsOf (request c) (status c)) l
  then spec_observe (duration (started c) (finished c)) v
  else v.

(** Two views show the same numbers: the same buckets and count, and sums
    that are equal as rationals. *)
Definition sameView (v v' : View) : Prop :=
  bucketsOf v = bucketsOf v' /\ countOf v = countOf v'
  /\ sumOf v == sumOf v'.

Section Arrivals.

Variable Number_toString : Q -> string.
Variable ProcessEnv : Type.
Variable defaultMetrics : ProcessEnv -> list string.

(** One request as the server meets it: what its handler will read, the
    two readings of the clock, and the request as the router hands it
    over. *)
Record Arrival : Type := mkArrival {
  surroundings : Env ProcessEnv;
  arrivedAt : Z;
  finishedAt : Z;
  asked : Request
}.

(** The metrics after one more request has been served. *)
Definition serveOne (m : Metrics) (a : Arrival) : Metrics :=
  after
    (serve Number_toString ProcessEnv defaultMetrics (surroundings a)
       (arrivedAt a) (finishedAt a) (asked a) m).

(** The metrics after a sequence of requests, each served to its finish
    before the next, oldest first. *)
Definition serveAll (arrivals : list Arrival) (m : Metrics) : Metrics :=
  fold_left serveOne arrivals m.

(** The status code a request is answered with when the series are as
    registered. *)
Definition answer (a : Arrival) : Z :=
  statusCode
    (response
       (serve Number_toString ProcessEnv defaultMetrics (surroundings a)
          (arrivedAt a) (finishedAt a) (asked a) initial)).

(** The request as the finish listener sees it. *)
Definition completed (a : Arrival) : Completed :=
  mkCompleted (arrivedAt a) (finishedAt a) (asked a) (answer a).

(** The router answers the request by itself: an [OPTIONS] request that
    matched no route, on a path that routes have. *)
Definition preflight (env : Env ProcessEnv) (req : Request) : bool :=
  String.eqb (req_method req) "OPTIONS"
  && match allowed (framework ProcessEnv env) with
     | Some _ => true
     | None => false
     end.

(** What a request is answered with when its exchange finishes, by the
    route the router matched. *)
Inductive Answered (env : Env ProcessEnv) (req : Request) : Z -> Prop :=
| answered_error_test :
    routed "/api/error-test" req = true -> Answered env req 500
| answered_failed_export err :
    routed "/metrics" req = true -> fault ProcessEnv env = Some err ->
    Answered env req 500
| answered_export :
    routed "/metrics" req = true -> fault ProcessEnv env = None ->
    Answered env req 200
| answered_ok pattern :
    In pattern ["/health"; "/ready"; "/"; "/api/status"] ->
    routed pattern req = true -> Answered env req 200
| answered_preflight :
    (forall pattern, In pattern patterns -> routed pattern req = false) ->
    preflight env req = true ->
    Answered env req 200
| answered_not_found :
    (forall pattern, In pattern patterns -> routed pattern req = false) ->
    preflight env req = false ->
    Answered env req 404.

End Arrivals.

Arguments surroundings {ProcessEnv} a.
Arguments arrivedAt {ProcessEnv} a.
Arguments finishedAt {ProcessEnv} a.
Arguments asked {ProcessEnv} a.

End Traffic.

(** ** Groovy primitives used by the pipelines

    A string is the list of its characters: [String.length] counts them
    and [contains] looks for a run of them. *)

Module Groovy.

(** [s.contains(sub)]. *)
Definition contains (s sub : string) : bool :=
  match String.index 0 sub s with
  | Some _ => true
  | None => false
  end.

(** A character that [trim()] removes: a code of at most 32. *)
Definition blank (c : ascii) : bool := (nat_of_ascii c <=? 32)%nat.

Fixpoint trimLeft (s : string) : string :=
  match s with
  | EmptyString => EmptyString
  | String c rest => if blank c then trimLeft rest else s
  end.

Fixpoint trimRight (s : string) : string :=
  match s with
  | EmptyString => EmptyString
  | String c rest =>
      match trimRight rest with
      | EmptyString => if blank c then EmptyString else String c EmptyString
      | kept => String c kept
      end
  end.

(** [s.trim()]. *)
Definition trim (s : string) : string := trimRight (trimLeft s).

(** [s.substring(beginIndex)]: the string from position [beginIndex] on;
    [None] stands for the exception thrown when the index is beyond the
    length. *)
Fixpoint substring (beginIndex : nat) (s : string) : option string :=
  match beginIndex with
  | O => Some s
  | S k =>
      match s with
      | EmptyString => None
      | String _ rest => substring k rest
      end
  end.

(** A value inside a double-quoted string: [null] is written as the word
    null. *)
Definition interpolate (v : option string) : string :=
  match v with
  | Some s => s
  | None => "null"
  end.

(** [v ?: fallback]: the fallback when the value is null or empty. *)
Definition elvis (v : option string) (fallback : string) : string :=
  match v with
  | Some s => if String.eqb s EmptyString then fallback else s
  | None => fallback
  end.

End Groovy.

(** ** The build pipelines

    [src/Jenkinsfile] is the current pipeline; the text that follows the
    application in [src/app/app.js] (lines 128-281) is an earlier one.
    Both are declarative pipelines: the stages run in order, a stage whose
    [when] expression is false is skipped, a stage that ends with an
    exception fails the build and the stages after it are skipped, and the
    [post] section runs whatever happened.  [dir('app')] only sets the
    directory the scripts run in and is left out.  The runner and the
    external commands are not part of the repository: the definitions
    marked as modelled state the rules of the runner that the scripts rely
    on, and what each command does in a run is an input ([Tools]). *)

Module Pipeline.

(** The value of [currentBuild.result], once set. *)
Inductive Result : Type :=
| SUCCESS
| UNSTABLE
| FAILURE.

Definition Result_toString (r : Result) : string :=
  match r with
  | SUCCESS => "SUCCESS"
  | UNSTABLE => "UNSTABLE"
  | FAILURE => "FAILURE"
  end.

Definition ordinal (r : Result) : nat :=
  match r with
  | SUCCESS => 0
  | UNSTABLE => 1
  | FAILURE => 2
  end.

Definition isWorseThan (r than : Result) : bool :=
  (ordinal than <? ordinal r)%nat.

(** Modelled from the spec: the setter of [currentBuild.result] is part of
    Jenkins, not of src/; the result of a build only gets worse. *)
Definition worsen (r : Result) (current : option Result) : option Result :=
  match current with
  | None => Some r
  | Some c => if isWorseThan r c then Some r else Some c
  end.

(** The values of the map sent to the backend. *)
Inductive Value : Type :=
| Str (s : string)
| Null
| Flag (b : bool).

Definition ofEnv (v : option string) : Value :=
  match v with
  | Some s => Str s
  | None => Null
  end.

(** The arguments of [httpRequest] that vary: the URL, the map serialized
    as the body, and the [Authorization] header. *)
Record Notification : Type := mkNotification {
  url : string;
  requestBody : list (string * Value);
  authorization : string
}.

(** The steps of the two pipelines that leave the build: a [bat] script, a
    credentials binding, the HTTP request. *)
Inductive Step : Type :=
| NpmInstall            (* npm install *)
| NpmAudit              (* npm audit --audit-level=high 2>&1 || exit 0 *)
| Eslint                (* npx eslint ... || exit 0 *)
| NpmTest               (* npm test *)
| DockerBuild           (* docker build, docker tag *)
| DockerLoginBuild      (* earlier pipeline: docker login, build, tag *)
| TrivyReport           (* trivy image --severity HIGH,CRITICAL --exit-code 0 *)
| TrivyCritical         (* trivy image --severity CRITICAL --exit-code 1 *)
| DockerhubCredentials  (* withCredentials dockerhub *)
| DockerPush            (* docker login, docker push *)
| KubeConfig            (* withKubeConfig kubeconfig-minikube *)
| KubectlContext        (* kubectl config current-context *)
| KubectlClusterInfo    (* kubectl cluster-info *)
| KubectlNodes          (* earlier pipeline: kubectl get nodes *)
| KubectlNamespace      (* kubectl create namespace ... | kubectl apply *)
| KubectlApply          (* kubectl apply deployment, service; rollout status *)
| KubectlServices       (* kubectl get services *)
| KubectlPods           (* kubectl get pods *)
| ChaosKubeConfig       (* withKubeConfig of the chaos stage *)
| ChaosApply            (* kubectl apply chaos-experiment || echo *)
| ChaosWait             (* ping -n 35 *)
| ChaosPods             (* kubectl get pods *)
| ChaosPodCount         (* kubectl get pods ... | find /c *)
| GitLog                (* git log -1 *)
| BuildLog              (* type ...log || echo *)
| ApiTokenCredentials   (* withCredentials jenkins-api-token *)
| HttpRequest.          (* httpRequest to the backend *)

(** What a step does in a run: it returns (with its standard output), or
    it throws an exception, whose message is a string. *)
Inductive Outcome : Type :=
| Returned (stdout : string)
| Threw (message : string).

Record Tools : Type := mkTools {
  outcome : Step -> Outcome;
  exitCode : Step -> Z   (* of a script run with returnStatus: true *)
}.

Record Params : Type := mkParams {
  RUN_CHAOS_TEST : bool;
  SKIP_SECURITY_SCAN : bool
}.

(** What the scripts read of the build and of its environment. *)
Record Jenkins : Type := mkJenkins {
  BUILD_NUMBER : option string;
  JOB_NAME : option string;
  BUILD_URL : option string;
  BACKEND_URL : option string;  (* as the agent defines it, if it does *)
  durationString : string;      (* currentBuild.durationString *)
  timestamp : string;           (* new Date().format(...) *)
  JENKINS_API_TOKEN : string
}.

(** The state of a build: its result, the stages entered, the steps run
    and the lines echoed, oldest first, and the notifications sent to the
    backend, those of the requests that succeeded. *)
Record Build : Type := mkBuild {
  result : option Result;
  entered : list string;
  ran : list Step;
  console : list string;
  sent : list Notification
}.

Definition start : Build := mkBuild None [] [] [] [].

(** [currentBuild.result ?: 'SUCCESS']. *)
Definition currentResult (b : Build) : Result :=
  match result b with
  | Some r => r
  | None => SUCCESS
  end.

(** How a piece of script ends: normally with a value, or with an
    exception. *)
Inductive Completion (A : Type) : Type :=
| Normal (a : A)
| Exception (message : string).

Arguments Normal {A} a.
Arguments Exception {A} message.

(** A piece of script: it changes the build and completes. *)
Definition M (A : Type) : Type := Build -> Completion A * Build.

Definition ret {A : Type} (a : A) : M A := fun b => (Normal a, b).

Definition bind {A B : Type} (m : M A) (k : A -> M B) : M B :=
  fun b =>
    match m b with
    | (Normal a, b') => k a b'
    | (Exception e, b') => (Exception e, b')
    end.

Local Notation "x <- m ;; k" := (bind m (fun x => k))
  (at level 61, m at next level, right associativity).
Local Notation "m ;; k" := (bind m (fun _ => k))
  (at level 61, right associativity).

(** [throw e], and [error(message)]. *)
Definition throw {A : Type} (e : string) : M A := fun b => (Exception e, b).

(** [try { body } catch (Exception e) { handler }]. *)
Definition try {A : Type} (body : M A) (handler : string -> M A) : M A :=
  fun b =>
    match body b with
    | (Normal a, b') => (Normal a, b')
    | (Exception e, b') => handler e b'
    end.

(** [echo line]. *)
Definition echo (line : string) : M unit :=
  fun b =>
    (Normal tt,
     mkBuild (result b) (entered b) (ran b) (console b ++ [line]) (sent b)).

(** [currentBuild.result = r]. *)
Definition setResult (r : Result) : M unit :=
  fun b =>
    (Normal tt,
     mkBuild (worsen r (result b)) (entered b) (ran b) (console b) (sent b)).

Definition getResult : M Result := fun b => (Normal (currentResult b), b).

(** The build with one more step run. *)
Definition didRun (s : Step) (b : Build) : Build :=
  mkBuild (result b) (entered b) (ran b ++ [s]) (console b) (sent b).

Section Run.

Variable params : Params.
Variable tools : Tools.
Variable jenkins : Jenkins.

(** Modelled from the spec: the [bat] step is part of Jenkins, not of
    src/.  [bat(script: ..., returnStdout: true)] gives the output of the
    script; a script that fails throws. *)
Definition batStdout (s : Step) : M string :=
  fun b =>
    match outcome tools s with
    | Returned out => (Normal out, didRun s b)
    | Threw e => (Exception e, didRun s b)
    end.

(** [bat '...']. *)
Definition bat (s : Step) : M unit := _ <- batStdout s ;; ret tt.

(** Modelled from the spec: [bat(script: ..., returnStatus: true)], part
    of Jenkins and not of src/, gives the exit code of the script, whatever
    it is. *)
Definition batStatus (s : Step) : M Z :=
  fun b => (Normal (exitCode tools s), didRun s b).

(** Modelled from the spec: [withCredentials([...]) { body }] and
    [withKubeConfig([...]) { body }] are steps of Jenkins plugins, not of
    src/; the binding may fail, then the body runs. *)
Definition binding {A : Type} (s : Step) (body : M A) : M A :=
  bat s ;; body.

(** Modelled from the spec: [httpRequest(...)] is a step of a Jenkins
    plugin, not of src/.  The request is made; when the step returns, the
    backend has answered with a code within [100:399] and the notification
    has been sent; a refused connection, a timeout or a code outside
    [100:399] makes the step throw, and the notification does not count as
    sent. *)
Definition httpRequest (n : Notification) : M unit :=
  fun b =>
    match outcome tools HttpRequest with
    | Returned _ =>
        (Normal tt,
         mkBuild (result b) (entered b) (ran b ++ [HttpRequest]) (console b)
           (sent b ++ [n]))
    | Threw e => (Exception e, didRun HttpRequest b)
    end.

(** [s.substring(beginIndex)] as a piece of script. *)
Definition substring (beginIndex : nat) (s : string) : M string :=
  match Groovy.substring beginIndex s with
  | Some rest => ret rest
  | None => throw "String index out of range"
  end.

(** *** Stages of the current pipeline (src/Jenkinsfile) *)

(** Install Dependencies, lines 16-22. *)
Definition installDependencies : M unit := bat NpmInstall.

(** Security: SAST, lines 34-61. *)
Definition securitySast : M unit :=
  echo "🔒 Running SAST Security Checks..." ;;
  echo "📦 Checking npm dependencies for vulnerabilities..." ;;
  auditResult <- batStdout NpmAudit ;;
  echo auditResult ;;
  (if Groovy.contains auditResult "high"
      || Groovy.contains auditResult "critical"
   then echo "⚠️ WARNING: Vulnerabilities found in dependencies!"
   else echo "✅ No high/critical vulnerabilities in dependencies") ;;
  echo "🔍 Running ESLint Security Analysis..." ;;
  try
    (bat Eslint ;;
     echo "✅ ESLint security check completed")
    (fun e => echo ("⚠️ ESLint found issues: " ++ e)).

(** Run Tests, lines 66-72. *)
Definition runTests : M unit := bat NpmTest.

(** Docker Build, lines 74-84. *)
Definition dockerBuild : M unit := bat DockerBuild.

(** Security: Container Scan, lines 94-128. *)
Definition securityContainerScan : M unit :=
  echo "🔒 Scanning Docker image for vulnerabilities with Trivy..." ;;
  try
    (trivyResult <- batStdout TrivyReport ;;
     echo trivyResult ;;
     criticalScan <- batStatus TrivyCritical ;;
     (if negb (criticalScan =? 0)%Z
      then throw "🚨 CRITICAL vulnerabilities found! Pipeline stopped for security review."
      else ret tt) ;;
     echo "✅ Container security scan passed - No CRITICAL vulnerabilities")
    (fun e =>
       (if Groovy.contains e "CRITICAL vulnerabilities"
        then throw e
        else ret tt) ;;
       echo ("⚠️ Trivy scan warning: " ++ e) ;;
       echo "Continuing with deployment...").

(** Docker Push, lines 132-144. *)
Definition dockerPush : M unit :=
  binding DockerhubCredentials (bat DockerPush).

(** Kubernetes Deployment, lines 146-176. *)
Definition kubernetesDeployment : M unit :=
  echo "🚀 Deploying to Kubernetes..." ;;
  try
    (binding KubeConfig
       (bat KubectlContext ;;
        bat KubectlClusterInfo ;;
        echo "Creating namespace if not exists..." ;;
        bat KubectlNamespace ;;
        echo "Applying Kubernetes manifests..." ;;
        bat KubectlApply ;;
        echo "✅ Kubernetes deployment successful!" ;;
        bat KubectlServices ;;
        bat KubectlPods))
    (fun e =>
       echo ("❌ Kubernetes deployment failed: " ++ e) ;;
       setResult UNSTABLE ;;
       echo "Build continues despite K8s issues").

(** Chaos Test, lines 181-216. *)
Definition chaosTest : M unit :=
  echo "🔥 Running Chaos Engineering Test..." ;;
  try
    (binding ChaosKubeConfig
       (echo "Applying pod failure chaos experiment..." ;;
        bat ChaosApply ;;
        echo "Waiting for chaos experiment to execute (30 seconds)..." ;;
        bat ChaosWait ;;
        echo "Verifying pod recovery..." ;;
        bat ChaosPods ;;
        counted <- batStdout ChaosPodCount ;;
        let podCount := Groovy.trim counted in
        echo ("Running pods after chaos: " ++ podCount) ;;
        echo "✅ Chaos test completed - System recovered successfully!"))
    (fun e =>
       echo ("⚠️ Chaos test issue: " ++ e) ;;
       setResult UNSTABLE).

(** *** The post section *)

(** The excerpt of the build log kept as error details (lines 245-247):
    the log when it has at most 1000 characters, otherwise three dots and
    its last 1000 characters. *)
Definition excerpt (log : string) : M string :=
  if (1000 <? String.length log)%nat
  then
    kept <- substring (String.length log - 1000) log ;;
    ret ("..." ++ kept)
  else ret log.

(** [buildStatus in ['FAILURE', 'UNSTABLE']]. *)
Definition unsuccessful (buildStatus : Result) : bool :=
  match buildStatus with
  | SUCCESS => false
  | UNSTABLE | FAILURE => true
  end.

(** [buildStatus in ['SUCCESS', 'UNSTABLE']]. *)
Definition notFailed (buildStatus : Result) : bool :=
  match buildStatus with
  | SUCCESS | UNSTABLE => true
  | FAILURE => false
  end.

(** The [always] script of the post section (lines 221-283 of
    src/Jenkinsfile, lines 206-266 of the earlier pipeline): the summary of
    the build is assembled and posted to the backend.  [flags] are the
    entries the current pipeline adds at the end of the map. *)
Definition postAlways (flags : list (string * Value)) : M unit :=
  buildStatus <- getResult ;;
  let buildNumber := BUILD_NUMBER jenkins in
  let jobName := JOB_NAME jenkins in
  let consoleLink := Groovy.interpolate (BUILD_URL jenkins) ++ "console" in
  let duration := durationString jenkins in
  commitMessage <-
    try
      (out <- batStdout GitLog ;; ret (Groovy.trim out))
      (fun _ => ret "Could not retrieve commit message") ;;
  errorDetails <-
    (if unsuccessful buildStatus
     then
       try
         (log <- batStdout BuildLog ;; excerpt log)
         (fun e => ret ("Could not retrieve error details: " ++ e))
     else ret EmptyString) ;;
  let jsonBody :=
    ([ ("status", Str (Result_toString buildStatus));
      ("jobName", ofEnv jobName);
      ("buildNumber", ofEnv buildNumber);
      ("consoleLink", Str consoleLink);
      ("commitMessage", Str commitMessage);
      ("duration", Str duration);
      ("errorDetails", Str errorDetails);
      ("timestamp", Str (timestamp jenkins));
       ("kubernetesDeployed", Flag (notFailed buildStatus)) ]
     ++ flags)%list in
  binding ApiTokenCredentials
    (try
       (httpRequest
          (mkNotification
             (Groovy.elvis (BACKEND_URL jenkins) "http://localhost:3001"
              ++ "/api/log-final-status")
             jsonBody
             ("Bearer " ++ JENKINS_API_TOKEN jenkins)) ;;
        echo "Build status sent successfully to backend.")
       (fun e => echo ("Failed to send build status to backend: " ++ e))).

(** The entries the current pipeline adds to the summary (lines 263-264). *)
Definition securityFlags : list (string * Value) :=
  [ ("securityScanPassed", Flag (negb (SKIP_SECURITY_SCAN params)));
    ("chaosTestRun", Flag (RUN_CHAOS_TEST params)) ].

(** *** Running a declarative pipeline *)

Record Stage : Type := mkStage {
  stageName : string;
  when : bool;
  steps : M unit
}.

Definition enter (name : string) (b : Build) : Build :=
  mkBuild (result b) (entered b ++ [name]) (ran b) (console b) (sent b).

(** Modelled from the spec: the runner of declarative pipelines is part of
    Jenkins, not of src/; this is the build marked as failed. *)
Definition failed (b : Build) : Build :=
  mkBuild (worsen FAILURE (result b)) (entered b) (ran b) (console b)
    (sent b).

(** Modelled from the spec: the runner of declarative pipelines is part of
    Jenkins, not of src/.  The stages run in order: a stage whose [when] is
    false is skipped; a stage that ends with an exception fails the build
    and the stages after it are skipped. *)
Fixpoint runStages (stages : list Stage) (b : Build) : Build :=
  match stages with
  | [] => b
  | stage :: rest =>
      if when stage
      then
        match steps stage (enter (stageName stage) b) with
        | (Normal _, b') => runStages rest b'
        | (Exception _, b') => failed b'
        end
      else runStages rest b
  end.

(** Modelled from the spec: the runner of declarative pipelines is part of
    Jenkins, not of src/.  The post section runs the [always] script, which
    fails the build when it ends with an exception, then the one of
    [success], [failure] and [unstable] that matches the result. *)
Definition post (always : M unit) (messages : Result -> string)
  (b : Build) : Build :=
  let b' :=
    match always b with
    | (Normal _, after) => after
    | (Exception _, after) => failed after
    end in
  snd (echo (messages (currentResult b')) b').

(** *** The current pipeline (src/Jenkinsfile) *)

Definition stages : list Stage :=
  [ mkStage "Install Dependencies" true installDependencies;
    mkStage "Security: SAST" (negb (SKIP_SECURITY_SCAN params)) securitySast;
    mkStage "Run Tests" true runTests;
    mkStage "Docker Build" true dockerBuild;
    mkStage "Security: Container Scan" (negb (SKIP_SECURITY_SCAN params))
      securityContainerScan;
    mkStage "Docker Push" true dockerPush;
    mkStage "Kubernetes Deployment" true kubernetesDeployment;
    mkStage "Chaos Test" (RUN_CHAOS_TEST params) chaosTest ].

(** Lines 286-296. *)
Definition messages (r : Result) : string :=
  match r with
  | SUCCESS => "✅ Build completed successfully! All security checks passed."
  | FAILURE => "❌ Build failed. Check security reports and logs for details."
  | UNSTABLE => "⚠️ Build completed with warnings. Review security findings."
  end.

(** The build when the stages are over, before the post section. *)
Definition staged : Build := runStages stages start.

(** The build when the pipeline is over. *)
Definition run : Build := post (postAlways securityFlags) messages staged.

(** *** The earlier pipeline (src/app/app.js, lines 128-281) *)

(** Docker Build & Push, lines 153-168: the push itself is commented
    out. *)
Definition dockerBuildAndPush : M unit :=
  binding DockerhubCredentials (bat DockerLoginBuild).

(** Kubernetes Deployment, lines 170-201: the [try] is inside
    [withKubeConfig]. *)
Definition kubernetesDeploymentEarlier : M unit :=
  echo "Deploying to Kubernetes using kubeconfig credentials..." ;;
  binding KubeConfig
    (try
       (bat KubectlContext ;;
        bat KubectlClusterInfo ;;
        bat KubectlNodes ;;
        echo "Creating namespace if not exists..." ;;
        bat KubectlNamespace ;;
        echo "Applying Kubernetes manifests..." ;;
        bat KubectlApply ;;
        echo "Kubernetes deployment successful!" ;;
        bat KubectlServices ;;
        bat KubectlPods)
       (fun e =>
          echo ("Kubernetes deployment failed: " ++ e) ;;
          setResult UNSTABLE ;;
          echo "Continuing build despite Kubernetes deployment issues")).

Definition stagesEarlier : list Stage :=
  [ mkStage "Install Dependencies" true installDependencies;
    mkStage "Run Tests" true (echo "No tests implemented yet.");
    mkStage "Docker Build & Push" true dockerBuildAndPush;
    mkStage "Kubernetes Deployment" true kubernetesDeploymentEarlier ].


Definition stagedEarlier : Build := runStages stagesEarlier start.


(** *** Vocabulary of the statements about the pipelines *)

(** The step ends with an exception in this run. *)
Definition throws (s : Step) : bool :=
  match outcome tools s with
  | Threw _ => true
  | Returned _ => false
  end.

(** The steps of a sequence that run, each one after the other: those up
    to the first that throws. *)
Fixpoint attempted (sequence : list Step) : list Step :=
  match sequence with
  | [] => []
  | s :: rest => s :: if throws s then [] else attempted rest
  end.

(** The security stages are part of the run. *)
Definition scanning : bool := negb (SKIP_SECURITY_SCAN params).

(** The steps of the two security stages. *)
Definition securitySteps : list Step :=
  [NpmAudit; Eslint; TrivyReport; TrivyCritical].

(** The steps inside the [try] of the deployment stage of the current
    pipeline. *)
Definition deploySteps : list Step :=
  [KubeConfig; KubectlContext; KubectlClusterInfo; KubectlNamespace;
   KubectlApply; KubectlServices; KubectlPods].

(** The steps inside the [try] of the deployment stage of the earlier
    pipeline. *)
Definition deployStepsEarlier : list Step :=
  [KubectlContext; KubectlClusterInfo; KubectlNodes; KubectlNamespace;
   KubectlApply; KubectlServices; KubectlPods].

(** The steps inside the [try] of the chaos stage. *)
Definition chaosSteps : list Step :=
  [ChaosKubeConfig; ChaosApply; ChaosWait; ChaosPods; ChaosPodCount].

(** The entry of a key in the map sent to the backend. *)
Fixpoint field (key : string) (entries : list (string * Value))
  : option Value :=
  match entries with
  | [] => None
  | (k, v) :: rest => if String.eqb key k then Some v else field key rest
  end.

End Run.

(** *** Example runs *)

(** Every command succeeds and the scanner finds nothing. *)
Definition calm : Tools :=
  mkTools (fun _ => Returned EmptyString) (fun _ => 0%Z).

(** The scanner finds a CRITICAL vulnerability in the image. *)
Definition criticalImage : Tools :=
  mkTools (fun _ => Returned EmptyString)
    (fun s => match s with TrivyCritical => 1%Z | _ => 0%Z end).

(** The scanner is not installed on the agent. *)
Definition scannerMissing : Tools :=
  mkTools
    (fun s =>
       match s with
       | TrivyReport => Threw "script returned exit code 1"
       | _ => Returned EmptyString
       end)
    (fun _ => 1%Z).

(** The cluster does not answer. *)
Definition clusterDown : Tools :=
  mkTools
    (fun s =>
       match s with
       | KubectlClusterInfo => Threw "script returned exit code 1"
       | _ => Returned EmptyString
       end)
    (fun _ => 0%Z).


Definition defaults : Params := mkParams false false.


Definition exampleJenkins : Jenkins :=
  mkJenkins (Some "7") (Some "ci-cd-app")
    (Some "http://localhost:8080/job/ci-cd-app/7/") None "1 min 2 sec"
    "2024-01-01T00:00:00Z" "secret".

End Pipeline.

(** * Properties *)

Import PromClient App.

(** ** Label sets and hash maps *)

Lemma Labels_eqb_eq (a b : Labels) : Labels_eqb a b = true <-> a = b.
Proof.
  unfold Labels_eqb. rewrite !andb_true_iff, !String.eqb_eq.
  destruct a, b; simpl. split.
  - intros [[-> ->] ->]. reflexivity.
  - intros [= -> -> ->]. auto.
Qed.

Lemma Labels_eqb_refl (a : Labels) : Labels_eqb a a = true.
Proof. apply Labels_eqb_eq. reflexivity. Qed.

Lemma Labels_eqb_neq (a b : Labels) : Labels_eqb a b = false <-> a <> b.
Proof.
  rewrite <- Labels_eqb_eq. destruct (Labels_eqb a b); split; congruence.
Qed.

Lemma Labels_eq_dec (a b : Labels) : {a = b} + {a <> b}.
Proof.
  destruct (Labels_eqb a b) eqn:E.
  - left. now apply Labels_eqb_eq.
  - right. now apply Labels_eqb_neq.
Qed.

Lemma get_put_same {V : Type} (l : Labels) (e : V) (hm : list (Labels * V)) :
  get l (put l e hm) = Some e.
Proof.
  induction hm as [|[k x] rest IH]; simpl.
  - now rewrite Labels_eqb_refl.
  - destruct (Labels_eqb k l) eqn:E; simpl; rewrite E; auto.
Qed.

Lemma get_put_other {V : Type} (l l' : Labels) (e : V)
  (hm : list (Labels * V)) :
  l' <> l -> get l' (put l e hm) = get l' hm.
Proof.
  intros Hne. induction hm as [|[k x] rest IH]; simpl.
  - assert (Labels_eqb l l' = false) as -> by (apply Labels_eqb_neq; congruence).
    reflexivity.
  - destruct (Labels_eqb k l) eqn:E; simpl.
    + apply Labels_eqb_eq in E. subst k.
      assert (Labels_eqb l l' = false) as -> by (apply Labels_eqb_neq; congruence).
      reflexivity.
    + destruct (Labels_eqb k l'); auto.
Qed.

(** ** Counters *)

Lemma value_inc_same (l : Labels) (c : Counter.t) :
  Counter.value l (Counter.inc l c) = S (Counter.value l c).
Proof. unfold Counter.value, Counter.inc; simpl. now rewrite get_put_same. Qed.

Lemma get_inc_other (l l' : Labels) (c : Counter.t) :
  l' <> l ->
  get l' (Counter.hashMap (Counter.inc l c)) = get l' (Counter.hashMap c).
Proof. intros H. unfold Counter.inc; simpl. now apply get_put_other. Qed.

Lemma value_inc_other (l l' : Labels) (c : Counter.t) :
  l' <> l -> Counter.value l' (Counter.inc l c) = Counter.value l' c.
Proof. intros H. unfold Counter.value. now rewrite get_inc_other. Qed.

Lemma value_inc (l l' : Labels) (c : Counter.t) :
  Counter.value l' (Counter.inc l c)
  = (Counter.value l' c + if Labels_eqb l l' then 1 else 0)%nat.
Proof.
  destruct (Labels_eqb l l') eqn:E.
  - apply Labels_eqb_eq in E. subst. rewrite value_inc_same. lia.
  - apply Labels_eqb_neq in E. rewrite value_inc_other by congruence. lia.
Qed.

(** ** Status codes as label values *)

Lemma Z_toString_inj (a b : Z) : JS.Z_toString a = JS.Z_toString b -> a = b.
Proof.
  unfold JS.Z_toString. intros H.
  assert (nonnil : forall z, Z.to_int z <> Decimal.Pos Decimal.Nil
                             /\ Z.to_int z <> Decimal.Neg Decimal.Nil).
  { intros [|p|p]; simpl; split; try discriminate;
      intros [= E]; now apply (DecimalPos.Unsigned.to_uint_nonnil p). }
  apply DecimalZ.to_int_inj.
  assert (Some (Z.to_int a) = Some (Z.to_int b)) as [= E]; [|exact E].
  rewrite <- (NilZero.isi (Z.to_int a)), <- (NilZero.isi (Z.to_int b));
    try apply nonnil.
  now rewrite H.
Qed.

Lemma nat_toString_inj (a b : nat) :
  JS.nat_toString a = JS.nat_toString b -> a = b.
Proof.
  unfold JS.nat_toString. intros H.
  assert (nonnil : forall n, Nat.to_uint n <> Decimal.Nil).
  { intros n.
    rewrite <- (DecimalNat.Unsigned.of_to n), DecimalNat.Unsigned.to_of.
    apply DecimalFacts.unorm_nonnil. }
  apply DecimalNat.Unsigned.to_uint_inj.
  assert (Some (Nat.to_uint a) = Some (Nat.to_uint b)) as [= E]; [|exact E].
  rewrite <- (NilZero.usu (Nat.to_uint a)), <- (NilZero.usu (Nat.to_uint b));
    try apply nonnil.
  now rewrite H.
Qed.

Lemma sameSeries_labels (meth rt : string) (code : Z) (c : Completed) :
  Labels_eqb (labelsOf (request c) (status c))
    (mkLabels meth rt (JS.Z_toString code))
  = sameSeries meth rt code c.
Proof.
  unfold Labels_eqb, sameSeries, labelsOf; simpl.
  f_equal.
  destruct (Z.eqb_spec (status c) code) as [->|Hne].
  - apply String.eqb_refl.
  - apply String.eqb_neq. intros H. now apply Z_toString_inj in H.
Qed.

(** ** The finish listener, series by series *)

Lemma entry_observe_same (l : Labels) (v : Q) (h : Histogram.t) :
  Histogram.entry l (Histogram.observe l v h)
  = Histogram.observeEntry (Histogram.upperBounds h) v (Histogram.entry l h).
Proof.
  unfold Histogram.entry at 1, Histogram.observe; simpl.
  now rewrite get_put_same.
Qed.

Lemma get_observe_other (l l' : Labels) (v : Q) (h : Histogram.t) :
  l' <> l ->
  get l' (Histogram.hashMap (Histogram.observe l v h))
  = get l' (Histogram.hashMap h).
Proof. intros H. unfold Histogram.observe; simpl. now apply get_put_other. Qed.

Lemma entry_observe_other (l l' : Labels) (v : Q) (h : Histogram.t) :
  l' <> l ->
  Histogram.entry l' (Histogram.observe l v h) = Histogram.entry l' h.
Proof.
  intros H. unfold Histogram.entry. now rewrite get_observe_other.
Qed.

Lemma onFinish_updatedAt (start now : Z) (req : Request) (code : Z)
  (m : Metrics) :
  updatedAt (labelsOf req code) code m (onFinish start now req code m).
Proof.
  unfold updatedAt, onFinish; simpl. repeat split.
  - now rewrite entry_observe_same.
  - apply value_inc_same.
  - destruct (500 <=? code)%Z.
    + rewrite value_inc_same. lia.
    + lia.
  - now apply get_observe_other.
  - now apply get_inc_other.
  - destruct (500 <=? code)%Z; [now apply get_inc_other | reflexivity].
Qed.

Lemma requests_record (m : Metrics) (c : Completed) (l : Labels) :
  Counter.value l (httpRequestsTotal (record m c))
  = (Counter.value l (httpRequestsTotal m)
     + if Labels_eqb (labelsOf (request c) (status c)) l then 1 else 0)%nat.
Proof. unfold record, onFinish; simpl. apply value_inc. Qed.

Lemma requests_recordAll (cs : list Completed) (m : Metrics) (l : Labels) :
  Counter.value l (httpRequestsTotal (recordAll cs m))
  = (Counter.value l (httpRequestsTotal m)
     + List.length
         (filter (fun c => Labels_eqb (labelsOf (request c) (status c)) l)
            cs))%nat.
Proof.
  unfold recordAll. revert m.
  induction cs as [|c cs IH]; intros m; simpl.
  - lia.
  - rewrite IH, requests_record.
    destruct (Labels_eqb (labelsOf (request c) (status c)) l); simpl; lia.
Qed.

Lemma filter_all {A : Type} (f : A -> bool) (xs : list A) :
  (forall x, In x xs -> f x = true) -> filter f xs = xs.
Proof.
  induction xs as [|x xs IH]; simpl; intros H; [reflexivity|].
  rewrite (H x) by auto. f_equal. apply IH. auto.
Qed.

(** C1.  After any sequence of completed requests, starting from the series
    as registered, the total-request counter of a label combination
    [{method, route, status_code}] equals the number of requests of the
    sequence that finished with that method and status code and that the
    router matched to the route template [route] (or that matched no route
    and had [route] as their raw path).  In particular, when all N requests
    of the sequence have that method, were matched to that route template
    and finished with that status code, the counter equals exactly N. *)
Theorem http_requests_total_counts_requests
  (cs : list Completed) (meth rt : string) (code : Z) :
  let total :=
    Counter.value (mkLabels meth rt (JS.Z_toString code))
      (httpRequestsTotal (recordAll cs initial)) in
  total
  = List.length
      (filter
         (fun c =>
            String.eqb (req_method (request c)) meth
            && match req_route (request c) with
               | Some r => String.eqb (path r) rt
               | None => String.eqb (req_path (request c)) rt
               end
            && (status c =? code)%Z)
         cs)
  /\ ((forall c, In c cs ->
         req_method (request c) = meth
         /\ req_route (request c) = Some (mkRoute rt)
         /\ status c = code) ->
      total = List.length cs).
Proof.
  cbv zeta.
  assert (Counter.value (mkLabels meth rt (JS.Z_toString code))
            (httpRequestsTotal (recordAll cs initial))
          = List.length
              (filter
                 (fun c =>
                    String.eqb (req_method (request c)) meth
                    && match req_route (request c) with
                       | Some r => String.eqb (path r) rt
                       | None => String.eqb (req_path (request c)) rt
                       end
                    && (status c =? code)%Z)
                 cs)) as E.
  { rewrite requests_recordAll. simpl.
    f_equal. apply filter_ext. intros c. rewrite sameSeries_labels.
    unfold sameSeries, routeLabel.
    now destruct (req_route (request c)). }
  split; [exact E|].
  intros Hall. rewrite E. rewrite filter_all; [reflexivity|].
  intros c Hc. destruct (Hall c Hc) as (-> & -> & ->).
  cbn [path]. now rewrite !String.eqb_refl, Z.eqb_refl.
Qed.

(** C2.  When a request completes, the error counter of the label
    combination made of the request's method, its route (the matched
    pattern, or the raw path when nothing matched) and its status code
    gains exactly 1 if and only if the status code is at least 500; below
    500 the error counter is left as it is, and no other label combination
    changes in either case. *)
Theorem http_errors_total_iff_5xx
  (start now : Z) (req : Request) (code : Z) (m : Metrics) :
  let labels :=
    mkLabels (req_method req)
      (match req_route req with
       | Some r => path r
       | None => req_path req
       end)
      (JS.Z_toString code) in
  let m' := onFinish start now req code m in
  (Counter.value labels (httpErrorsTotal m')
   = S (Counter.value labels (httpErrorsTotal m)) <-> (500 <= code)%Z)
  /\ ((code < 500)%Z -> httpErrorsTotal m' = httpErrorsTotal m)
  /\ (forall other, other <> labels ->
        Counter.value other (httpErrorsTotal m')
        = Counter.value other (httpErrorsTotal m)).
Proof.
  cbv zeta.
  change (mkLabels (req_method req)
            (match req_route req with
             | Some r => path r
             | None => req_path req
             end)
            (JS.Z_toString code))
    with (labelsOf req code).
  unfold onFinish; simpl.
  destruct (Z.leb_spec 500 code) as [Hge|Hlt].
  - split; [|split].
    + split; [lia|]. intros _. apply value_inc_same.
    + lia.
    + intros other Hne. now apply value_inc_other.
  - split; [|split].
    + split; lia.
    + reflexivity.
    + reflexivity.
Qed.

(** C8.  The three updates of one completed request all go to the label
    combination whose route label is the matched route's path pattern when
    the router matched a route, and the raw request path when it matched
    none; no other label combination of any of the three series changes. *)
Theorem route_label_pattern_or_raw_path
  (start now : Z) (req : Request) (code : Z) (m : Metrics) :
  let m' := onFinish start now req code m in
  (forall r, req_route req = Some r ->
     updatedAt (mkLabels (req_method req) (path r) (JS.Z_toString code))
       code m m')
  /\ (req_route req = None ->
      updatedAt (mkLabels (req_method req) (req_path req) (JS.Z_toString code))
        code m m').
Proof.
  cbv zeta.
  pose proof (onFinish_updatedAt start now req code m) as H.
  unfold labelsOf, routeLabel in H.
  split.
  - intros r Hr. now rewrite Hr in H.
  - intros Hr. now rewrite Hr in H.
Qed.

(** ** Histogram buckets *)

Lemma Qeq_bool_tt (k a b : Q) :
  Qeq_bool k a = true -> Qeq_bool k b = true -> Qeq_bool a b = true.
Proof.
  rewrite !Qeq_bool_iff. intros H1 H2. now rewrite <- H1, <- H2.
Qed.

Lemma Qeq_bool_tf (k a b : Q) :
  Qeq_bool k a = true -> Qeq_bool k b = false -> Qeq_bool a b = false.
Proof.
  intros H1 H2. destruct (Qeq_bool a b) eqn:E; [|reflexivity].
  apply Qeq_bool_iff in H1, E.
  assert (Qeq_bool k b = true) by (apply Qeq_bool_iff; now rewrite H1).
  congruence.
Qed.

Lemma Qeq_bool_ft (k a b : Q) :
  Qeq_bool k a = false -> Qeq_bool k b = true -> Qeq_bool a b = false.
Proof.
  intros H1 H2. destruct (Qeq_bool a b) eqn:E; [|reflexivity].
  apply Qeq_bool_iff in H2, E.
  assert (Qeq_bool k a = true) by (apply Qeq_bool_iff; now rewrite H2, E).
  congruence.
Qed.

Lemma Qeq_bool_lt (a b : Q) : a < b -> Qeq_bool a b = false.
Proof.
  intros H. destruct (Qeq_bool a b) eqn:E; [|reflexivity].
  apply Qeq_bool_iff in E. rewrite E in H. now apply Qlt_irrefl in H.
Qed.

Lemma bump_keys (b : Q) (bv : list (Q * nat)) :
  map fst (Histogram.bump b bv) = map fst bv.
Proof.
  induction bv as [|[k n] rest IH]; simpl; [reflexivity|].
  destruct (Qeq_bool k b); simpl; congruence.
Qed.

Lemma bucketValue_bump (bv : list (Q * nat)) (b0 b : Q) :
  In b0 (map fst bv) ->
  Histogram.bucketValue b (Histogram.bump b0 bv)
  = (Histogram.bucketValue b bv + if Qeq_bool b0 b then 1 else 0)%nat.
Proof.
  induction bv as [|[k n] rest IH]; simpl; intros Hin; [contradiction|].
  destruct (Qeq_bool k b0) eqn:E0; simpl.
  - destruct (Qeq_bool k b) eqn:E1.
    + rewrite (Qeq_bool_tt k b0 b) by assumption. lia.
    + rewrite (Qeq_bool_tf k b0 b) by assumption. lia.
  - destruct Hin as [->|Hin].
    + rewrite Qeq_bool_refl in E0. discriminate.
    + destruct (Qeq_bool k b) eqn:E1.
      * rewrite (Qeq_bool_ft k b0 b) by assumption. lia.
      * now apply IH.
Qed.

Lemma findBound_Some (bs : list Q) (v b0 : Q) :
  Histogram.findBound bs v = Some b0 -> In b0 bs /\ Qle_bool v b0 = true.
Proof.
  induction bs as [|b rest IH]; simpl; [discriminate|].
  destruct (Qle_bool v b) eqn:E.
  - intros [= <-]. auto.
  - intros H. destruct (IH H). auto.
Qed.

Lemma cumulative_keys (bs : list Q) (bv : list (Q * nat)) (acc : nat) :
  map fst (Histogram.cumulative bs bv acc) = bs.
Proof.
  revert acc. induction bs as [|b rest IH]; intros acc; simpl;
    [reflexivity | now rewrite IH].
Qed.

Lemma cumulative_shift (bs : list Q) (bv : list (Q * nat)) (acc : nat) :
  Histogram.cumulative bs bv (S acc)
  = map (fun p => (fst p, S (snd p))) (Histogram.cumulative bs bv acc).
Proof.
  revert acc. induction bs as [|b rest IH]; intros acc; simpl;
    [reflexivity|].
  f_equal. apply IH.
Qed.

Lemma cumulative_ext (bs : list Q) (bv bv' : list (Q * nat)) (acc : nat) :
  (forall b, In b bs ->
     Histogram.bucketValue b bv' = Histogram.bucketValue b bv) ->
  Histogram.cumulative bs bv' acc = Histogram.cumulative bs bv acc.
Proof.
  revert acc. induction bs as [|b rest IH]; intros acc H; simpl;
    [reflexivity|].
  rewrite (H b) by (now left). f_equal. apply IH. intros; apply H; now right.
Qed.

(** Counting a value in its bucket moves the cumulative counts as the spec
    words it: every bound at or above the value gains 1. *)
Lemma cumulative_observe (bs : list Q) (bv : list (Q * nat)) (v : Q) :
  StronglySorted Qlt bs ->
  (forall b, In b bs -> In b (map fst bv)) ->
  forall acc,
    Histogram.cumulative bs
      (match Histogram.findBound bs v with
       | Some b0 => Histogram.bump b0 bv
       | None => bv
       end) acc
    = map (countIn v) (Histogram.cumulative bs bv acc).
Proof.
  induction bs as [|b rest IH]; intros Hsorted Hkeys acc; simpl;
    [reflexivity|].
  apply StronglySorted_inv in Hsorted as [Hrest Hlt].
  rewrite Forall_forall in Hlt.
  unfold countIn at 1; simpl.
  destruct (Qle_bool v b) eqn:Hv.
  - rewrite bucketValue_bump by (apply Hkeys; now left).
    rewrite Qeq_bool_refl.
    replace (acc + (Histogram.bucketValue b bv + 1))%nat
      with (S (acc + Histogram.bucketValue b bv)) by lia.
    f_equal.
    rewrite cumulative_ext with (bv := bv).
    + rewrite cumulative_shift. apply map_ext_in.
      intros [k n] Hin. unfold countIn; simpl.
      assert (In k rest) as Hk.
      { rewrite <- (cumulative_keys rest bv (acc + Histogram.bucketValue b bv)).
        change k with (fst (k, n)). now apply in_map. }
      assert (Qle_bool v k = true) as ->; [|reflexivity].
      apply Qle_bool_iff. apply Qle_bool_iff in Hv.
      apply Qle_trans with b; [exact Hv|]. apply Qlt_le_weak. now apply Hlt.
    + intros k Hk. rewrite bucketValue_bump by (apply Hkeys; now left).
      rewrite Qeq_bool_lt by (now apply Hlt). lia.
  - assert (Histogram.bucketValue b
              (match Histogram.findBound rest v with
               | Some b0 => Histogram.bump b0 bv
               | None => bv
               end) = Histogram.bucketValue b bv) as ->.
    { destruct (Histogram.findBound rest v) as [b0|] eqn:E; [|reflexivity].
      apply findBound_Some in E as [Hin _].
      rewrite bucketValue_bump by (apply Hkeys; now right).
      destruct (Qeq_bool b0 b) eqn:Eb; [|lia].
      apply Qeq_bool_iff in Eb. specialize (Hlt b0 Hin).
      rewrite Eb in Hlt. now apply Qlt_irrefl in Hlt. }
    f_equal. apply IH; [exact Hrest|]. intros k Hk. apply Hkeys. now right.
Qed.

Lemma buckets_sorted : StronglySorted Qlt buckets.
Proof.
  unfold buckets.
  repeat (constructor; [|repeat constructor; reflexivity]).
  constructor.
Qed.

(** ** The shape of the duration histogram *)

Lemma bucketValue_fresh (bs : list Q) (b : Q) :
  Histogram.bucketValue b (map (fun k => (k, 0%nat)) bs) = 0%nat.
Proof.
  induction bs as [|k rest IH]; simpl; [reflexivity|].
  now destruct (Qeq_bool k b).
Qed.

Lemma cumulative_fresh (bs bs' : list Q) (acc : nat) :
  Forall (fun bucket => snd bucket = acc)
    (Histogram.cumulative bs (map (fun k => (k, 0%nat)) bs') acc).
Proof.
  induction bs as [|b rest IH]; simpl; constructor.
  - simpl. rewrite bucketValue_fresh. lia.
  - rewrite bucketValue_fresh. now rewrite Nat.add_0_r.
Qed.

Lemma createBaseValues_shaped :
  entryShaped (Histogram.createBaseValues buckets).
Proof.
  unfold entryShaped, Histogram.createBaseValues.
  cbn [Histogram.bucketValues Histogram.count]. split.
  - rewrite map_map. apply map_id.
  - eapply Forall_impl; [|apply cumulative_fresh].
    cbn beta. intros p ->. lia.
Qed.

Lemma observeEntry_cumulative (v : Q) (e : Histogram.Entry) :
  map fst (Histogram.bucketValues e) = buckets ->
  Histogram.cumulative buckets
    (Histogram.bucketValues (Histogram.observeEntry buckets v e)) 0
  = map (countIn v)
      (Histogram.cumulative buckets (Histogram.bucketValues e) 0).
Proof.
  intros Hkeys. unfold Histogram.observeEntry; cbn [Histogram.bucketValues].
  apply cumulative_observe.
  - apply buckets_sorted.
  - intros b Hb. now rewrite Hkeys.
Qed.

Lemma observeEntry_shaped (v : Q) (e : Histogram.Entry) :
  entryShaped e -> entryShaped (Histogram.observeEntry buckets v e).
Proof.
  intros [Hkeys Hle]. split.
  - unfold Histogram.observeEntry; cbn [Histogram.bucketValues].
    destruct (Histogram.findBound buckets v);
      [now rewrite bump_keys | exact Hkeys].
  - rewrite observeEntry_cumulative by exact Hkeys.
    apply Forall_map. eapply Forall_impl; [|exact Hle].
    intros [k n]; unfold countIn, Histogram.observeEntry.
    cbn [fst snd Histogram.count].
    destruct (Qle_bool v k); lia.
Qed.

Lemma entry_shaped (l : Labels) (h : Histogram.t) :
  shaped h -> entryShaped (Histogram.entry l h).
Proof.
  intros [Hb He]. unfold Histogram.entry.
  destruct (get l (Histogram.hashMap h)) as [e|] eqn:E.
  - now apply (He l).
  - rewrite Hb. apply createBaseValues_shaped.
Qed.

Lemma observe_shaped (l : Labels) (v : Q) (h : Histogram.t) :
  shaped h -> shaped (Histogram.observe l v h).
Proof.
  intros Hh. pose proof Hh as [Hb He]. split; [exact Hb|].
  intros l' e. destruct (Labels_eq_dec l' l) as [->|Hne].
  - unfold Histogram.observe; simpl. rewrite get_put_same. intros [= <-].
    rewrite Hb. apply observeEntry_shaped. now apply entry_shaped.
  - rewrite get_observe_other by exact Hne. apply He.
Qed.

Lemma initial_shaped : shaped (httpRequestDurationMicroseconds initial).
Proof. split; [reflexivity|]. intros l e; simpl. discriminate. Qed.

Lemma perform_shaped (m : Metrics) (op : Operation) :
  shaped (httpRequestDurationMicroseconds m) ->
  shaped (httpRequestDurationMicroseconds (perform m op)).
Proof.
  destruct op as [c|]; simpl; [|auto].
  intros H. now apply observe_shaped.
Qed.

Lemma performAll_shaped (ops : list Operation) (m : Metrics) :
  shaped (httpRequestDurationMicroseconds m) ->
  shaped (httpRequestDurationMicroseconds (performAll ops m)).
Proof.
  unfold performAll. revert m.
  induction ops as [|op ops IH]; intros m H; simpl; [exact H|].
  apply IH. now apply perform_shaped.
Qed.

Lemma recordAll_performAll (cs : list Completed) (m : Metrics) :
  recordAll cs m = performAll (map Observe cs) m.
Proof.
  unfold recordAll, performAll. revert m.
  induction cs as [|c cs IH]; intros m; simpl; [reflexivity | apply IH].
Qed.

Lemma recordAll_shaped (cs : list Completed) :
  shaped (httpRequestDurationMicroseconds (recordAll cs initial)).
Proof.
  rewrite recordAll_performAll. apply performAll_shaped, initial_shaped.
Qed.

Lemma view_observe_same (l : Labels) (v : Q) (h : Histogram.t) :
  shaped h ->
  view l (Histogram.observe l v h) = spec_observe v (view l h).
Proof.
  intros Hh. pose proof (entry_shaped l h Hh) as [Hkeys _].
  destruct Hh as [Hb _].
  unfold view, spec_observe; simpl.
  rewrite entry_observe_same, Hb.
  rewrite observeEntry_cumulative by exact Hkeys.
  reflexivity.
Qed.

Lemma view_observe_other (l l' : Labels) (v : Q) (h : Histogram.t) :
  l' <> l -> view l' (Histogram.observe l v h) = view l' h.
Proof.
  intros Hne. unfold view. now rewrite entry_observe_other.
Qed.

(** C3.  In every state the service can reach, when a request completes,
    what the export shows of the duration histogram changes as the spec
    says, under the label combination made of the request's method, its
    route (the matched pattern, or the raw path when nothing matched) and
    its status code, and for the duration [(now - start) / 1000]: of the
    nine configured buckets, the cumulative count of every one whose upper
    bound is at or above the duration gains 1 (the others keep theirs),
    the count gains 1 and the duration is added to the sum
    ([spec_observe]); every other label combination is shown as before. *)
Theorem observe_refines_spec_observation
  (cs : list Completed) (start now : Z) (req : Request) (code : Z) :
  let m := recordAll cs initial in
  let m' := onFinish start now req code m in
  let labels :=
    mkLabels (req_method req)
      (match req_route req with
       | Some r => path r
       | None => req_path req
       end)
      (JS.Z_toString code) in
  let seconds := (now - start) # 1000 in
  view labels (httpRequestDurationMicroseconds m')
  = spec_observe seconds (view labels (httpRequestDurationMicroseconds m))
  /\ map fst (bucketsOf (view labels (httpRequestDurationMicroseconds m)))
     = buckets
  /\ forall other, other <> labels ->
       view other (httpRequestDurationMicroseconds m')
       = view other (httpRequestDurationMicroseconds m).
Proof.
  cbv zeta.
  change (mkLabels (req_method req)
            (match req_route req with
             | Some r => path r
             | None => req_path req
             end)
            (JS.Z_toString code))
    with (labelsOf req code).
  change ((now - start) # 1000) with (duration start now).
  pose proof (recordAll_shaped cs) as Hshaped.
  unfold onFinish; simpl. split; [|split].
  - apply view_observe_same, Hshaped.
  - unfold view; cbn [bucketsOf]. rewrite cumulative_keys.
    exact (proj1 Hshaped).
  - intros other Hne. now apply view_observe_other.
Qed.

(** ** Cumulative bucket counts *)

Lemma cumulative_sorted (bs : list Q) (bv : list (Q * nat)) (acc : nat) :
  StronglySorted le (map snd (Histogram.cumulative bs bv acc))
  /\ Forall (le acc) (map snd (Histogram.cumulative bs bv acc)).
Proof.
  revert acc. induction bs as [|b rest IH]; intros acc; simpl.
  - split; constructor.
  - destruct (IH (acc + Histogram.bucketValue b bv)%nat) as [Hs Hge].
    split; constructor; auto.
    + lia.
    + eapply Forall_impl; [|exact Hge]. cbn beta. intros n Hn. lia.
Qed.

Lemma sorted_snoc (l : list nat) (c : nat) :
  StronglySorted le l -> Forall (fun n => n <= c)%nat l ->
  StronglySorted le (l ++ [c]).
Proof.
  induction 1 as [|n l Hs IH Hn]; intros Hc; simpl.
  - repeat constructor.
  - apply Forall_cons_iff in Hc as [Hnc Hc]. constructor; [now apply IH|].
    apply Forall_app. split; [exact Hn | repeat constructor; exact Hnc].
Qed.

Lemma exportedBuckets_counts (bs : list Q) (e : Histogram.Entry) :
  map snd (Histogram.exportedBuckets bs e)
  = (map snd (Histogram.cumulative bs (Histogram.bucketValues e) 0)
     ++ [Histogram.count e])%list.
Proof.
  unfold Histogram.exportedBuckets.
  rewrite map_app, map_map. reflexivity.
Qed.

Lemma exportedBuckets_sorted (e : Histogram.Entry) :
  entryShaped e ->
  StronglySorted le (map snd (Histogram.exportedBuckets buckets e)).
Proof.
  intros [_ Hle]. rewrite exportedBuckets_counts.
  apply sorted_snoc.
  - apply cumulative_sorted.
  - apply Forall_map. exact Hle.
Qed.

Lemma exportedBuckets_bounded (e : Histogram.Entry) :
  entryShaped e ->
  Forall (fun n => n <= Histogram.count e)%nat
    (map snd (Histogram.exportedBuckets buckets e)).
Proof.
  intros [_ Hle]. rewrite exportedBuckets_counts.
  apply Forall_app. split.
  - apply Forall_map. exact Hle.
  - repeat constructor.
Qed.

(** C4.  After any sequence of completed requests, for every label
    combination of the duration histogram: the bucket upper bounds are
    exported in strictly increasing order, the counts of the exported
    buckets in that order (every finite bound, then [+Inf]) never decrease,
    and none of them is above the number of observations, which is what
    the [_count] line shows. *)
Theorem bucket_counts_non_decreasing (cs : list Completed) (labels : Labels) :
  let h := httpRequestDurationMicroseconds (recordAll cs initial) in
  let exported :=
    Histogram.exportedBuckets (Histogram.upperBounds h)
      (Histogram.entry labels h) in
  StronglySorted Qlt (Histogram.upperBounds h)
  /\ StronglySorted le (map snd exported)
  /\ Forall (fun n => n <= Histogram.count (Histogram.entry labels h))%nat
       (map snd exported).
Proof.
  cbv zeta. pose proof (recordAll_shaped cs) as Hh.
  pose proof (entry_shaped labels _ Hh) as He.
  destruct Hh as [Hb _]. rewrite Hb. split; [|split].
  - apply buckets_sorted.
  - now apply exportedBuckets_sorted.
  - now apply exportedBuckets_bounded.
Qed.

(** ** Growth of the series *)

Lemma grows_refl (m : Metrics) : grows m m.
Proof. split; intros l; repeat split; auto. Qed.

Lemma grows_trans (a b c : Metrics) : grows a b -> grows b c -> grows a c.
Proof.
  intros [K1 V1] [K2 V2]. split; intros l.
  - destruct (K1 l) as (h1 & r1 & e1), (K2 l) as (h2 & r2 & e2).
    repeat split; auto.
  - destruct (V1 l) as (r1 & e1 & c1 & b1), (V2 l) as (r2 & e2 & c2 & b2).
    repeat split; try (etransitivity; eassumption).
    intros k. etransitivity; [apply b1 | apply b2].
Qed.

Lemma get_put_kept {V : Type} (l l' : Labels) (e : V)
  (hm : list (Labels * V)) :
  get l' hm <> None -> get l' (put l e hm) <> None.
Proof.
  destruct (Labels_eq_dec l' l) as [->|Hne].
  - rewrite get_put_same. discriminate.
  - now rewrite get_put_other.
Qed.

Lemma bucketValue_countIn (v b : Q) (l : list (Q * nat)) :
  (Histogram.bucketValue b l <= Histogram.bucketValue b (map (countIn v) l))%nat.
Proof.
  induction l as [|[k n] rest IH]; simpl; [lia|].
  destruct (Qeq_bool k b); [|exact IH].
  destruct (Qle_bool v k); lia.
Qed.

Lemma cumulativeCount_view (b : Q) (l : Labels) (h : Histogram.t) :
  Histogram.cumulativeCount b l h = Histogram.bucketValue b (bucketsOf (view l h)).
Proof. reflexivity. Qed.

Lemma record_grows (m : Metrics) (c : Completed) :
  shaped (httpRequestDurationMicroseconds m) -> grows m (record m c).
Proof.
  intros Hh. unfold record, onFinish.
  set (L := labelsOf (request c) (status c)).
  set (d := duration (started c) (finished c)).
  split; intros l; cbn [httpRequestDurationMicroseconds httpRequestsTotal
                          httpErrorsTotal].
  - repeat split.
    + apply get_put_kept.
    + apply get_put_kept.
    + destruct (500 <=? status c)%Z; [apply get_put_kept | auto].
  - repeat split.
    + rewrite value_inc. lia.
    + destruct (500 <=? status c)%Z; [rewrite value_inc|]; lia.
    + destruct (Labels_eq_dec l L) as [->|Hne].
      * rewrite view_observe_same by exact Hh. simpl. lia.
      * now rewrite view_observe_other.
    + intros b. rewrite !cumulativeCount_view.
      destruct (Labels_eq_dec l L) as [->|Hne].
      * rewrite view_observe_same by exact Hh. apply bucketValue_countIn.
      * now rewrite view_observe_other.
Qed.

Lemma perform_grows (m : Metrics) (op : Operation) :
  shaped (httpRequestDurationMicroseconds m) -> grows m (perform m op).
Proof.
  destruct op as [c|]; simpl; intros H;
    [now apply record_grows | apply grows_refl].
Qed.

Lemma performAll_grows (ops : list Operation) (m : Metrics) :
  shaped (httpRequestDurationMicroseconds m) -> grows m (performAll ops m).
Proof.
  unfold performAll. revert m.
  induction ops as [|op ops IH]; intros m H; simpl; [apply grows_refl|].
  apply grows_trans with (perform m op).
  - now apply perform_grows.
  - apply IH. now apply perform_shaped.
Qed.

(** C9.  From any state reached by a sequence of operations (observations
    of completed requests and exports), any further sequence of operations
    keeps every label combination of the three series, leaves the bucket
    upper bounds of the histogram and of every one of its label
    combinations equal to the bounds given at registration, and lowers no
    counter value, no observation count and no cumulative bucket count:
    no operation removes or resets anything. *)
Theorem metrics_append_only_and_monotone (ops1 ops2 : list Operation) :
  let m := performAll ops1 initial in
  let m' := performAll ops2 m in
  grows m m'
  /\ Histogram.upperBounds (httpRequestDurationMicroseconds m')
     = Histogram.upperBounds (httpRequestDurationMicroseconds initial)
  /\ forall l e,
       get l (Histogram.hashMap (httpRequestDurationMicroseconds m')) = Some e ->
       map fst (Histogram.bucketValues e)
       = Histogram.upperBounds (httpRequestDurationMicroseconds initial).
Proof.
  cbv zeta.
  pose proof (performAll_shaped ops1 initial initial_shaped) as H1.
  pose proof (performAll_shaped ops2 _ H1) as [Hb He].
  split; [now apply performAll_grows|].
  split; [exact Hb|].
  intros l e Hget. now destruct (He l e Hget).
Qed.

(** ** Timing *)

Lemma duration_seconds (start now : Z) :
  duration start now == inject_Z (now - start) / 1000.
Proof.
  unfold duration, Qdiv, Qmult, Qinv, Qeq; simpl. lia.
Qed.

(** C7, as amended.  On request finish the duration added to the running
    sum of the request's label combination is [now - start] expressed in
    seconds, where both readings of the clock are whole milliseconds: the
    recorded duration is a whole number of milliseconds divided by 1000,
    so the resolution is one millisecond and nothing finer is kept. *)
Theorem recorded_duration_is_milliseconds_in_seconds
  (start now : Z) (req : Request) (code : Z) (m : Metrics) :
  let m' := onFinish start now req code m in
  let labels := labelsOf req code in
  sumOf (view labels (httpRequestDurationMicroseconds m'))
  = sumOf (view labels (httpRequestDurationMicroseconds m))
    + duration start now
  /\ duration start now == inject_Z (now - start) / 1000
  /\ exists ms : Z, duration start now * 1000 == inject_Z ms.
Proof.
  cbv zeta. split; [|split].
  - unfold view, onFinish; simpl. now rewrite entry_observe_same.
  - apply duration_seconds.
  - exists (now - start)%Z. rewrite duration_seconds. field.
Qed.

(** C7 as stated fails: two requests that arrive at the same instant and
    finish 1000 and 1900 microseconds later are recorded with the same
    duration, and a request that takes 999 microseconds is recorded with
    duration 0. *)
Lemma sub_millisecond_elapsed_time_is_lost :
  duration (JS.Date_now 0) (JS.Date_now 1000)
  = duration (JS.Date_now 0) (JS.Date_now 1900)
  /\ duration (JS.Date_now 0) (JS.Date_now 999) == 0.
Proof. split; reflexivity. Qed.

(** ** The metrics endpoint *)

Section Endpoint.

Variable Number_toString : Q -> string.
Variable ProcessEnv : Type.
Variable defaultMetrics : ProcessEnv -> list string.

Local Abbreviation Env := (Env ProcessEnv).
Local Abbreviation metrics :=
  (metrics Number_toString ProcessEnv defaultMetrics).
Local Abbreviation metricsLines :=
  (metricsLines Number_toString ProcessEnv defaultMetrics).
Local Abbreviation register_metrics :=
  (register_metrics Number_toString ProcessEnv defaultMetrics).


Lemma get_In {V : Type} (l : Labels) (v : V) (hm : list (Labels * V)) :
  get l hm = Some v -> In (l, v) hm.
Proof.
  induction hm as [|[k x] rest IH]; simpl; [discriminate|].
  destruct (Labels_eqb k l) eqn:E.
  - apply Labels_eqb_eq in E. intros [= ->]. left. now subst.
  - intros H. right. now apply IH.
Qed.

Lemma perform_registration (m : Metrics) (op : Operation) :
  let m' := perform m op in
  Histogram.name (httpRequestDurationMicroseconds m')
  = Histogram.name (httpRequestDurationMicroseconds m)
  /\ Histogram.help (httpRequestDurationMicroseconds m')
     = Histogram.help (httpRequestDurationMicroseconds m)
  /\ Counter.name (httpRequestsTotal m') = Counter.name (httpRequestsTotal m)
  /\ Counter.help (httpRequestsTotal m') = Counter.help (httpRequestsTotal m)
  /\ Counter.name (httpErrorsTotal m') = Counter.name (httpErrorsTotal m)
  /\ Counter.help (httpErrorsTotal m') = Counter.help (httpErrorsTotal m).
Proof.
  destruct op as [c|]; simpl; [|tauto].
  destruct (500 <=? status c)%Z; simpl; tauto.
Qed.

Lemma performAll_registration (ops : list Operation) :
  let m := performAll ops initial in
  Histogram.name (httpRequestDurationMicroseconds m)
  = "http_request_duration_seconds"
  /\ Histogram.help (httpRequestDurationMicroseconds m)
     = "Duration of HTTP requests in seconds"
  /\ Counter.name (httpRequestsTotal m) = "http_requests_total"
  /\ Counter.help (httpRequestsTotal m) = "Total number of HTTP requests"
  /\ Counter.name (httpErrorsTotal m) = "http_errors_total"
  /\ Counter.help (httpErrorsTotal m) = "Total number of HTTP errors (5xx)".
Proof.
  cbv zeta. unfold performAll.
  set (h := httpRequestDurationMicroseconds).
  set (r := httpRequestsTotal).
  set (e := httpErrorsTotal).
  change (let m0 := initial in
          Histogram.name (h (fold_left perform ops m0)) = Histogram.name (h m0)
          /\ Histogram.help (h (fold_left perform ops m0))
             = Histogram.help (h m0)
          /\ Counter.name (r (fold_left perform ops m0)) = Counter.name (r m0)
          /\ Counter.help (r (fold_left perform ops m0)) = Counter.help (r m0)
          /\ Counter.name (e (fold_left perform ops m0)) = Counter.name (e m0)
          /\ Counter.help (e (fold_left perform ops m0))
             = Counter.help (e m0)).
  subst h r e.
  generalize initial. induction ops as [|op ops IH]; intros m0; cbv zeta.
  - simpl. tauto.
  - simpl fold_left. specialize (IH (perform m0 op)). cbv zeta in IH.
    pose proof (perform_registration m0 op) as Hop. cbv zeta in Hop.
    destruct IH as (a & b & c & d & e & f).
    destruct Hop as (a' & b' & c' & d' & e' & f').
    repeat split; congruence.
Qed.

Lemma metricsLines_eq (env : ProcessEnv) (m : Metrics) :
  metricsLines env m
  = (defaultMetrics env ++ customLines Number_toString m)%list.
Proof.
  unfold App.metricsLines, customLines, register; simpl.
  now rewrite app_nil_r.
Qed.

(** ** Lines and text *)

Lemma string_app_inv_head (a b c : string) : a ++ b = a ++ c -> b = c.
Proof. induction a as [|x a IH]; simpl; [auto | intros [= H]; auto]. Qed.

Lemma singleLine_app (a b : string) :
  JS.singleLine a = true -> JS.singleLine b = true ->
  JS.singleLine (a ++ b) = true.
Proof.
  induction a as [|x a IH]; simpl; [auto|].
  rewrite !andb_true_iff. intros [Hx Ha] Hb. auto.
Qed.

Lemma unlines_app (a b : list string) :
  JS.unlines (a ++ b)%list = JS.unlines a ++ JS.unlines b.
Proof.
  induction a as [|x a IH]; simpl; [reflexivity|].
  rewrite IH. clear IH.
  induction x as [|c x IHx]; simpl; [reflexivity | now rewrite IHx].
Qed.

Lemma line_split (a b r1 r2 : string) :
  JS.singleLine a = true -> JS.singleLine b = true ->
  a ++ JS.newline ++ r1 = b ++ JS.newline ++ r2 -> a = b /\ r1 = r2.
Proof.
  revert b. induction a as [|x a IH]; intros [|y b]; simpl.
  - intros _ _ [= ->]. auto.
  - rewrite andb_true_iff, negb_true_iff. intros _ [Hy _] [= <- _].
    discriminate.
  - rewrite andb_true_iff, negb_true_iff. intros [Hx _] _ [= -> _].
    discriminate.
  - rewrite !andb_true_iff. intros [_ Ha] [_ Hb] [= -> H].
    destruct (IH b Ha Hb H) as [-> ->]. auto.
Qed.

Lemma unlines_inj (l1 l2 : list string) :
  Forall (fun l => JS.singleLine l = true) l1 ->
  Forall (fun l => JS.singleLine l = true) l2 ->
  JS.unlines l1 = JS.unlines l2 -> l1 = l2.
Proof.
  revert l2. induction l1 as [|a l1 IH]; intros [|b l2] H1 H2; simpl.
  - reflexivity.
  - destruct b; discriminate.
  - destruct a; discriminate.
  - apply Forall_cons_iff in H1 as [Ha H1].
    apply Forall_cons_iff in H2 as [Hb H2].
    intros H. apply line_split in H as [-> H]; auto.
    f_equal. now apply IH.
Qed.

Lemma singleLine_uint (d : Decimal.uint) :
  JS.singleLine (NilEmpty.string_of_uint d) = true.
Proof. induction d; simpl; auto. Qed.

Lemma singleLine_uint0 (d : Decimal.uint) :
  JS.singleLine (NilZero.string_of_uint d) = true.
Proof. destruct d; try reflexivity; apply singleLine_uint. Qed.

Lemma singleLine_nat (n : nat) : JS.singleLine (JS.nat_toString n) = true.
Proof. apply singleLine_uint0. Qed.

Lemma singleLine_Z (z : Z) : JS.singleLine (JS.Z_toString z) = true.
Proof.
  unfold JS.Z_toString. destruct (Z.to_int z); simpl;
    apply singleLine_uint0.
Qed.

Lemma singleLine_escape (s : string) :
  JS.singleLine (escapeLabelValue s) = true.
Proof.
  induction s as [|c s IH]; simpl; [reflexivity|].
  apply singleLine_app; [|exact IH].
  destruct (Ascii.eqb c (ascii_of_nat 92)); [reflexivity|].
  destruct (Ascii.eqb c (ascii_of_nat 10)) eqn:E; [reflexivity|].
  destruct (Ascii.eqb c (ascii_of_nat 34)); [reflexivity|].
  simpl. now rewrite E.
Qed.

Lemma singleLine_labelPair (key val : string) :
  JS.singleLine key = true -> JS.singleLine (labelPair key val) = true.
Proof.
  intros H. unfold labelPair.
  repeat (apply singleLine_app; [try reflexivity; trivial|]);
    try reflexivity.
  apply singleLine_escape.
Qed.

Lemma singleLine_labelsText (l : Labels) :
  JS.singleLine (labelsText l) = true.
Proof.
  unfold labelsText.
  apply singleLine_app; [now apply singleLine_labelPair|].
  apply singleLine_app; [reflexivity|].
  apply singleLine_app; [now apply singleLine_labelPair|].
  apply singleLine_app; [reflexivity|].
  now apply singleLine_labelPair.
Qed.

Lemma singleLine_sampleLine (name labels val : string) :
  JS.singleLine name = true -> JS.singleLine labels = true ->
  JS.singleLine val = true ->
  JS.singleLine (sampleLine name labels val) = true.
Proof.
  intros Hn Hl Hv. unfold sampleLine.
  repeat (apply singleLine_app; [first [reflexivity | assumption]|]).
  exact Hv.
Qed.

Lemma singleLine_bucketLabels (bound : string) (l : Labels) :
  JS.singleLine (labelPair "le" bound ++ "," ++ labelsText l) = true.
Proof.
  apply singleLine_app; [now apply singleLine_labelPair|].
  apply singleLine_app; [reflexivity | apply singleLine_labelsText].
Qed.

Create HintDb lines.

#[local] Hint Resolve singleLine_bucketLabels singleLine_app singleLine_nat singleLine_Z
  singleLine_escape singleLine_labelPair singleLine_labelsText
  singleLine_sampleLine : lines.

Lemma singleLine_counterLines (c : Counter.t) :
  JS.singleLine (Counter.name c) = true ->
  JS.singleLine (Counter.help c) = true ->
  Forall (fun l => JS.singleLine l = true) (counterLines c).
Proof.
  intros Hn Hh. unfold counterLines, helpLine, typeLine.
  repeat constructor.
  - repeat (apply singleLine_app; [first [reflexivity | assumption]|]).
    exact Hh.
  - repeat (apply singleLine_app; [first [reflexivity | assumption]|]).
    reflexivity.
  - apply Forall_map, Forall_forall. intros [l n] _.
    unfold counterSample; simpl. auto with lines.
Qed.

(** From here on the platform writes lines. *)
Hypothesis platform : linewise Number_toString defaultMetrics.

Lemma Number_toString_singleLine (q : Q) :
  JS.singleLine (Number_toString q) = true.
Proof. apply platform. Qed.

#[local] Hint Resolve Number_toString_singleLine : lines.

Lemma defaultMetrics_singleLine (env : ProcessEnv) :
  Forall (fun l => JS.singleLine l = true) (defaultMetrics env).
Proof. apply platform. Qed.

Lemma defaultMetrics_names (env : ProcessEnv) :
  ~ In (helpLine "http_request_duration_seconds"
          "Duration of HTTP requests in seconds") (defaultMetrics env).
Proof. apply platform. Qed.

Lemma singleLine_histogramLines (h : Histogram.t) :
  JS.singleLine (Histogram.name h) = true ->
  JS.singleLine (Histogram.help h) = true ->
  Forall (fun l => JS.singleLine l = true) (histogramLines Number_toString h).
Proof.
  intros Hn Hh. unfold histogramLines, helpLine, typeLine.
  repeat constructor.
  - repeat (apply singleLine_app; [first [reflexivity | assumption]|]).
    exact Hh.
  - repeat (apply singleLine_app; [first [reflexivity | assumption]|]).
    reflexivity.
  - apply Forall_flat_map, Forall_forall. intros [l e] _.
    unfold entryLines. apply Forall_app. split.
    + apply Forall_map, Forall_forall. intros [b n] _.
      unfold bucketSample; cbn [fst snd].
      apply singleLine_sampleLine; auto with lines.
    + repeat constructor; apply singleLine_sampleLine; auto with lines.
Qed.

Lemma singleLine_metricsLines (ops : list Operation) (env : ProcessEnv) :
  Forall (fun l => JS.singleLine l = true)
    (metricsLines env (performAll ops initial)).
Proof.
  pose proof (performAll_registration ops) as (Hn & Hh & Rn & Rh & En & Eh).
  rewrite metricsLines_eq. unfold customLines.
  repeat (apply Forall_app; split).
  - apply defaultMetrics_singleLine.
  - apply singleLine_histogramLines; [rewrite Hn | rewrite Hh]; reflexivity.
  - apply singleLine_counterLines; [rewrite Rn | rewrite Rh]; reflexivity.
  - apply singleLine_counterLines; [rewrite En | rewrite Eh]; reflexivity.
Qed.

(** ** A request changes the lines of the custom series *)

Lemma put_length {V : Type} (l : Labels) (e : V) (hm : list (Labels * V)) :
  List.length (put l e hm)
  = (List.length hm + match get l hm with Some _ => 0 | None => 1 end)%nat.
Proof.
  induction hm as [|[k x] rest IH]; simpl; [reflexivity|].
  destruct (Labels_eqb k l); simpl; [lia | rewrite IH; lia].
Qed.

Lemma cumulative_length (bs : list Q) (bv : list (Q * nat)) (acc : nat) :
  List.length (Histogram.cumulative bs bv acc) = List.length bs.
Proof.
  revert acc. induction bs as [|b rest IH]; intros acc; simpl;
    [reflexivity | now rewrite IH].
Qed.

Lemma entryLines_length (name : string) (bs : list Q)
  (kv : Labels * Histogram.Entry) :
  List.length (entryLines Number_toString name bs kv)
  = (List.length bs + 3)%nat.
Proof.
  destruct kv as [l e]. unfold entryLines, Histogram.exportedBuckets.
  repeat (rewrite length_app || rewrite length_map).
  rewrite cumulative_length. simpl. lia.
Qed.

Lemma flat_map_length_const {A B : Type} (f : A -> list B) (k : nat)
  (xs : list A) :
  (forall x, List.length (f x) = k) ->
  List.length (flat_map f xs) = (k * List.length xs)%nat.
Proof.
  intros H. induction xs as [|x xs IH]; simpl; [lia|].
  rewrite length_app, H, IH. lia.
Qed.

Lemma histogramLines_length (h : Histogram.t) :
  List.length (histogramLines Number_toString h)
  = (2 + (List.length (Histogram.upperBounds h) + 3)
         * List.length (Histogram.hashMap h))%nat.
Proof.
  unfold histogramLines. cbn [List.length].
  rewrite (flat_map_length_const _ (List.length (Histogram.upperBounds h) + 3)).
  - lia.
  - intros kv. apply entryLines_length.
Qed.

Lemma counterLines_length (c : Counter.t) :
  List.length (counterLines c) = (2 + List.length (Counter.hashMap c))%nat.
Proof. unfold counterLines. cbn [List.length]. now rewrite length_map. Qed.

Lemma app_eq_length {A : Type} (a a' b b' : list A) :
  (a ++ b = a' ++ b')%list -> List.length a = List.length a' ->
  a = a' /\ b = b'.
Proof.
  revert a'. induction a as [|x a IH]; intros [|y a']; simpl;
    try discriminate.
  - auto.
  - intros [= -> H] [= Hlen]. destruct (IH a' H Hlen) as [-> ->]. auto.
Qed.

Lemma map_put_same {V B : Type} (f : Labels * V -> B) (l : Labels) (x v : V)
  (hm : list (Labels * V)) :
  get l hm = Some v -> map f (put l x hm) = map f hm -> f (l, x) = f (l, v).
Proof.
  induction hm as [|[k y] rest IH]; simpl; [discriminate|].
  destruct (Labels_eqb k l) eqn:E; simpl.
  - apply Labels_eqb_eq in E. subst k. intros [= ->] H.
    now injection H.
  - intros Hget H. injection H as H. now apply IH.
Qed.

Lemma counterSample_inj (name : string) (l : Labels) (a b : nat) :
  counterSample name (l, a) = counterSample name (l, b) -> a = b.
Proof.
  unfold counterSample, sampleLine; cbn [fst snd]. intros H.
  apply (string_app_inv_head name) in H.
  apply (string_app_inv_head "{") in H.
  apply (string_app_inv_head (labelsText l)) in H.
  apply (string_app_inv_head "} ") in H.
  now apply nat_toString_inj.
Qed.

Lemma inc_changes_lines (l : Labels) (c : Counter.t) :
  List.length (counterLines (Counter.inc l c)) = List.length (counterLines c) ->
  counterLines (Counter.inc l c) <> counterLines c.
Proof.
  rewrite !counterLines_length. unfold Counter.inc; cbn [Counter.hashMap].
  rewrite put_length. unfold counterLines, Counter.value.
  cbn [Counter.name Counter.help Counter.hashMap].
  destruct (get l (Counter.hashMap c)) as [n|] eqn:E; [|lia].
  intros _ [= H]. apply map_put_same with (v := n) in H; [|exact E].
  apply counterSample_inj in H. lia.
Qed.

Lemma onFinish_changes_customLines
  (start now : Z) (req : Request) (code : Z) (m : Metrics) :
  customLines Number_toString (onFinish start now req code m)
  <> customLines Number_toString m.
Proof.
  unfold customLines, onFinish.
  cbn [httpRequestDurationMicroseconds httpRequestsTotal httpErrorsTotal].
  set (L := labelsOf req code).
  set (h := httpRequestDurationMicroseconds m).
  set (h' := Histogram.observe L (duration start now) h).
  set (r := httpRequestsTotal m).
  set (e := httpErrorsTotal m).
  set (e' := if (500 <=? code)%Z then Counter.inc L e else e).
  intros H.
  assert (List.length (histogramLines Number_toString h)
          <= List.length (histogramLines Number_toString h'))%nat as Hh.
  { rewrite !histogramLines_length. unfold h', Histogram.observe.
    cbn [Histogram.upperBounds Histogram.hashMap]. rewrite put_length. nia. }
  assert (List.length (counterLines r)
          <= List.length (counterLines (Counter.inc L r)))%nat as Hr.
  { rewrite !counterLines_length. unfold Counter.inc.
    cbn [Counter.hashMap]. rewrite put_length. lia. }
  assert (List.length (counterLines e) <= List.length (counterLines e'))%nat
    as He.
  { unfold e'. destruct (500 <=? code)%Z; [|lia].
    rewrite !counterLines_length. unfold Counter.inc.
    cbn [Counter.hashMap]. rewrite put_length. lia. }
  pose proof (f_equal (@List.length string) H) as Hlen.
  rewrite !length_app in Hlen.
  apply app_eq_length in H as [_ H]; [|lia].
  apply app_eq_length in H as [H _]; [|lia].
  revert H. apply inc_changes_lines. lia.
Qed.

Lemma customLines_head (ops : list Operation) :
  exists rest,
    customLines Number_toString (performAll ops initial)
    = helpLine "http_request_duration_seconds"
        "Duration of HTTP requests in seconds" :: rest.
Proof.
  pose proof (performAll_registration ops) as (Hn & Hh & _).
  unfold customLines, histogramLines. rewrite Hn, Hh.
  eexists. reflexivity.
Qed.

Lemma performAll_snoc (ops : list Operation) (op : Operation) (m : Metrics) :
  performAll (ops ++ [op]) m = perform (performAll ops m) op.
Proof. unfold performAll. now rewrite fold_left_app. Qed.

(** The text exported after one more completed request differs from the
    text exported before it, whatever the default metrics show. *)
Lemma snapshots_differ (ops : list Operation) (c : Completed)
  (env1 env2 : ProcessEnv) :
  JS.unlines (metricsLines env1 (performAll ops initial))
  <> JS.unlines (metricsLines env2 (record (performAll ops initial) c)).
Proof.
  intros H.
  change (record (performAll ops initial) c)
    with (perform (performAll ops initial) (Observe c)) in H.
  rewrite <- performAll_snoc in H.
  apply unlines_inj in H; try apply singleLine_metricsLines.
  rewrite !metricsLines_eq in H.
  destruct (customLines_head ops) as [rest Hrest].
  destruct (customLines_head (ops ++ [Observe c])) as [rest' Hrest'].
  pose proof H as Hpivot. rewrite Hrest, Hrest' in Hpivot.
  apply app_inj_pivot in Hpivot as [[[Hin _]|[_ Hin]]|[Hd _]].
  - now apply defaultMetrics_names in Hin.
  - now apply defaultMetrics_names in Hin.
  - rewrite Hd in H. apply app_inv_head in H.
    rewrite performAll_snoc in H. symmetry in H. revert H.
    apply onFinish_changes_customLines.
Qed.

End Endpoint.

(** ** Scrapes *)

Section Scrapes.

Variable Number_toString : Q -> string.
Variable ProcessEnv : Type.
Variable defaultMetrics : ProcessEnv -> list string.

Local Abbreviation Env := (Env ProcessEnv).
Local Abbreviation metrics :=
  (metrics Number_toString ProcessEnv defaultMetrics).
Local Abbreviation metricsLines :=
  (metricsLines Number_toString ProcessEnv defaultMetrics).
Local Abbreviation serve :=
  (serve Number_toString ProcessEnv defaultMetrics).

Lemma serve_metrics (env : Env) (start now : Z) (m : Metrics) :
  serve env start now getMetrics m
  = mkServed
      (fst (finished_as (framework ProcessEnv env) (metrics env m)))
      (snd (finished_as (framework ProcessEnv env) (metrics env m)))
      (onFinish start now getMetrics
         (statusCode
            (fst (finished_as (framework ProcessEnv env) (metrics env m))))
         m).
Proof.
  unfold App.serve.
  change (handlerOf Number_toString ProcessEnv defaultMetrics getMetrics)
    with metrics.
  now destruct (finished_as (framework ProcessEnv env) (metrics env m)).
Qed.

Lemma metrics_ok (env : Env) (m : Metrics) :
  fault ProcessEnv env = None ->
  metrics env m
  = (Ended
       (mkResponse 200 [("Content-Type", contentType)]
          (Text (JS.unlines (metricsLines (process ProcessEnv env) m)))),
     []).
Proof. unfold App.metrics, App.register_metrics. now intros ->. Qed.

(** C10.  A request to [GET /metrics] is observed by the middleware like
    any other: when it has finished, the three series have changed at the
    label combination of method GET, route [/metrics] and the status code
    of the answer, and nowhere else, so serving an export changes the
    metrics.  When the serialization does not fail, the first of two
    consecutive scrapes answers 200 with the snapshot taken before its own
    observation, the second answers with a snapshot that holds the request
    count of the [/metrics] series one above the count the first scrape
    found, and the two bodies differ on any platform that writes its numbers
    and its default metrics line by line. *)
Theorem scrape_is_instrumented
  (ops : list Operation) (env1 env2 : Env) (t1 t1' t2 t2' : Z) :
  let m := performAll ops initial in
  let first := serve env1 t1 t1' getMetrics m in
  let second := serve env2 t2 t2' getMetrics (after first) in
  let code := statusCode (response first) in
  let scrapes := mkLabels "GET" "/metrics" "200" in
  updatedAt (mkLabels "GET" "/metrics" (JS.Z_toString code)) code m
    (after first)
  /\ (fault ProcessEnv env1 = None -> fault ProcessEnv env2 = None ->
      code = 200%Z
      /\ body (response first)
         = Text (JS.unlines (metricsLines (process ProcessEnv env1) m))
      /\ body (response second)
         = Text (JS.unlines
                   (metricsLines (process ProcessEnv env2) (after first)))
      /\ In (sampleLine "http_requests_total" (labelsText scrapes)
               (JS.nat_toString
                  (S (Counter.value scrapes (httpRequestsTotal m)))))
            (metricsLines (process ProcessEnv env2) (after first))
      /\ (linewise Number_toString defaultMetrics ->
          body (response first) <> body (response second))).
Proof.
  cbv zeta. rewrite !serve_metrics. cbn [after response].
  split.
  - apply (onFinish_updatedAt t1 t1' getMetrics).
  - intros F1 F2. rewrite (metrics_ok env1) by exact F1.
    rewrite (metrics_ok env2) by exact F2.
    cbn [finished_as fst snd statusCode body].
    split; [reflexivity|]. split; [reflexivity|]. split; [reflexivity|].
    set (m := performAll ops initial).
    set (c := mkCompleted t1 t1' getMetrics 200).
    change (onFinish t1 t1' getMetrics 200 m) with (record m c).
    split.
    + rewrite metricsLines_eq. apply in_or_app; right.
      unfold customLines. apply in_or_app; right. apply in_or_app; left.
      unfold counterLines. right; right.
      change (Counter.name (httpRequestsTotal (record m c)))
        with (Counter.name (httpRequestsTotal m)).
      destruct (performAll_registration ops) as (_ & _ & Rn & _).
      change (performAll ops initial) with m in Rn. rewrite Rn.
      apply in_map_iff.
      exists (mkLabels "GET" "/metrics" "200",
              S (Counter.value (mkLabels "GET" "/metrics" "200")
                   (httpRequestsTotal m))).
      split; [reflexivity|]. apply get_In.
      unfold record, onFinish; cbn [httpRequestsTotal].
      unfold Counter.inc; cbn [Counter.hashMap].
      apply get_put_same.
    + intros platform [= H]. revert H.
      now apply (snapshots_differ Number_toString ProcessEnv defaultMetrics).
Qed.

End Scrapes.


(** C5.  The failing input of the claim: [GET /metrics] while the
    serialization throws an [Error] object.  The [catch] block sets the
    status to 500 and calls [res.end(err)], which throws a [TypeError]
    because an [Error] object is neither a string nor a buffer: the handler
    is rejected, having written nothing to the console and ended nothing.
    Under Express 4 the request is then never answered; under Express 5 the
    default error handler answers 500 with its own page, which is not the
    error that the serialization threw, and what is written to the console
    is the log of that handler.  A thrown string, by contrast, is
    surfaced as the claim says. *)
Theorem export_failure_is_not_surfaced :
  metrics JS.decimal_toString Z residentMemory failingExport initial
  = (Rejected
       (mkResponse 500 [("Content-Type", contentType)] (Text EmptyString))
       JS.InvalidArgType,
     [])
  /\ exchange JS.decimal_toString Z residentMemory Express4 failingExport
       0 1 getMetrics initial
     = None
  /\ response
       (serve JS.decimal_toString Z residentMemory failingExport 0 1
          getMetrics initial)
     = mkResponse 500
         [("Content-Type", "text/html; charset=utf-8");
          ("X-Content-Type-Options", "nosniff");
          ("Content-Security-Policy", "default-src 'none'");
          ("Content-Type", contentType)]
         (Text (errorPage express))
  /\ console
       (serve JS.decimal_toString Z residentMemory failingExport 0 1
          getMetrics initial)
     = errorLog express
  /\ exchange JS.decimal_toString Z residentMemory Express5 failingExport
       0 1 getMetrics initial
     = Some
         (serve JS.decimal_toString Z residentMemory failingExport 0 1
            getMetrics initial)
  /\ metrics JS.decimal_toString Z residentMemory
       (mkEnv Z "2026-01-01T00:00:00.000Z" 0 4096%Z
          (Some (JS.Primitive "boom")) express)
       initial
     = (Ended
          (mkResponse 500 [("Content-Type", contentType)] (Text "boom")),
        []).
Proof. repeat split. Qed.

(** C6 as stated fails: two exports over the same metrics state (the series
    as registered, nothing observed) produce different text when the
    process they sample has changed in between, here its resident memory. *)
Lemma export_depends_on_process_sample :
  register_metrics JS.decimal_toString Z residentMemory None 4096%Z initial
  <> register_metrics JS.decimal_toString Z residentMemory None 8192%Z initial.
Proof. vm_compute. discriminate. Qed.

(** ** The platform instance used in the examples *)

Lemma singleLine_fraction (digits : nat) (r d : Z) :
  JS.singleLine (JS.fraction digits r d) = true.
Proof.
  revert r. induction digits as [|k IH]; intros r; simpl; [reflexivity|].
  destruct (r =? 0)%Z; [reflexivity|].
  apply singleLine_app; [apply singleLine_Z | apply IH].
Qed.

Lemma decimal_toString_singleLine (q : Q) :
  JS.singleLine (JS.decimal_toString q) = true.
Proof.
  unfold JS.decimal_toString.
  apply singleLine_app; [now destruct (Qnum q <? 0)%Z|].
  apply singleLine_app; [apply singleLine_Z|].
  destruct (Z.abs (Qnum q) mod Z.pos (Qden q) =? 0)%Z; [reflexivity|].
  apply singleLine_app; [reflexivity | apply singleLine_fraction].
Qed.

Lemma residentMemory_singleLine (bytes : Z) :
  Forall (fun l => JS.singleLine l = true) (residentMemory bytes).
Proof.
  unfold residentMemory. repeat constructor.
  apply singleLine_app; [reflexivity | apply singleLine_Z].
Qed.

Lemma residentMemory_names (bytes : Z) :
  ~ In (helpLine "http_request_duration_seconds"
          "Duration of HTTP requests in seconds") (residentMemory bytes).
Proof.
  unfold residentMemory. intros [H|[H|[H|[]]]]; discriminate H.
Qed.

(** Two consecutive scrapes of a freshly started service, the resident
    memory of the process at 4096 and then 8192 bytes: both answer 200 and
    their bodies differ. *)
Lemma scrape_is_instrumented_witness :
  body (response
          (serve JS.decimal_toString Z residentMemory
             (mkEnv Z "2026-01-01T00:00:00.000Z" 1 4096%Z None express) 0 2
             getMetrics initial))
  <> body (response
             (serve JS.decimal_toString Z residentMemory
                (mkEnv Z "2026-01-01T00:00:01.000Z" 2 8192%Z None express) 1000 1001
                getMetrics
                (after
                   (serve JS.decimal_toString Z residentMemory
                      (mkEnv Z "2026-01-01T00:00:00.000Z" 1 4096%Z None express) 0 2
                      getMetrics initial)))).
Proof.
  pose proof
    (scrape_is_instrumented JS.decimal_toString Z residentMemory []
       (mkEnv Z "2026-01-01T00:00:00.000Z" 1 4096%Z None express)
       (mkEnv Z "2026-01-01T00:00:01.000Z" 2 8192%Z None express)
       0%Z 2%Z 1000%Z 1001%Z) as H.
  cbv zeta in H. destruct H as [_ H].
  destruct (H eq_refl eq_refl) as (_ & _ & _ & _ & Hne).
  apply Hne. repeat split.
  - apply decimal_toString_singleLine.
  - apply residentMemory_singleLine.
  - apply residentMemory_names.
Defined.

(** ** The scenario of the spec *)

(** The three requests to [/api/status] alone leave the counter of
    [{GET, /api/status, 200}] at 3. *)
Lemma http_requests_total_counts_requests_witness :
  Counter.value (mkLabels "GET" "/api/status" "200")
    (httpRequestsTotal (recordAll (firstn 3 scenario) initial))
  = 3%nat.
Proof.
  destruct (http_requests_total_counts_requests (firstn 3 scenario)
              "GET" "/api/status" 200) as [_ H].
  apply H. intros c [<-|[<-|[<-|[]]]]; repeat split.
Defined.

(** The snapshot exported after the scenario shows the three lines the
    spec lists. *)
Example scenario_snapshot :
  let lines :=
    metricsLines JS.decimal_toString Z residentMemory 4096%Z
      (recordAll scenario initial) in
  In (sampleLine "http_requests_total"
        (labelsText (mkLabels "GET" "/api/status" "200")) "3") lines
  /\ In (sampleLine "http_requests_total"
           (labelsText (mkLabels "GET" "/api/error-test" "500")) "1") lines
  /\ In (sampleLine "http_errors_total"
           (labelsText (mkLabels "GET" "/api/error-test" "500")) "1") lines.
Proof.
  vm_compute. repeat split; repeat (first [left; reflexivity | right]).
Qed.

(** What the duration histogram exports for [{GET, /api/status, 200}] after
    the scenario: durations 0.012, 0.001 and 0.4 seconds. *)
Example scenario_histogram :
  view (mkLabels "GET" "/api/status" "200")
    (httpRequestDurationMicroseconds (recordAll scenario initial))
  = mkView
      [(1 # 10, 2); (3 # 10, 2); (5 # 10, 3); (7 # 10, 3); (1 # 1, 3);
       (3 # 1, 3); (5 # 1, 3); (7 # 1, 3); (10 # 1, 3)]%nat
      (0 + (12 # 1000) + (1 # 1000) + (400 # 1000))
      3.
Proof. reflexivity. Qed.

(** ** Consistency between the series *)

Lemma count_record (m : Metrics) (c : Completed) (l : Labels) :
  countOf (view l (httpRequestDurationMicroseconds (record m c)))
  = (countOf (view l (httpRequestDurationMicroseconds m))
     + if Labels_eqb (labelsOf (request c) (status c)) l then 1 else 0)%nat.
Proof.
  unfold record, onFinish, view; cbn [httpRequestDurationMicroseconds countOf].
  destruct (Labels_eqb (labelsOf (request c) (status c)) l) eqn:E.
  - apply Labels_eqb_eq in E. subst l.
    rewrite entry_observe_same. cbn [Histogram.observeEntry Histogram.count].
    lia.
  - apply Labels_eqb_neq in E.
    rewrite entry_observe_other by congruence. lia.
Qed.

Lemma errors_record (m : Metrics) (c : Completed) (l : Labels) :
  Counter.value l (httpErrorsTotal (record m c))
  = (Counter.value l (httpErrorsTotal m)
     + if (500 <=? status c)%Z
          && Labels_eqb (labelsOf (request c) (status c)) l
       then 1 else 0)%nat.
Proof.
  unfold record, onFinish; cbn [httpErrorsTotal].
  destruct (500 <=? status c)%Z; cbn [andb]; [apply value_inc | lia].
Qed.

(** In every state the service can reach and for every label combination,
    the number of observations of the duration histogram equals the value
    of the total-request counter. *)
Theorem histogram_count_equals_requests_total
  (ops : list Operation) (l : Labels) :
  let m := performAll ops initial in
  countOf (view l (httpRequestDurationMicroseconds m))
  = Counter.value l (httpRequestsTotal m).
Proof.
  cbv zeta. unfold performAll.
  assert (forall m0,
            countOf (view l (httpRequestDurationMicroseconds m0))
            = Counter.value l (httpRequestsTotal m0) ->
            countOf (view l (httpRequestDurationMicroseconds
                               (fold_left perform ops m0)))
            = Counter.value l (httpRequestsTotal (fold_left perform ops m0)))
    as H.
  { induction ops as [|op ops IH]; intros m0 H0; cbn [fold_left];
      [exact H0|].
    apply IH. destruct op as [c|]; cbn [perform]; [|exact H0].
    rewrite count_record, requests_record, H0. reflexivity. }
  apply H. reflexivity.
Qed.

(** In every state the service can reach and for every label combination,
    the error counter is at most the total-request counter. *)
Theorem errors_total_at_most_requests_total
  (ops : list Operation) (l : Labels) :
  let m := performAll ops initial in
  (Counter.value l (httpErrorsTotal m)
   <= Counter.value l (httpRequestsTotal m))%nat.
Proof.
  cbv zeta. unfold performAll.
  assert (forall m0,
            (Counter.value l (httpErrorsTotal m0)
             <= Counter.value l (httpRequestsTotal m0))%nat ->
            (Counter.value l (httpErrorsTotal (fold_left perform ops m0))
             <= Counter.value l
                  (httpRequestsTotal (fold_left perform ops m0)))%nat)
    as H.
  { induction ops as [|op ops IH]; intros m0 H0; cbn [fold_left];
      [exact H0|].
    apply IH. destruct op as [c|]; cbn [perform]; [|exact H0].
    rewrite errors_record, requests_record.
    destruct (500 <=? status c)%Z;
      destruct (Labels_eqb (labelsOf (request c) (status c)) l);
      cbn [andb]; lia. }
  apply H. exact (le_n 0).
Qed.

(** A request no route matches is answered 404 and counted under its raw
    path. *)
Example unmatched_path_is_its_own_label :
  statusCode
    (response
       (serve JS.decimal_toString Z residentMemory
          (mkEnv Z "2026-01-01T00:00:00.000Z" 1 4096%Z None express) 0 1
          (mkRequest "GET" "/nope" None) initial))
  = 404%Z
  /\ Counter.hashMap
       (httpRequestsTotal
          (after
             (serve JS.decimal_toString Z residentMemory
                (mkEnv Z "2026-01-01T00:00:00.000Z" 1 4096%Z None express) 0 1
                (mkRequest "GET" "/nope" None) initial)))
     = [(mkLabels "GET" "/nope" "404", 1%nat)].
Proof. split; reflexivity. Qed.

(** * Further properties of the application *)

Import Traffic.

(** ** Status codes by route *)

Section Routing.

Variable Number_toString : Q -> string.
Variable ProcessEnv : Type.
Variable defaultMetrics : ProcessEnv -> list string.

Local Abbreviation Env := (Env ProcessEnv).
Local Abbreviation serve :=
  (serve Number_toString ProcessEnv defaultMetrics).
Local Abbreviation handlerOf :=
  (handlerOf Number_toString ProcessEnv defaultMetrics).
Local Abbreviation Arrival := (Arrival ProcessEnv).
Local Abbreviation Answered := (Answered ProcessEnv).
Local Abbreviation serveAll :=
  (serveAll Number_toString ProcessEnv defaultMetrics).
Local Abbreviation serveOne :=
  (serveOne Number_toString ProcessEnv defaultMetrics).
Local Abbreviation answer :=
  (answer Number_toString ProcessEnv defaultMetrics).
Local Abbreviation completed :=
  (completed Number_toString ProcessEnv defaultMetrics).

Local Abbreviation preflight := (preflight ProcessEnv).
Local Abbreviation exchange :=
  (exchange Number_toString ProcessEnv defaultMetrics).
Local Abbreviation finishedOf req env m :=
  (finished_as (framework ProcessEnv env) (handlerOf req env m)).

Lemma serve_response (env : Env) (start now : Z) (req : Request)
  (m : Metrics) :
  response (serve env start now req m) = fst (finishedOf req env m)
  /\ console (serve env start now req m) = snd (finishedOf req env m)
  /\ after (serve env start now req m)
     = onFinish start now req (statusCode (fst (finishedOf req env m))) m.
Proof.
  unfold App.serve. now destruct (finishedOf req env m).
Qed.

Lemma unhandled_replies (env : Env) (req : Request) (m : Metrics) :
  (forall pattern, In pattern patterns -> routed pattern req = false) ->
  exists res,
    unhandled ProcessEnv req env m = (Ended res, [])
    /\ Answered env req (statusCode res).
Proof.
  intros Hnone. unfold unhandled.
  destruct (String.eqb (req_method req) "OPTIONS") eqn:Hmethod.
  - destruct (allowed (framework ProcessEnv env)) as [methods|] eqn:Hallowed.
    + eexists. split; [reflexivity|]. apply answered_preflight; [exact Hnone|].
      unfold Traffic.preflight. now rewrite Hmethod, Hallowed.
    + eexists. split; [reflexivity|]. apply answered_not_found; [exact Hnone|].
      unfold Traffic.preflight. now rewrite Hmethod, Hallowed.
  - eexists. split; [reflexivity|]. apply answered_not_found; [exact Hnone|].
    unfold Traffic.preflight. now rewrite Hmethod.
Qed.


(** The handler of a request ends the response, with the status code of
    the route, or it is the handler of [/metrics] rejected because the
    serialization threw a value that is not a string. *)
Lemma handler_replies (env : Env) (req : Request) (m : Metrics) :
  (exists res,
     handlerOf req env m = (Ended res, [])
     /\ Answered env req (statusCode res))
  \/ (routed "/metrics" req = true
      /\ (exists err,
            fault ProcessEnv env = Some err
            /\ forall text, err <> JS.Primitive text)
      /\ handlerOf req env m
         = (Rejected
              (mkResponse 500 [("Content-Type", contentType)]
                 (Text EmptyString))
              JS.InvalidArgType,
            [])).
Proof.
  unfold App.handlerOf.
  destruct (req_route req) as [[p]|] eqn:Hr.
  2:{ left. apply unhandled_replies.
      intros pattern _. unfold routed. now rewrite Hr. }
  assert (forall pattern, routed pattern req = String.eqb pattern p) as Hp.
  { intros pattern. unfold routed. now rewrite Hr. }
  cbn [path routes lookup].
  destruct (String.eqb_spec "/health" p) as [<-|N1].
  { left. eexists. split; [reflexivity|].
    apply answered_ok with "/health"; [simpl; tauto | now rewrite Hp]. }
  destruct (String.eqb_spec "/ready" p) as [<-|N2].
  { left. eexists. split; [reflexivity|].
    apply answered_ok with "/ready"; [simpl; tauto | now rewrite Hp]. }
  destruct (String.eqb_spec "/metrics" p) as [<-|N3].
  { unfold App.metrics, App.register_metrics.
    destruct (fault ProcessEnv env) as [[message | text |]|] eqn:F.
    - right. split; [now rewrite Hp|]. split; [|reflexivity].
      eexists. split; [reflexivity|]. discriminate.
    - left. eexists. split; [reflexivity|].
      apply answered_failed_export with (JS.Primitive text);
        [now rewrite Hp | exact F].
    - right. split; [now rewrite Hp|]. split; [|reflexivity].
      eexists. split; [reflexivity|]. discriminate.
    - left. eexists. split; [reflexivity|].
      apply answered_export; [now rewrite Hp | exact F]. }
  destruct (String.eqb_spec "/" p) as [<-|N4].
  { left. eexists. split; [reflexivity|].
    apply answered_ok with "/"; [simpl; tauto | now rewrite Hp]. }
  destruct (String.eqb_spec "/api/status" p) as [<-|N5].
  { left. eexists. split; [reflexivity|].
    apply answered_ok with "/api/status"; [simpl; tauto | now rewrite Hp]. }
  destruct (String.eqb_spec "/api/error-test" p) as [<-|N6].
  { left. eexists. split; [reflexivity|].
    apply answered_error_test. now rewrite Hp. }
  left. apply unhandled_replies.
  intros pattern Hin. rewrite Hp. apply String.eqb_neq.
  simpl in Hin. intuition congruence.
Qed.

Lemma handler_answered (env : Env) (req : Request) (m : Metrics) :
  Answered env req (statusCode (fst (finishedOf req env m))).
Proof.
  destruct (handler_replies env req m)
    as [(res & -> & HA) | (Hrouted & (err & F & _) & ->)].
  - exact HA.
  - apply answered_failed_export with err; assumption.
Qed.







End Routing.

(** An [OPTIONS] request on the path of the health route is answered 200
    by the router, with the methods of the route, and counted under its raw
    path; on a path that no route has it is answered 404. *)
Example options_request_on_a_routed_path :
  let env := mkEnv Z "2026-01-01T00:00:00.000Z" 0 4096%Z None expressOptions in
  let req := mkRequest "OPTIONS" "/health" None in
  response (serve JS.decimal_toString Z residentMemory env 0 1 req initial)
  = mkResponse 200 [("Allow", "GET,HEAD")] (Text "GET,HEAD")
  /\ Counter.value (mkLabels "OPTIONS" "/health" "200")
       (httpRequestsTotal
          (after
             (serve JS.decimal_toString Z residentMemory env 0 1 req
                initial)))
     = 1%nat
  /\ statusCode
       (response
          (serve JS.decimal_toString Z residentMemory
             (mkEnv Z "2026-01-01T00:00:00.000Z" 0 4096%Z None express)
             0 1 (mkRequest "OPTIONS" "/nowhere" None) initial))
     = 404%Z.
Proof. repeat split. Qed.

(** ** Traffic through the server *)

Section ServedTraffic.

Variable Number_toString : Q -> string.
Variable ProcessEnv : Type.
Variable defaultMetrics : ProcessEnv -> list string.

Local Abbreviation Env := (Env ProcessEnv).
Local Abbreviation serve :=
  (serve Number_toString ProcessEnv defaultMetrics).
Local Abbreviation handlerOf :=
  (handlerOf Number_toString ProcessEnv defaultMetrics).
Local Abbreviation Arrival := (Arrival ProcessEnv).
Local Abbreviation Answered := (Answered ProcessEnv).
Local Abbreviation serveAll :=
  (serveAll Number_toString ProcessEnv defaultMetrics).
Local Abbreviation serveOne :=
  (serveOne Number_toString ProcessEnv defaultMetrics).
Local Abbreviation answer :=
  (answer Number_toString ProcessEnv defaultMetrics).
Local Abbreviation completed :=
  (completed Number_toString ProcessEnv defaultMetrics).

Lemma routed_same (a b : string) (req : Request) :
  routed a req = true -> routed b req = true -> a = b.
Proof.
  unfold routed. destruct (req_route req); [|discriminate].
  rewrite !String.eqb_eq. congruence.
Qed.

Lemma routed_path (pattern : string) (req : Request) :
  routed pattern req = true -> routeLabel req = pattern.
Proof.
  unfold routed, routeLabel. destruct (req_route req); [|discriminate].
  now rewrite String.eqb_eq.
Qed.

Lemma Answered_functional (env : Env) (req : Request) (c1 c2 : Z) :
  Answered env req c1 -> Answered env req c2 -> c1 = c2.
Proof.
  intros H1 H2.
  destruct H1 as [H|err H F|H F|p Hin H|H P|H P];
    destruct H2 as [H'|err' H' F'|H' F'|p' Hin' H'|H' P'|H' P'];
    try reflexivity; exfalso;
    try congruence;
    try (pose proof (routed_same _ _ _ H H') as E;
         try (simpl in Hin; destruct Hin as [<-|[<-|[<-|[<-|[]]]]]);
         try (simpl in Hin'; destruct Hin' as [<-|[<-|[<-|[<-|[]]]]]);
         discriminate E);
    try (rewrite H' in H; [discriminate|]; try (simpl; tauto);
         simpl in Hin; simpl; tauto);
    try (rewrite H in H'; [discriminate|]; try (simpl; tauto);
         simpl in Hin'; simpl; tauto).
Qed.

Lemma answer_any_state (a : Arrival) (m : Metrics) :
  statusCode
    (fst (finished_as (framework ProcessEnv (surroundings a))
            (handlerOf (asked a) (surroundings a) m)))
  = answer a.
Proof.
  unfold Traffic.answer.
  destruct (serve_response Number_toString ProcessEnv defaultMetrics
              (surroundings a) (arrivedAt a) (finishedAt a) (asked a) initial)
    as (-> & _).
  eapply Answered_functional; apply handler_answered.
Qed.

Lemma serveOne_record (m : Metrics) (a : Arrival) :
  serveOne m a = record m (completed a).
Proof.
  unfold Traffic.serveOne.
  destruct (serve_response Number_toString ProcessEnv defaultMetrics
              (surroundings a) (arrivedAt a) (finishedAt a) (asked a) m)
    as (_ & _ & ->).
  now rewrite answer_any_state.
Qed.

Lemma serveAll_recordAll (arrivals : list Arrival) (m : Metrics) :
  serveAll arrivals m = recordAll (map completed arrivals) m.
Proof.
  unfold Traffic.serveAll, recordAll. revert m.
  induction arrivals as [|a rest IH]; intros m; simpl; [reflexivity|].
  now rewrite serveOne_record, IH.
Qed.

Lemma answered (a : Arrival) :
  Answered (surroundings a) (asked a) (answer a).
Proof.
  rewrite <- (answer_any_state a initial). apply handler_answered.
Qed.

Lemma errors_recordAll (cs : list Completed) (m : Metrics) (l : Labels) :
  Counter.value l (httpErrorsTotal (recordAll cs m))
  = (Counter.value l (httpErrorsTotal m)
     + List.length
         (filter (fun c => (500 <=? status c)%Z
                           && Labels_eqb (labelsOf (request c) (status c)) l)
            cs))%nat.
Proof.
  unfold recordAll. revert m.
  induction cs as [|c cs IH]; intros m; simpl; [lia|].
  rewrite IH, errors_record.
  destruct ((500 <=? status c)%Z
            && Labels_eqb (labelsOf (request c) (status c)) l); simpl; lia.
Qed.

Lemma counted_as_error_test (a : Arrival) (meth : string) :
  (500 <=? answer a)%Z
  && Labels_eqb (labelsOf (asked a) (answer a))
       (mkLabels meth "/api/error-test" "500")
  = String.eqb (req_method (asked a)) meth
    && routed "/api/error-test" (asked a).
Proof.
  pose proof (answered a) as HA.
  remember (answer a) as code eqn:E. clear E.
  assert (forall p, p <> "/api/error-test" -> routed p (asked a) = true ->
                    routed "/api/error-test" (asked a) = false) as Hother.
  { intros p Hp H. destruct (routed "/api/error-test" (asked a)) eqn:R;
      [|reflexivity].
    exfalso. apply Hp. now apply (routed_same _ _ (asked a)). }
  destruct HA as [H|err H F|H F|p Hin H|H P|H P].
  - unfold Labels_eqb, labelsOf; simpl.
    rewrite (routed_path _ _ H), H. simpl.
    now rewrite !andb_true_r.
  - rewrite (Hother "/metrics") by (discriminate || exact H).
    unfold Labels_eqb, labelsOf; simpl.
    rewrite (routed_path _ _ H). simpl.
    now rewrite !andb_false_r.
  - rewrite (Hother "/metrics") by (discriminate || exact H).
    simpl. now rewrite andb_false_r.
  - rewrite (Hother p); [simpl; now rewrite andb_false_r| |exact H].
    simpl in Hin. destruct Hin as [<-|[<-|[<-|[<-|[]]]]]; discriminate.
  - rewrite H by (simpl; tauto). simpl. now rewrite andb_false_r.
  - rewrite H by (simpl; tauto). simpl. now rewrite andb_false_r.
Qed.

(** After any sequence of requests served by a freshly started service,
    the error counter of [{method, /api/error-test, 500}] equals the number
    of requests of that method that the router matched to
    [/api/error-test]: each call of the error-test route adds exactly 1,
    and nothing else adds to that series. *)
Theorem error_test_route_counts_each_call
  (arrivals : list Arrival) (meth : string) :
  Counter.value (mkLabels meth "/api/error-test" "500")
    (httpErrorsTotal (serveAll arrivals initial))
  = List.length
      (filter (fun a => String.eqb (req_method (asked a)) meth
                        && routed "/api/error-test" (asked a))
         arrivals).
Proof.
  rewrite serveAll_recordAll, errors_recordAll. simpl.
  induction arrivals as [|a rest IH]; simpl; [reflexivity|].
  change (status (completed a)) with (answer a).
  change (request (completed a)) with (asked a).
  rewrite counted_as_error_test.
  destruct (String.eqb (req_method (asked a)) meth
            && routed "/api/error-test" (asked a)); simpl; now rewrite IH.
Qed.

Lemma get_put_cases {V : Type} (l l' : Labels) (e : V)
  (hm : list (Labels * V)) :
  get l' (put l e hm) <> None -> l' = l \/ get l' hm <> None.
Proof.
  destruct (Labels_eq_dec l' l) as [->|Hne]; [now left|].
  rewrite get_put_other by exact Hne. now right.
Qed.

(** After any sequence of requests served by a freshly started service,
    every label combination of the error counter has status code 500 and
    the route [/api/error-test] or [/metrics]: a request answered 404 or
    200 never creates or increments an error series. *)
Theorem errors_only_from_failing_routes
  (arrivals : list Arrival) (l : Labels) :
  get l (Counter.hashMap (httpErrorsTotal (serveAll arrivals initial)))
  <> None ->
  status_code l = "500"
  /\ (route l = "/api/error-test" \/ route l = "/metrics").
Proof.
  unfold Traffic.serveAll.
  assert (forall m,
            (get l (Counter.hashMap (httpErrorsTotal m)) <> None ->
             status_code l = "500"
             /\ (route l = "/api/error-test" \/ route l = "/metrics")) ->
            get l (Counter.hashMap
                     (httpErrorsTotal (fold_left serveOne arrivals m)))
            <> None ->
            status_code l = "500"
            /\ (route l = "/api/error-test" \/ route l = "/metrics")) as H.
  { induction arrivals as [|a rest IH]; intros m Hm; cbn [fold_left];
      [exact Hm|].
    apply IH. rewrite serveOne_record.
    unfold record, onFinish; cbn [httpErrorsTotal status request completed].
    pose proof (answered a) as HA.
    remember (answer a) as code eqn:E. clear E.
    destruct HA as [H|err H F|H F|p Hin H|H P|H P]; cbn [Z.leb Z.compare];
      try exact Hm.
    - unfold Counter.inc; cbn [Counter.hashMap]. intros Hget.
      apply get_put_cases in Hget as [->|Hget]; [|now apply Hm].
      unfold labelsOf; simpl. rewrite (routed_path _ _ H). auto.
    - unfold Counter.inc; cbn [Counter.hashMap]. intros Hget.
      apply get_put_cases in Hget as [->|Hget]; [|now apply Hm].
      unfold labelsOf; simpl. rewrite (routed_path _ _ H). auto. }
  apply H. simpl. intros Hnone. now contradiction Hnone.
Qed.

End ServedTraffic.

(** ** Label combinations of the series *)

Lemma get_None_keys {V : Type} (l : Labels) (hm : list (Labels * V)) :
  get l hm = None <-> ~ In l (map fst hm).
Proof.
  induction hm as [|[k x] rest IH]; simpl; [tauto|].
  destruct (Labels_eqb k l) eqn:E.
  - apply Labels_eqb_eq in E. split; [discriminate | tauto].
  - apply Labels_eqb_neq in E. rewrite IH. tauto.
Qed.

Lemma put_keys {V : Type} (l : Labels) (e : V) (hm : list (Labels * V)) :
  map fst (put l e hm)
  = (map fst hm ++ match get l hm with Some _ => [] | None => [l] end)%list.
Proof.
  induction hm as [|[k x] rest IH]; simpl; [reflexivity|].
  destruct (Labels_eqb k l) eqn:E; simpl.
  - now rewrite app_nil_r.
  - now rewrite IH.
Qed.

Lemma put_keys_NoDup {V : Type} (l : Labels) (e : V)
  (hm : list (Labels * V)) :
  NoDup (map fst hm) -> NoDup (map fst (put l e hm)).
Proof.
  intros H. rewrite put_keys.
  destruct (get l hm) as [v|] eqn:G.
  - now rewrite app_nil_r.
  - apply get_None_keys in G.
    apply NoDup_app; [exact H | repeat constructor; intros [] |].
    intros x Hx [E|[]]. subst x. contradiction.
Qed.

Lemma get_same_keys {V W : Type} (l : Labels) (hm : list (Labels * V))
  (hm' : list (Labels * W)) :
  map fst hm = map fst hm' ->
  (get l hm = None <-> get l hm' = None).
Proof. intros E. now rewrite !get_None_keys, E. Qed.

(** In every state the service can reach, no series holds a label
    combination twice, the duration histogram and the total-request
    counter hold the same label combinations in the same order, and every
    label combination of the error counter is one of the total-request
    counter: a snapshot never shows the same sample twice. *)
Theorem series_hold_each_label_combination_once (ops : list Operation) :
  let m := performAll ops initial in
  let histogram := map fst (Histogram.hashMap (httpRequestDurationMicroseconds m)) in
  let requests := map fst (Counter.hashMap (httpRequestsTotal m)) in
  let errors := map fst (Counter.hashMap (httpErrorsTotal m)) in
  NoDup requests /\ histogram = requests
  /\ NoDup errors /\ incl errors requests.
Proof.
  cbv zeta. unfold performAll.
  assert (forall m,
            (NoDup (map fst (Counter.hashMap (httpRequestsTotal m)))
             /\ map fst (Histogram.hashMap (httpRequestDurationMicroseconds m))
                = map fst (Counter.hashMap (httpRequestsTotal m))
             /\ NoDup (map fst (Counter.hashMap (httpErrorsTotal m)))
             /\ incl (map fst (Counter.hashMap (httpErrorsTotal m)))
                  (map fst (Counter.hashMap (httpRequestsTotal m)))) ->
            let m' := fold_left perform ops m in
            NoDup (map fst (Counter.hashMap (httpRequestsTotal m')))
            /\ map fst (Histogram.hashMap (httpRequestDurationMicroseconds m'))
               = map fst (Counter.hashMap (httpRequestsTotal m'))
            /\ NoDup (map fst (Counter.hashMap (httpErrorsTotal m')))
            /\ incl (map fst (Counter.hashMap (httpErrorsTotal m')))
                 (map fst (Counter.hashMap (httpRequestsTotal m')))) as H.
  { induction ops as [|op ops IH]; intros m Hm; cbn [fold_left];
      [exact Hm|].
    apply IH. destruct op as [c|]; cbn [perform]; [|exact Hm].
    destruct Hm as (Rn & HR & En & ER).
    unfold record, onFinish.
    cbn [httpRequestDurationMicroseconds httpRequestsTotal httpErrorsTotal].
    set (L := labelsOf (request c) (status c)).
    unfold Histogram.observe, Counter.inc.
    cbn [Histogram.hashMap Counter.hashMap].
    repeat split.
    - now apply put_keys_NoDup.
    - rewrite !put_keys, HR.
      pose proof (get_same_keys L _ _ HR) as G.
      destruct (get L (Histogram.hashMap (httpRequestDurationMicroseconds m)))
        as [v|],
        (get L (Counter.hashMap (httpRequestsTotal m))) as [w|];
        try reflexivity; exfalso.
      + assert (Some v = None) by now apply G. discriminate.
      + assert (Some w = None) by now apply G. discriminate.
    - destruct (500 <=? status c)%Z; [now apply put_keys_NoDup | exact En].
    - destruct (500 <=? status c)%Z; cbn [Counter.hashMap].
      + rewrite !put_keys. intros x Hx.
        apply in_app_or in Hx as [Hx|Hx].
        * apply in_or_app. left. now apply ER.
        * destruct (get L (Counter.hashMap (httpErrorsTotal m)));
            [contradiction|].
          destruct Hx as [<-|[]].
          destruct (get L (Counter.hashMap (httpRequestsTotal m))) as [w|]
            eqn:G; apply in_or_app; [left | right; now left].
          apply get_In in G. change L with (fst (L, w)). now apply in_map.
      + rewrite put_keys. intros x Hx. apply in_or_app. left. now apply ER. }
  apply H. simpl. repeat split; try constructor. intros x [].
Qed.

(** ** Snapshots of equal states *)

Lemma In_get {V : Type} (l : Labels) (v : V) (hm : list (Labels * V)) :
  NoDup (map fst hm) -> In (l, v) hm -> get l hm = Some v.
Proof.
  induction hm as [|[k x] rest IH]; simpl; [tauto|].
  intros Hnodup [E | Hin].
  - injection E as -> ->. now rewrite Labels_eqb_refl.
  - inversion Hnodup as [|? ? Hk Hrest]; subst.
    destruct (Labels_eqb k l) eqn:Hkl.
    + apply Labels_eqb_eq in Hkl. subst k. exfalso. apply Hk.
      change l with (fst (l, v)). now apply in_map.
    + now apply IH.
Qed.

Lemma hashMap_Permutation {V : Type} (hm hm' : list (Labels * V)) :
  NoDup (map fst hm) -> NoDup (map fst hm') ->
  (forall l, get l hm = get l hm') ->
  Permutation hm hm'.
Proof.
  intros Hn Hn' Hget.
  apply NoDup_Permutation.
  - now apply NoDup_map_inv with (f := fst).
  - now apply NoDup_map_inv with (f := fst).
  - intros [l v]. split; intros Hin.
    + apply get_In. rewrite <- Hget. now apply In_get.
    + apply get_In. rewrite Hget. now apply In_get.
Qed.

Lemma hashMap_eq {V : Type} (hm hm' : list (Labels * V)) :
  NoDup (map fst hm) ->
  map fst hm = map fst hm' ->
  (forall l, get l hm = get l hm') ->
  hm = hm'.
Proof.
  revert hm'. induction hm as [|[k x] rest IH]; intros [|[k' x'] rest'];
    simpl; try discriminate; [reflexivity|].
  intros Hnodup [= <- Hkeys] Hget.
  inversion Hnodup as [|? ? Hk Hrest]; subst.
  pose proof (Hget k) as Hhead. rewrite Labels_eqb_refl in Hhead.
  injection Hhead as <-. f_equal.
  apply IH; [exact Hrest | exact Hkeys|].
  intros l. destruct (Labels_eqb k l) eqn:Hkl.
  - apply Labels_eqb_eq in Hkl. subst l.
    assert (get k rest = None) as -> by now apply get_None_keys.
    symmetry. apply get_None_keys. now rewrite <- Hkeys.
  - specialize (Hget l). now rewrite Hkl in Hget.
Qed.

Lemma performAll_keys (ops : list Operation) :
  let m := performAll ops initial in
  NoDup (map fst (Histogram.hashMap (httpRequestDurationMicroseconds m)))
  /\ NoDup (map fst (Counter.hashMap (httpRequestsTotal m)))
  /\ NoDup (map fst (Counter.hashMap (httpErrorsTotal m))).
Proof.
  cbv zeta. unfold performAll.
  assert (forall m,
            (NoDup (map fst
                      (Histogram.hashMap (httpRequestDurationMicroseconds m)))
             /\ NoDup (map fst (Counter.hashMap (httpRequestsTotal m)))
             /\ NoDup (map fst (Counter.hashMap (httpErrorsTotal m)))) ->
            let m' := fold_left perform ops m in
            NoDup (map fst
                     (Histogram.hashMap (httpRequestDurationMicroseconds m')))
            /\ NoDup (map fst (Counter.hashMap (httpRequestsTotal m')))
            /\ NoDup (map fst (Counter.hashMap (httpErrorsTotal m')))) as H.
  { induction ops as [|op ops IH]; intros m Hm; cbn [fold_left];
      [exact Hm|].
    apply IH. destruct op as [c|]; cbn [perform]; [|exact Hm].
    destruct Hm as (Hn & Rn & En).
    unfold record, onFinish.
    cbn [httpRequestDurationMicroseconds httpRequestsTotal httpErrorsTotal].
    unfold Histogram.observe, Counter.inc.
    cbn [Histogram.hashMap Counter.hashMap].
    repeat split.
    - now apply put_keys_NoDup.
    - now apply put_keys_NoDup.
    - destruct (500 <=? status c)%Z; [now apply put_keys_NoDup | exact En]. }
  apply H. simpl. repeat split; constructor.
Qed.

Lemma exported_bound (b : Q) (e : Histogram.Entry) :
  In b buckets ->
  In (Some b,
      Histogram.bucketValue b
        (Histogram.cumulative buckets (Histogram.bucketValues e) 0))
    (Histogram.exportedBuckets buckets e).
Proof.
  intros Hb. unfold Histogram.exportedBuckets. apply in_or_app. left.
  unfold buckets in *. cbn [Histogram.cumulative map fst snd].
  cbn [In] in Hb.
  destruct Hb as [<-|[<-|[<-|[<-|[<-|[<-|[<-|[<-|[<-|[]]]]]]]]]];
    simpl; tauto.
Qed.

Section Snapshots.

Variable Number_toString : Q -> string.
Variable ProcessEnv : Type.
Variable defaultMetrics : ProcessEnv -> list string.

Local Abbreviation metricsLines :=
  (metricsLines Number_toString ProcessEnv defaultMetrics).
Local Abbreviation register_metrics :=
  (register_metrics Number_toString ProcessEnv defaultMetrics).

Lemma customLines_Permutation (ops ops' : list Operation) :
  sameEntries (performAll ops initial) (performAll ops' initial) ->
  Permutation (customLines Number_toString (performAll ops' initial))
    (customLines Number_toString (performAll ops initial)).
Proof.
  intros Hsame.
  pose proof (performAll_registration ops) as (Hn & Hh & Rn & Rh & En & Eh).
  pose proof (performAll_registration ops')
    as (Hn' & Hh' & Rn' & Rh' & En' & Eh').
  pose proof (performAll_shaped ops initial initial_shaped) as [Hb _].
  pose proof (performAll_shaped ops' initial initial_shaped) as [Hb' _].
  pose proof (performAll_keys ops) as (Kh & Kr & Ke).
  pose proof (performAll_keys ops') as (Kh' & Kr' & Ke').
  cbv zeta in *.
  set (m := performAll ops initial) in *.
  set (m' := performAll ops' initial) in *.
  unfold customLines, histogramLines, counterLines.
  rewrite Hn, Hh, Rn, Rh, En, Eh, Hn', Hh', Rn', Rh', En', Eh', Hb, Hb'.
  repeat apply Permutation_app.
  - do 2 apply perm_skip. apply Permutation_flat_map.
    apply hashMap_Permutation; [exact Kh' | exact Kh|].
    intros l. symmetry. apply (Hsame l).
  - do 2 apply perm_skip. apply Permutation_map.
    apply hashMap_Permutation; [exact Kr' | exact Kr|].
    intros l. symmetry. apply (Hsame l).
  - do 2 apply perm_skip. apply Permutation_map.
    apply hashMap_Permutation; [exact Ke' | exact Ke|].
    intros l. symmetry. apply (Hsame l).
Qed.

Lemma customLines_eq (ops ops' : list Operation) :
  sameEntries (performAll ops initial) (performAll ops' initial) ->
  sameOrder (performAll ops initial) (performAll ops' initial) ->
  customLines Number_toString (performAll ops' initial)
  = customLines Number_toString (performAll ops initial).
Proof.
  intros Hsame (Oh & Or & Oe).
  pose proof (performAll_registration ops) as (Hn & Hh & Rn & Rh & En & Eh).
  pose proof (performAll_registration ops')
    as (Hn' & Hh' & Rn' & Rh' & En' & Eh').
  pose proof (performAll_shaped ops initial initial_shaped) as [Hb _].
  pose proof (performAll_shaped ops' initial initial_shaped) as [Hb' _].
  pose proof (performAll_keys ops) as (Kh & Kr & Ke).
  cbv zeta in *.
  set (m := performAll ops initial) in *.
  set (m' := performAll ops' initial) in *.
  unfold customLines, histogramLines, counterLines.
  rewrite Hn, Hh, Rn, Rh, En, Eh, Hn', Hh', Rn', Rh', En', Eh', Hb, Hb'.
  rewrite (hashMap_eq _ _ Kh Oh (fun l => proj1 (Hsame l))).
  rewrite (hashMap_eq _ _ Kr Or (fun l => proj1 (proj2 (Hsame l)))).
  rewrite (hashMap_eq _ _ Ke Oe (fun l => proj2 (proj2 (Hsame l)))).
  reflexivity.
Qed.

(** C6, as amended.  Two exports over metrics states that hold the same
    entries, with the same sample of the default process metrics, write the
    same lines, and the same text when the label combinations were created
    in the same order in both.  The snapshot of any state the service can
    reach holds the lines of the default metrics, the type line of each of
    the three custom series, one data line for every label combination of
    the two counters, and for every label combination of the histogram its
    [_count] and [_sum] lines, one [_bucket] line for each of the nine
    upper bounds, with its cumulative count, and one for [+Inf], with the
    count of observations. *)
Theorem export_deterministic_and_complete
  (ops ops' : list Operation) (env env' : ProcessEnv) :
  let m := performAll ops initial in
  let m' := performAll ops' initial in
  let lines := metricsLines env m in
  (sameEntries m m' -> defaultMetrics env' = defaultMetrics env ->
   Permutation (metricsLines env' m') lines
   /\ (sameOrder m m' ->
       register_metrics None env' m' = register_metrics None env m))
  /\ register_metrics None env m = inr (JS.unlines lines)
  /\ incl (defaultMetrics env) lines
  /\ In (typeLine "http_request_duration_seconds" "histogram") lines
  /\ In (typeLine "http_requests_total" "counter") lines
  /\ In (typeLine "http_errors_total" "counter") lines
  /\ (forall l n,
        get l (Counter.hashMap (httpRequestsTotal m)) = Some n ->
        In (sampleLine "http_requests_total" (labelsText l)
              (JS.nat_toString n)) lines)
  /\ (forall l n,
        get l (Counter.hashMap (httpErrorsTotal m)) = Some n ->
        In (sampleLine "http_errors_total" (labelsText l)
              (JS.nat_toString n)) lines)
  /\ (forall l e,
        get l (Histogram.hashMap (httpRequestDurationMicroseconds m)) = Some e ->
        In (sampleLine "http_request_duration_seconds_count" (labelsText l)
              (JS.nat_toString (Histogram.count e))) lines
        /\ In (sampleLine "http_request_duration_seconds_sum" (labelsText l)
                 (Number_toString (Histogram.sum e))) lines
        /\ (forall b,
              In b buckets ->
              In (bucketSample Number_toString
                    "http_request_duration_seconds" l
                    (Some b,
                     Histogram.cumulativeCount b l
                       (httpRequestDurationMicroseconds m)))
                lines)
        /\ In (bucketSample Number_toString
                 "http_request_duration_seconds" l
                 (None, Histogram.count e))
             lines).
Proof.
  cbv zeta.
  pose proof (performAll_registration ops) as (Hn & Hh & Rn & Rh & En & Eh).
  pose proof (performAll_shaped ops initial initial_shaped) as [Hb _].
  split.
  { intros Hsame Hdefault.
    rewrite !(metricsLines_eq Number_toString ProcessEnv defaultMetrics).
    rewrite Hdefault. split.
    - apply Permutation_app_head. now apply customLines_Permutation.
    - intros Horder. unfold App.register_metrics.
      rewrite !(metricsLines_eq Number_toString ProcessEnv defaultMetrics).
      now rewrite Hdefault, (customLines_eq ops ops'). }
  set (m := performAll ops initial) in *.
  rewrite (metricsLines_eq Number_toString ProcessEnv defaultMetrics).
  unfold customLines.
  split; [|split].
  - unfold App.register_metrics.
    now rewrite (metricsLines_eq Number_toString ProcessEnv defaultMetrics).
  - apply incl_appl, incl_refl.
  - repeat split.
    + apply in_or_app; right. apply in_or_app; left.
      unfold histogramLines. rewrite Hn. right; left; reflexivity.
    + apply in_or_app; right. apply in_or_app; right. apply in_or_app; left.
      unfold counterLines. rewrite Rn. right; left; reflexivity.
    + apply in_or_app; right. apply in_or_app; right. apply in_or_app; right.
      unfold counterLines. rewrite En. right; left; reflexivity.
    + intros l n Hget. apply get_In in Hget.
      apply in_or_app; right. apply in_or_app; right. apply in_or_app; left.
      unfold counterLines. rewrite Rn. right; right.
      apply in_map_iff. exists (l, n). split; [reflexivity | exact Hget].
    + intros l n Hget. apply get_In in Hget.
      apply in_or_app; right. apply in_or_app; right. apply in_or_app; right.
      unfold counterLines. rewrite En. right; right.
      apply in_map_iff. exists (l, n). split; [reflexivity | exact Hget].
    + apply in_or_app; right. apply in_or_app; left.
      unfold histogramLines. rewrite Hn, Hb. right; right.
      apply in_flat_map. exists (l, e). split; [now apply get_In|].
      unfold entryLines. apply in_or_app; right. right; left.
      reflexivity.
    + apply in_or_app; right. apply in_or_app; left.
      unfold histogramLines. rewrite Hn, Hb. right; right.
      apply in_flat_map. exists (l, e). split; [now apply get_In|].
      unfold entryLines. apply in_or_app; right. left.
      reflexivity.
    + intros b Hin.
      apply in_or_app; right. apply in_or_app; left.
      unfold histogramLines. rewrite Hn, Hb. right; right.
      apply in_flat_map. exists (l, e). split; [now apply get_In|].
      unfold entryLines. apply in_or_app; left.
      apply in_map. unfold Histogram.cumulativeCount, Histogram.entry.
      rewrite H, Hb. now apply exported_bound.
    + apply in_or_app; right. apply in_or_app; left.
      unfold histogramLines. rewrite Hn, Hb. right; right.
      apply in_flat_map. exists (l, e). split; [now apply get_In|].
      unfold entryLines. apply in_or_app; left.
      apply in_map. unfold Histogram.exportedBuckets.
      apply in_or_app. right. left. reflexivity.
Qed.

End Snapshots.

(** With the same two entries created in the other order, the snapshot
    holds its lines in another order: the text differs. *)
Lemma export_depends_on_creation_order :
  sameEntries (performAll healthThenReady initial)
    (performAll (rev healthThenReady) initial)
  /\ register_metrics JS.decimal_toString Z residentMemory None 4096%Z
       (performAll healthThenReady initial)
     <> register_metrics JS.decimal_toString Z residentMemory None 4096%Z
          (performAll (rev healthThenReady) initial).
Proof.
  assert (Hswap :
    forall (V : Type) (a b : Labels) (x y : V) (l : Labels),
      a <> b -> get l [(a, x); (b, y)] = get l [(b, y); (a, x)]).
  { intros V a b x y l Hab. simpl.
    destruct (Labels_eqb a l) eqn:Ea, (Labels_eqb b l) eqn:Eb;
      try reflexivity.
    apply Labels_eqb_eq in Ea, Eb. congruence. }
  split.
  - set (m := performAll healthThenReady initial).
    set (m' := performAll (rev healthThenReady) initial).
    vm_compute in m, m'. subst m m'. intros l.
    cbn [httpRequestDurationMicroseconds httpRequestsTotal httpErrorsTotal
         Histogram.hashMap Counter.hashMap].
    repeat split; apply Hswap; discriminate.
  - vm_compute. discriminate.
Qed.

(** ** The order in which responses finish *)

Lemma view_recordAll (cs : list Completed) (m : Metrics) (l : Labels) :
  shaped (httpRequestDurationMicroseconds m) ->
  view l (httpRequestDurationMicroseconds (recordAll cs m))
  = fold_left (observedIn l) cs (view l (httpRequestDurationMicroseconds m)).
Proof.
  unfold recordAll. revert m.
  induction cs as [|c cs IH]; intros m Hm; cbn [fold_left]; [reflexivity|].
  rewrite IH.
  - f_equal. unfold record, onFinish, observedIn.
    cbn [httpRequestDurationMicroseconds].
    destruct (Labels_eqb (labelsOf (request c) (status c)) l) eqn:E.
    + apply Labels_eqb_eq in E. subst l. now apply view_observe_same.
    + apply Labels_eqb_neq in E. apply view_observe_other. congruence.
  - now apply (perform_shaped m (Observe c)).
Qed.

Lemma sameView_refl (v : View) : sameView v v.
Proof. unfold sameView. intuition reflexivity. Qed.

Lemma sameView_trans (a b c : View) :
  sameView a b -> sameView b c -> sameView a c.
Proof.
  intros (B1 & C1 & S1) (B2 & C2 & S2). repeat split; try congruence.
  now rewrite S1.
Qed.

Lemma observedIn_sameView (l : Labels) (v v' : View) (c : Completed) :
  sameView v v' -> sameView (observedIn l v c) (observedIn l v' c).
Proof.
  intros (B & C & S). unfold observedIn.
  destruct (Labels_eqb (labelsOf (request c) (status c)) l);
    [|now repeat split].
  unfold spec_observe; repeat split; simpl; try congruence.
  now rewrite S.
Qed.

Lemma countIn_swap (d d' : Q) (buckets : list (Q * nat)) :
  map (countIn d) (map (countIn d') buckets)
  = map (countIn d') (map (countIn d) buckets).
Proof.
  rewrite !map_map. apply map_ext. intros [b n]. unfold countIn; simpl.
  now destruct (Qle_bool d b), (Qle_bool d' b).
Qed.

Lemma observedIn_swap (l : Labels) (v : View) (c c' : Completed) :
  sameView (observedIn l (observedIn l v c) c')
    (observedIn l (observedIn l v c') c).
Proof.
  unfold observedIn.
  destruct (Labels_eqb (labelsOf (request c) (status c)) l),
           (Labels_eqb (labelsOf (request c') (status c')) l);
    try apply sameView_refl.
  unfold spec_observe; repeat split; simpl.
  - apply countIn_swap.
  - ring.
Qed.

Lemma fold_observedIn_sameView (l : Labels) (cs : list Completed)
  (v v' : View) :
  sameView v v' ->
  sameView (fold_left (observedIn l) cs v) (fold_left (observedIn l) cs v').
Proof.
  revert v v'. induction cs as [|c cs IH]; intros v v' H; simpl;
    [exact H|].
  apply IH. now apply observedIn_sameView.
Qed.

Lemma fold_observedIn_Permutation (l : Labels) (cs cs' : list Completed) :
  Permutation cs cs' ->
  forall v v', sameView v v' ->
  sameView (fold_left (observedIn l) cs v) (fold_left (observedIn l) cs' v').
Proof.
  induction 1 as [|c cs cs' _ IH|c c' cs|cs cs' cs'' _ IH1 _ IH2];
    intros v v' Hv; simpl.
  - exact Hv.
  - apply IH. now apply observedIn_sameView.
  - apply fold_observedIn_sameView.
    eapply sameView_trans; [apply observedIn_swap|].
    now apply observedIn_sameView, observedIn_sameView.
  - eapply sameView_trans; [apply IH1, Hv | apply IH2, sameView_refl].
Qed.

Lemma filter_length_Permutation {A : Type} (f : A -> bool) (xs ys : list A) :
  Permutation xs ys ->
  List.length (filter f xs) = List.length (filter f ys).
Proof.
  induction 1 as [|x xs ys _ IH|x y xs|xs ys zs _ IH1 _ IH2]; simpl.
  - reflexivity.
  - destruct (f x); simpl; congruence.
  - destruct (f x), (f y); reflexivity.
  - congruence.
Qed.

(** The order in which responses finish does not matter to the counts: two
    sequences of the same completed requests in different orders leave, for
    every label combination, the same total-request and error counts and
    the same cumulative bucket counts and observation count of the
    histogram.  Nothing is said of the sum, which the code adds up in
    floating point, in the order in which the responses finish. *)
Theorem finish_order_is_irrelevant
  (cs cs' : list Completed) (l : Labels) :
  Permutation cs cs' ->
  let m := recordAll cs initial in
  let m' := recordAll cs' initial in
  Counter.value l (httpRequestsTotal m) = Counter.value l (httpRequestsTotal m')
  /\ Counter.value l (httpErrorsTotal m) = Counter.value l (httpErrorsTotal m')
  /\ bucketsOf (view l (httpRequestDurationMicroseconds m))
     = bucketsOf (view l (httpRequestDurationMicroseconds m'))
  /\ countOf (view l (httpRequestDurationMicroseconds m))
     = countOf (view l (httpRequestDurationMicroseconds m')).
Proof.
  intros HP. cbv zeta. split; [|split].
  - rewrite !requests_recordAll. f_equal.
    now apply filter_length_Permutation.
  - rewrite !errors_recordAll. f_equal.
    now apply filter_length_Permutation.
  - rewrite !view_recordAll by apply initial_shaped.
    destruct (fold_observedIn_Permutation l cs cs' HP
                (view l (httpRequestDurationMicroseconds initial))
                (view l (httpRequestDurationMicroseconds initial))
                (sameView_refl _))
      as (Hbuckets & Hcount & _).
    split; assumption.
Qed.

(** Three completed requests in two orders. *)
Lemma finish_order_is_irrelevant_witness :
  bucketsOf
    (view (mkLabels "GET" "/api/status" "200")
       (httpRequestDurationMicroseconds (recordAll scenario initial)))
  = bucketsOf
      (view (mkLabels "GET" "/api/status" "200")
         (httpRequestDurationMicroseconds
            (recordAll (rev scenario) initial)))
  /\ countOf
       (view (mkLabels "GET" "/api/status" "200")
          (httpRequestDurationMicroseconds (recordAll scenario initial)))
     = countOf
         (view (mkLabels "GET" "/api/status" "200")
            (httpRequestDurationMicroseconds
               (recordAll (rev scenario) initial))).
Proof.
  apply (finish_order_is_irrelevant scenario (rev scenario)).
  apply Permutation_rev.
Defined.

(** One call of the error-test route: its series is the only one of the
    error counter. *)
Lemma errors_only_from_failing_routes_witness :
  status_code (mkLabels "GET" "/api/error-test" "500") = "500"
  /\ (route (mkLabels "GET" "/api/error-test" "500") = "/api/error-test"
      \/ route (mkLabels "GET" "/api/error-test" "500") = "/metrics").
Proof.
  apply (errors_only_from_failing_routes JS.decimal_toString Z residentMemory
           [mkArrival Z
              (mkEnv Z "2026-01-01T00:00:00.000Z" 1 4096%Z None express)
              0 3
              (mkRequest "GET" "/api/error-test"
                 (Some (mkRoute "/api/error-test")))]).
  simpl. discriminate.
Defined.

(** ** The text of a snapshot, line by line *)

(** On a platform that writes numbers and default metrics line by line, the
    snapshot of any state the service can reach is made of single lines,
    whatever characters the methods and raw paths of the requests held, and
    its text splits back into exactly these lines: any list of single lines
    with the same text is the list of exported lines. *)
Theorem snapshot_text_splits_into_its_lines
  (Number_toString : Q -> string) (ProcessEnv : Type)
  (defaultMetrics : ProcessEnv -> list string)
  (ops : list Operation) (env : ProcessEnv) :
  linewise Number_toString defaultMetrics ->
  let lines :=
    metricsLines Number_toString ProcessEnv defaultMetrics env
      (performAll ops initial) in
  Forall (fun l => JS.singleLine l = true) lines
  /\ forall lines',
       Forall (fun l => JS.singleLine l = true) lines' ->
       JS.unlines lines' = JS.unlines lines -> lines' = lines.
Proof.
  intros platform. cbv zeta.
  pose proof (singleLine_metricsLines Number_toString ProcessEnv
                defaultMetrics platform ops env) as H.
  split; [exact H|].
  intros lines' H' E. now apply unlines_inj.
Qed.

(** A request for a path that holds a line feed and a double quote is
    exported on single lines. *)
Lemma snapshot_text_splits_into_its_lines_witness :
  Forall (fun l => JS.singleLine l = true)
    (metricsLines JS.decimal_toString Z residentMemory 4096%Z
       (performAll
          [Observe
             (mkCompleted 0 1
                (mkRequest "GET"
                   ("/a" ++ JS.newline ++ "# TYPE x counter" ++ JS.dquote)
                   None) 404)]
          initial)).
Proof.
  apply (snapshot_text_splits_into_its_lines JS.decimal_toString Z
           residentMemory).
  repeat split.
  - apply decimal_toString_singleLine.
  - apply residentMemory_singleLine.
  - apply residentMemory_names.
Defined.

(** * Properties of the build pipelines *)

Import Pipeline.

Local Open Scope nat_scope.
Local Open Scope string_scope.

Lemma string_length_app (s t : string) :
  String.length (s ++ t) = String.length s + String.length t.
Proof. induction s as [|c s IH]; simpl; [reflexivity | now rewrite IH]. Qed.

Lemma substring_splits (n : nat) :
  forall s, n <= String.length s ->
  exists dropped kept,
    Groovy.substring n s = Some kept /\ s = dropped ++ kept /\
    String.length dropped = n.
Proof.
  induction n as [|n IH]; intros s Hn.
  - exists EmptyString, s. repeat split.
  - destruct s as [|c s]; simpl in Hn; [lia|].
    destruct (IH s) as (dropped & kept & Hsub & Hs & Hlen); [lia|].
    exists (String c dropped), kept. simpl. rewrite Hsub, Hlen.
    repeat split. now rewrite Hs at 1.
Qed.

(** ** Closed forms of the stages

    Each stage is first reduced to what it does apart from writing to the
    console: how it completes, what it makes of the result, and the steps
    it runs.  A run of the stages is then followed stage by stage, with a
    case for each way a stage can stop the build. *)

Section PipelineRuns.

Variable params : Params.
Variable tools : Tools.
Variable jenkins : Jenkins.

(** How a script that only runs the step [s] completes. *)
Local Abbreviation completionOf s :=
  (match outcome tools s with
   | Returned _ => Normal tt
   | Threw e => Exception e
   end).

(** A stage that leaves the notifications and the stages entered alone,
    and only adds to the steps run and to the console. *)
Local Abbreviation stage_run m c r steps :=
  (forall b : Build,
   exists lines,
     m b =
     (c,
      mkBuild (r (result b)) (entered b) (ran b ++ steps)%list
        (console b ++ lines)%list (sent b))).

(** A case for each outcome of the step [s]. *)
Ltac split_on s :=
  match goal with
  | |- context [outcome tools s] => destruct (outcome tools s) eqn:?
  end.

(** Unfolds the steps and the monad of a script. *)
Ltac script_steps :=
  cbv [binding bat batStdout batStatus bind ret throw try echo setResult
       getResult didRun httpRequest result ran sent entered console
       attempted throws fst snd].

(** Closes a case of a closed form: the lines written are those left. *)
Ltac close_stage :=
  repeat rewrite <- app_assoc; cbn [app];
  first [ eexists; reflexivity | exists []; rewrite app_nil_r; reflexivity ].

Lemma installDependencies_run :
  stage_run (installDependencies tools) (completionOf NpmInstall)
    (fun r => r) [NpmInstall].
Proof.
  intros [r e rn con snt]. unfold installDependencies. script_steps.
  split_on NpmInstall; exists []; rewrite app_nil_r; reflexivity.
Qed.

Lemma securitySast_run :
  stage_run (securitySast tools) (completionOf NpmAudit)
    (fun r => r)
    (NpmAudit :: if throws tools NpmAudit then [] else [Eslint]).
Proof.
  intros [r e rn con snt]. unfold securitySast. script_steps.
  split_on NpmAudit.
  - destruct (Groovy.contains stdout "high" || Groovy.contains stdout "critical");
      script_steps; split_on Eslint; close_stage.
  - close_stage.
Qed.

Lemma single_step_run (s : Step) :
  stage_run (bat tools s) (completionOf s) (fun r => r) [s].
Proof.
  intros [r e rn con snt]. script_steps.
  split_on s; exists []; rewrite app_nil_r; reflexivity.
Qed.

Lemma rethrown :
  Groovy.contains
    "🚨 CRITICAL vulnerabilities found! Pipeline stopped for security review."
    "CRITICAL vulnerabilities" = true.
Proof. reflexivity. Qed.

Lemma securityContainerScan_run :
  stage_run (securityContainerScan tools)
    (match outcome tools TrivyReport with
     | Returned _ =>
         if (exitCode tools TrivyCritical =? 0)%Z
         then Normal tt
         else
           Exception
             "🚨 CRITICAL vulnerabilities found! Pipeline stopped for security review."
     | Threw e =>
         if Groovy.contains e "CRITICAL vulnerabilities"
         then Exception e
         else Normal tt
     end)
    (fun r => r)
    (TrivyReport :: if throws tools TrivyReport then [] else [TrivyCritical]).
Proof.
  intros [r e rn con snt]. unfold securityContainerScan. script_steps.
  split_on TrivyReport.
  - destruct (exitCode tools TrivyCritical =? 0)%Z; cbv [negb].
    + close_stage.
    + rewrite rethrown. close_stage.
  - destruct (Groovy.contains message "CRITICAL vulnerabilities");
      close_stage.
Qed.

Lemma dockerPush_run :
  stage_run (dockerPush tools)
    (match outcome tools DockerhubCredentials with
     | Returned _ => completionOf DockerPush
     | Threw e => Exception e
     end)
    (fun r => r)
    (DockerhubCredentials ::
     if throws tools DockerhubCredentials then [] else [DockerPush]).
Proof.
  intros [r e rn con snt]. unfold dockerPush. script_steps.
  split_on DockerhubCredentials; [split_on DockerPush|]; close_stage.
Qed.

Lemma dockerBuildAndPush_run :
  stage_run (dockerBuildAndPush tools)
    (match outcome tools DockerhubCredentials with
     | Returned _ => completionOf DockerLoginBuild
     | Threw e => Exception e
     end)
    (fun r => r)
    (DockerhubCredentials ::
     if throws tools DockerhubCredentials then [] else [DockerLoginBuild]).
Proof.
  intros [r e rn con snt]. unfold dockerBuildAndPush. script_steps.
  split_on DockerhubCredentials; [split_on DockerLoginBuild|]; close_stage.
Qed.

Lemma kubernetesDeployment_run :
  stage_run (kubernetesDeployment tools) (Normal tt)
    (fun r =>
       if existsb (throws tools) deploySteps then worsen UNSTABLE r else r)
    (attempted tools deploySteps).
Proof.
  intros [r e rn con snt]. unfold kubernetesDeployment, deploySteps.
  script_steps. cbv [existsb throws].
  split_on KubeConfig; [split_on KubectlContext; [split_on KubectlClusterInfo;
    [split_on KubectlNamespace; [split_on KubectlApply; [split_on KubectlServices;
    [split_on KubectlPods|]|]|]|]|]|]; cbv [orb]; close_stage.
Qed.

Lemma chaosTest_run :
  stage_run (chaosTest tools) (Normal tt)
    (fun r =>
       if existsb (throws tools) chaosSteps then worsen UNSTABLE r else r)
    (attempted tools chaosSteps).
Proof.
  intros [r e rn con snt]. unfold chaosTest, chaosSteps.
  script_steps. cbv [existsb throws].
  split_on ChaosKubeConfig; [split_on ChaosApply; [split_on ChaosWait;
    [split_on ChaosPods; [split_on ChaosPodCount|]|]|]|]; cbv [orb]; close_stage.
Qed.

Lemma kubernetesDeploymentEarlier_run :
  stage_run (kubernetesDeploymentEarlier tools) (completionOf KubeConfig)
    (fun r =>
       if negb (throws tools KubeConfig)
          && existsb (throws tools) deployStepsEarlier
       then worsen UNSTABLE r
       else r)
    (KubeConfig ::
     if throws tools KubeConfig then []
     else attempted tools deployStepsEarlier).
Proof.
  intros [r e rn con snt]. unfold kubernetesDeploymentEarlier, deployStepsEarlier.
  script_steps. cbv [existsb throws].
  split_on KubeConfig; [split_on KubectlContext; [split_on KubectlClusterInfo;
    [split_on KubectlNodes;
    [split_on KubectlNamespace; [split_on KubectlApply; [split_on KubectlServices;
    [split_on KubectlPods|]|]|]|]|]|]|]; cbv [orb andb negb]; close_stage.
Qed.

Lemma runTestsEarlier_run :
  stage_run (echo "No tests implemented yet.") (Normal tt) (fun r => r) [].
Proof.
  intros [r e rn con snt]. script_steps. rewrite app_nil_r.
  eexists; reflexivity.
Qed.

Lemma runStages_skip (name : string) (m : M unit) (rest : list Stage)
  (b : Build) :
  runStages (mkStage name false m :: rest) b = runStages rest b.
Proof. reflexivity. Qed.

Lemma runStages_stage (name : string) (m : M unit) (rest : list Stage)
  (b : Build) (c : Completion unit) (r : option Result -> option Result)
  (stepsRun : list Step) :
  stage_run m c r stepsRun ->
  exists lines,
    runStages (mkStage name true m :: rest) b =
    match c with
    | Normal _ =>
        runStages rest
          (mkBuild (r (result b)) (entered b ++ [name])%list
             (ran b ++ stepsRun)%list (console b ++ lines)%list (sent b))
    | Exception _ =>
        mkBuild (worsen FAILURE (r (result b))) (entered b ++ [name])%list
          (ran b ++ stepsRun)%list (console b ++ lines)%list (sent b)
    end.
Proof.
  intros Hm. destruct (Hm (enter name b)) as [lines Hrun]. exists lines.
  cbn [runStages when steps stageName]. rewrite Hrun.
  destruct c; reflexivity.
Qed.

(** Runs the next stage by its closed form [lemma]. *)
Ltac stage lemma :=
  match goal with
  | |- context [runStages (mkStage ?n true ?m :: ?rest) ?b] =>
      let lines := fresh "lines" in
      destruct (runStages_stage n m rest b _ _ _ lemma) as [lines ->];
      cbn [result entered ran console sent]
  end.

(** Follows the stages of the current pipeline, with a case for each value
    of the parameters and each way in which a stage stops the build. *)
Ltac stages_of_pipeline :=
  unfold staged, stages, start;
  destruct params as [[] []];
  cbn [negb RUN_CHAOS_TEST SKIP_SECURITY_SCAN];
  stage installDependencies_run; split_on NpmInstall;
  repeat rewrite runStages_skip;
  try (stage securitySast_run; split_on NpmAudit);
  try (stage (single_step_run NpmTest); split_on NpmTest);
  try (stage (single_step_run DockerBuild); split_on DockerBuild);
  repeat rewrite runStages_skip;
  try (stage securityContainerScan_run; split_on TrivyReport;
       [ destruct (exitCode tools TrivyCritical =? 0)%Z eqn:?
       | match goal with
         | |- context [if Groovy.contains ?e "CRITICAL vulnerabilities"
                       then _ else _] =>
             destruct (Groovy.contains e "CRITICAL vulnerabilities") eqn:?
         end ]);
  try (stage dockerPush_run; split_on DockerhubCredentials;
       [ split_on DockerPush | ]);
  try (stage kubernetesDeployment_run);
  repeat rewrite runStages_skip;
  try (stage chaosTest_run);
  cbn [runStages].

Lemma staged_sent : sent (staged params tools) = [].
Proof. stages_of_pipeline; reflexivity. Qed.

Lemma staged_result :
  result (staged params tools) =
  if throws tools NpmInstall
     || scanning params && throws tools NpmAudit
     || throws tools NpmTest
     || throws tools DockerBuild
     || scanning params &&
        match outcome tools TrivyReport with
        | Returned _ => negb (exitCode tools TrivyCritical =? 0)%Z
        | Threw e => Groovy.contains e "CRITICAL vulnerabilities"
        end
     || throws tools DockerhubCredentials
     || throws tools DockerPush
  then Some FAILURE
  else if existsb (throws tools) deploySteps
          || RUN_CHAOS_TEST params && existsb (throws tools) chaosSteps
  then Some UNSTABLE
  else None.
Proof.
  unfold throws at 1 2 3 4 5 6. unfold scanning.
  stages_of_pipeline.
  all: cbn [result worsen orb andb negb]; try reflexivity.
  all: destruct (existsb (throws tools) deploySteps);
    destruct (existsb (throws tools) chaosSteps); reflexivity.
Qed.

Lemma excerpt_run (log : string) :
  exists details,
    (forall b, excerpt log b = (Normal details, b)) /\
    (String.length log <= 1000 -> details = log) /\
    (1000 < String.length log ->
     exists dropped kept,
       log = dropped ++ kept /\ String.length kept = 1000 /\
       details = "..." ++ kept).
Proof.
  unfold excerpt.
  destruct (Nat.ltb_spec 1000 (String.length log)) as [Hlong | Hshort].
  - destruct (substring_splits (String.length log - 1000) log)
      as (dropped & kept & Hsub & Hlog & Hlen); [lia|].
    assert (Hkept : String.length kept = 1000).
    { apply (f_equal String.length) in Hlog.
      rewrite string_length_app in Hlog. lia. }
    exists ("..." ++ kept). unfold bind, substring. rewrite Hsub.
    repeat split.
    + lia.
    + intros _. exists dropped, kept. repeat split; assumption.
  - exists log. repeat split; try lia.
Qed.

Lemma excerpt_bound (log details : string) :
  (String.length log <= 1000 -> details = log) ->
  (1000 < String.length log ->
   exists dropped kept,
     log = dropped ++ kept /\ String.length kept = 1000 /\
     details = "..." ++ kept) ->
  String.length details <= 1003.
Proof.
  intros Hshort Hlong.
  destruct (Nat.le_gt_cases (String.length log) 1000) as [H | H].
  - rewrite (Hshort H). lia.
  - destruct (Hlong H) as (dropped & kept & _ & Hkept & ->).
    rewrite string_length_app, Hkept. simpl. lia.
Qed.

Lemma postAlways_run (flags : list (string * Value)) (b : Build) :
  exists commit details,
    postAlways tools jenkins flags b =
    (completionOf ApiTokenCredentials,
     mkBuild (result b) (entered b)
       (ran b ++
        GitLog ::
        (if unsuccessful (currentResult b) then [BuildLog] else []) ++
        ApiTokenCredentials ::
        if throws tools ApiTokenCredentials then [] else [HttpRequest])%list
       (console b ++
        if throws tools ApiTokenCredentials then []
        else
          [match outcome tools HttpRequest with
           | Returned _ => "Build status sent successfully to backend."
           | Threw e =>
               ("Failed to send build status to backend: " ++ e)%string
           end])%list
       (sent b ++
        if throws tools ApiTokenCredentials || throws tools HttpRequest
        then []
        else
          [mkNotification
             (Groovy.elvis (BACKEND_URL jenkins) "http://localhost:3001"
              ++ "/api/log-final-status")
             ([ ("status", Str (Result_toString (currentResult b)));
                ("jobName", ofEnv (JOB_NAME jenkins));
                ("buildNumber", ofEnv (BUILD_NUMBER jenkins));
                ("consoleLink",
                 Str (Groovy.interpolate (BUILD_URL jenkins) ++ "console"));
                ("commitMessage", Str commit);
                ("duration", Str (durationString jenkins));
                ("errorDetails", Str details);
                ("timestamp", Str (timestamp jenkins));
                ("kubernetesDeployed", Flag (notFailed (currentResult b))) ]
              ++ flags)%list
             ("Bearer " ++ JENKINS_API_TOKEN jenkins)])%list) /\
    commit =
      match outcome tools GitLog with
      | Returned out => Groovy.trim out
      | Threw _ => "Could not retrieve commit message"
      end /\
    (unsuccessful (currentResult b) = false -> details = EmptyString) /\
    (unsuccessful (currentResult b) = true ->
     match outcome tools BuildLog with
     | Returned log => forall b0, excerpt log b0 = (Normal details, b0)
     | Threw e => details = "Could not retrieve error details: " ++ e
     end).
Proof.
  destruct b as [r e rn con snt].
  exists (match outcome tools GitLog with
          | Returned out => Groovy.trim out
          | Threw _ => "Could not retrieve commit message"
          end).
  unfold postAlways. script_steps. cbv [currentResult result].
  split_on GitLog;
    (destruct r as [[]|]; cbv [unsuccessful notFailed Result_toString];
     [ (* SUCCESS *) exists EmptyString
     | (* UNSTABLE *)
       split_on BuildLog;
       [ match goal with
         | |- context [excerpt ?log ?b] =>
             let H := fresh "Hexcerpt" in
             destruct (excerpt_run log) as (details & H & _);
             exists details; rewrite (H b)
         end
       | eexists ]
     | (* FAILURE *)
       split_on BuildLog;
       [ match goal with
         | |- context [excerpt ?log ?b] =>
             let H := fresh "Hexcerpt" in
             destruct (excerpt_run log) as (details & H & _);
             exists details; rewrite (H b)
         end
       | eexists ]
     | (* not set *) exists EmptyString ]);
    split_on ApiTokenCredentials; try split_on HttpRequest;
    cbn [orb]; repeat rewrite <- app_assoc; cbn [app];
    rewrite ?app_nil_r;
    (split; [reflexivity|]);
    (split; [reflexivity|]);
    (split; [intros; try reflexivity; discriminate|]);
    intros; try discriminate; try reflexivity;
    match goal with
    | H : forall b, excerpt _ b = _ |- _ => apply H
    end.
Qed.

(** ** The result of the build *)

(** A stage of the current pipeline ends with an exception. *)
Local Abbreviation stopped :=
  (throws tools NpmInstall
   || scanning params && throws tools NpmAudit
   || throws tools NpmTest
   || throws tools DockerBuild
   || scanning params &&
      match outcome tools TrivyReport with
      | Returned _ => negb (exitCode tools TrivyCritical =? 0)%Z
      | Threw e => Groovy.contains e "CRITICAL vulnerabilities"
      end
   || throws tools DockerhubCredentials
   || throws tools DockerPush).

(** The container scan ends with an exception. *)
Local Abbreviation scanAborts :=
  ((exists out,
      outcome tools TrivyReport = Returned out /\
      exitCode tools TrivyCritical <> 0%Z) \/
   (exists e,
      outcome tools TrivyReport = Threw e /\
      Groovy.contains e "CRITICAL vulnerabilities" = true)).

Lemma scanAborts_iff :
  match outcome tools TrivyReport with
  | Returned _ => negb (exitCode tools TrivyCritical =? 0)%Z
  | Threw e => Groovy.contains e "CRITICAL vulnerabilities"
  end = true <-> scanAborts.
Proof.
  destruct (outcome tools TrivyReport) as [out | e].
  - rewrite negb_true_iff, Z.eqb_neq. split.
    + intros H. left. exists out. split; [reflexivity | exact H].
    + intros [(out' & _ & H) | (e & He & _)]; [exact H | discriminate].
  - split.
    + intros H. right. exists e. split; [reflexivity | exact H].
    + intros [(out & Hout & _) | (e' & He & H)]; [discriminate|].
      injection He as <-. exact H.
Qed.

Lemma stopped_iff :
  stopped = true <->
  throws tools NpmInstall = true \/
  scanning params = true /\ throws tools NpmAudit = true \/
  throws tools NpmTest = true \/
  throws tools DockerBuild = true \/
  scanning params = true /\ scanAborts \/
  throws tools DockerhubCredentials = true \/
  throws tools DockerPush = true.
Proof.
  rewrite !orb_true_iff, !andb_true_iff, scanAborts_iff. tauto.
Qed.

(** The result the stages of the current pipeline leave.  It is [FAILURE]
    exactly when one of these throws: npm install, npm audit (when the scans
    are not skipped), npm test, docker build, the binding of the Docker Hub
    credentials, docker push; or when, the scans not being skipped, the
    CRITICAL scan exits with a code other than 0 after the Trivy report
    returned, or the Trivy report throws with a message that contains
    [CRITICAL vulnerabilities].  Otherwise it is [UNSTABLE] exactly when a
    step of the deployment throws or, the chaos test being asked for, a
    step of the chaos test throws.  Neither ESLint nor the findings of
    npm audit change the result. *)
Theorem build_result_of_the_pipeline :
  (currentResult (staged params tools) = FAILURE <->
   throws tools NpmInstall = true \/
   scanning params = true /\ throws tools NpmAudit = true \/
   throws tools NpmTest = true \/
   throws tools DockerBuild = true \/
   scanning params = true /\
   ((exists out,
       outcome tools TrivyReport = Returned out /\
       exitCode tools TrivyCritical <> 0%Z) \/
    (exists e,
       outcome tools TrivyReport = Threw e /\
       Groovy.contains e "CRITICAL vulnerabilities" = true)) \/
   throws tools DockerhubCredentials = true \/
   throws tools DockerPush = true) /\
  (currentResult (staged params tools) = UNSTABLE <->
   currentResult (staged params tools) <> FAILURE /\
   (existsb (throws tools) deploySteps = true \/
    RUN_CHAOS_TEST params = true /\
    existsb (throws tools) chaosSteps = true)).
Proof.
  rewrite <- stopped_iff. unfold currentResult. rewrite staged_result.
  destruct stopped.
  - split; [tauto|]. split; [discriminate | intros [H _]; now elim H].
  - rewrite <- andb_true_iff, <- orb_true_iff.
    destruct (existsb (throws tools) deploySteps
              || RUN_CHAOS_TEST params && existsb (throws tools) chaosSteps).
    + split; split; try discriminate; try tauto.
      intros _. split; [discriminate | reflexivity].
    + split; split; try discriminate; try tauto.
      intros [_ H]. discriminate.
Qed.

(** ** The post section *)

(** The notification sent for a build of status [status]. *)
Local Abbreviation summary status commit details flags :=
  (mkNotification
     (Groovy.elvis (BACKEND_URL jenkins) "http://localhost:3001"
      ++ "/api/log-final-status")
     ([ ("status", Str (Result_toString status));
        ("jobName", ofEnv (JOB_NAME jenkins));
        ("buildNumber", ofEnv (BUILD_NUMBER jenkins));
        ("consoleLink",
         Str (Groovy.interpolate (BUILD_URL jenkins) ++ "console"));
        ("commitMessage", Str commit);
        ("duration", Str (durationString jenkins));
        ("errorDetails", Str details);
        ("timestamp", Str (timestamp jenkins));
        ("kubernetesDeployed", Flag (notFailed status)) ]
      ++ flags)%list
     ("Bearer " ++ JENKINS_API_TOKEN jenkins)).

(** The commit message reported. *)
Local Abbreviation commitOf commit :=
  (commit =
   match outcome tools GitLog with
   | Returned out => Groovy.trim out
   | Threw _ => "Could not retrieve commit message"
   end).

(** The error details reported. *)
Local Abbreviation detailsOf status details :=
  ((unsuccessful status = false -> details = EmptyString) /\
   (unsuccessful status = true ->
    match outcome tools BuildLog with
    | Returned log => forall b0, excerpt log b0 = (Normal details, b0)
    | Threw e => details = "Could not retrieve error details: " ++ e
    end)).

(** The steps the post section runs. *)
Local Abbreviation postSteps status :=
  (GitLog ::
   (if unsuccessful status then [BuildLog] else []) ++
   ApiTokenCredentials ::
   if throws tools ApiTokenCredentials then [] else [HttpRequest])%list.

Lemma worsen_FAILURE (r : option Result) : worsen FAILURE r = Some FAILURE.
Proof. destruct r as [[]|]; reflexivity. Qed.

Lemma post_closed (flags : list (string * Value))
  (closing : Result -> string) (b : Build) :
  exists commit details lines,
    post (postAlways tools jenkins flags) closing b =
    mkBuild
      (if throws tools ApiTokenCredentials then Some FAILURE else result b)
      (entered b)
      (ran b ++ postSteps (currentResult b))%list
      (console b ++ lines)%list
      (sent b ++
       if throws tools ApiTokenCredentials || throws tools HttpRequest
       then []
       else [summary (currentResult b) commit details flags])%list /\
    commitOf commit /\ detailsOf (currentResult b) details.
Proof.
  destruct (postAlways_run flags b)
    as (commit & details & Hrun & Hcommit & Hdetails).
  exists commit, details. unfold post. rewrite Hrun. unfold throws.
  destruct (outcome tools ApiTokenCredentials).
  - eexists. split; [|split; assumption].
    cbn [echo snd failed result entered ran console sent].
    rewrite <- app_assoc. reflexivity.
  - eexists. split; [|split; assumption].
    cbn [echo snd failed result entered ran console sent].
    rewrite worsen_FAILURE, <- app_assoc. reflexivity.
Qed.

Lemma attempted_incl (sequence : list Step) (s : Step) :
  In s (attempted tools sequence) -> In s sequence.
Proof.
  induction sequence as [|s' rest IH]; cbn [attempted]; [tauto|].
  intros [H | H]; [left; exact H|].
  destruct (throws tools s'); [destruct H | right; exact (IH H)].
Qed.

Lemma not_attempted (sequence : list Step) (s : Step) :
  ~ In s sequence -> ~ In s (attempted tools sequence).
Proof. intros H Hs. exact (H (attempted_incl _ _ Hs)). Qed.

(** Rewrites a case with the outcomes that led to it. *)
Ltac known_outcomes :=
  cbn [ran entered result sent app attempted];
  unfold throws;
  repeat match goal with
    | H : outcome tools ?s = _ |- context [outcome tools ?s] => rewrite H
    end;
  repeat match goal with
    | H : (_ =? _)%Z = true |- _ => apply Z.eqb_eq in H
    | H : (_ =? _)%Z = false |- _ => apply Z.eqb_neq in H
    end;
  cbn [app In];
  rewrite ?in_app_iff; cbn [In].

(** Uses what is assumed of every output or message of a step on the one
    of the case. *)
Ltac use_outcomes :=
  repeat match goal with
    | H : forall x : string, _ = _ -> _ |- _ =>
        first [ specialize (H _ eq_refl) | clear H ]
    end.

(** Settles a case by propositional reasoning and equations between
    constructors. *)
Ltac settle :=
  intuition (intros; try discriminate; try congruence;
             try (use_outcomes; congruence)).

(** The step [s], which is not of [sequence], is not among those of it
    that ran. *)
Ltac outside s sequence :=
  let H := fresh "Houtside" in
  assert (H : ~ In s (attempted tools sequence))
    by (apply not_attempted; cbv [sequence]; cbn [In];
        intuition discriminate).

Lemma run_closed :
  exists commit details lines,
    run params tools jenkins =
    mkBuild
      (if throws tools ApiTokenCredentials then Some FAILURE
       else result (staged params tools))
      (entered (staged params tools))
      (ran (staged params tools) ++
       postSteps (currentResult (staged params tools)))%list
      lines
      (if throws tools ApiTokenCredentials || throws tools HttpRequest
       then []
       else
         [summary (currentResult (staged params tools)) commit details
            (securityFlags params)]) /\
    commitOf commit /\
    detailsOf (currentResult (staged params tools)) details.
Proof.
  destruct (post_closed (securityFlags params) messages (staged params tools))
    as (commit & details & lines & Hrun & Hfacts).
  exists commit, details. eexists. split; [|exact Hfacts].
  unfold run. rewrite Hrun, staged_sent. reflexivity.
Qed.

Lemma run_entered :
  entered (run params tools jenkins) = entered (staged params tools).
Proof.
  destruct run_closed as (commit & details & lines & -> & _). reflexivity.
Qed.

Lemma run_ran (s : Step) :
  In s (ran (run params tools jenkins)) <->
  In s (ran (staged params tools)) \/
  In s (postSteps (currentResult (staged params tools))).
Proof.
  destruct run_closed as (commit & details & lines & -> & _).
  cbn [ran]. apply in_app_iff.
Qed.

Lemma postSteps_are (status : Result) (s : Step) :
  In s (postSteps status) ->
  In s [GitLog; BuildLog; ApiTokenCredentials; HttpRequest].
Proof.
  cbn [In]. rewrite in_app_iff.
  destruct (unsuccessful status), (throws tools ApiTokenCredentials);
    cbn [In]; tauto.
Qed.

Lemma run_sent (n : Notification) :
  In n (sent (run params tools jenkins)) ->
  exists commit details,
    n = summary (currentResult (staged params tools)) commit details
          (securityFlags params) /\
    commitOf commit /\
    detailsOf (currentResult (staged params tools)) details.
Proof.
  destruct run_closed as (commit & details & lines & -> & Hfacts).
  cbn [sent].
  destruct (throws tools ApiTokenCredentials || throws tools HttpRequest);
    [intros []|].
  intros [<- | []]. exists commit, details.
  split; [reflexivity | exact Hfacts].
Qed.

(** The error details kept of a build log never fail to be computed and
    never change the build: a log of at most 1000 characters is kept as it
    is, a longer one is cut to three dots followed by its last 1000
    characters, so the details hold at most 1003 characters and
    [substring] is never called out of range. *)
Theorem excerpt_keeps_the_last_thousand_characters (log : string) :
  exists details,
    (forall b, excerpt log b = (Normal details, b)) /\
    String.length details <= 1003 /\
    (String.length log <= 1000 -> details = log) /\
    (1000 < String.length log ->
     exists dropped kept,
       log = dropped ++ kept /\ String.length kept = 1000 /\
       details = "..." ++ kept).
Proof.
  destruct (excerpt_run log) as (details & Hrun & Hshort & Hlong).
  exists details. split; [exact Hrun|].
  split; [exact (excerpt_bound log details Hshort Hlong)|].
  split; assumption.
Qed.

(** The [always] script of the post section, run from any build and in
    either pipeline, leaves the result of the build and the stages entered
    as they are.  It runs [git log], reads the build log when the build is
    not successful, binds the API token and, when the binding succeeded,
    makes one HTTP request.  It ends normally exactly when the binding of
    the API token succeeds, whatever [git log], the reading of the build
    log and the HTTP request do.  A notification is sent exactly when the
    binding succeeds and the request returns: exactly one, to the backend
    URL of the environment (or [http://localhost:3001] when that is unset
    or empty) followed by [/api/log-final-status], with the bearer token
    and the nine keys of the map followed by the keys of the pipeline's own
    flags.  When the request throws nothing is sent and the script echoes
    that it failed to send, with the message; when the binding fails no
    request is made and nothing is echoed. *)
Theorem post_script_absorbs_its_failures
  (flags : list (string * Value)) (b : Build) :
  result (snd (postAlways tools jenkins flags b)) = result b /\
  entered (snd (postAlways tools jenkins flags b)) = entered b /\
  ran (snd (postAlways tools jenkins flags b)) =
    (ran b ++
     GitLog ::
     (if unsuccessful (currentResult b) then [BuildLog] else []) ++
     ApiTokenCredentials ::
     if throws tools ApiTokenCredentials then [] else [HttpRequest])%list /\
  (fst (postAlways tools jenkins flags b) = Normal tt <->
   throws tools ApiTokenCredentials = false) /\
  (throws tools ApiTokenCredentials = true ->
   sent (snd (postAlways tools jenkins flags b)) = sent b /\
   console (snd (postAlways tools jenkins flags b)) = console b) /\
  (forall e,
     throws tools ApiTokenCredentials = false ->
     outcome tools HttpRequest = Threw e ->
     sent (snd (postAlways tools jenkins flags b)) = sent b /\
     console (snd (postAlways tools jenkins flags b)) =
       (console b ++
        [("Failed to send build status to backend: " ++ e)%string])%list) /\
  (throws tools ApiTokenCredentials = false ->
   throws tools HttpRequest = false ->
   console (snd (postAlways tools jenkins flags b)) =
     (console b ++ ["Build status sent successfully to backend."])%list /\
   exists n,
     sent (snd (postAlways tools jenkins flags b)) = (sent b ++ [n])%list /\
     url n =
       Groovy.elvis (BACKEND_URL jenkins) "http://localhost:3001"
       ++ "/api/log-final-status" /\
     authorization n = "Bearer " ++ JENKINS_API_TOKEN jenkins /\
     map fst (requestBody n) =
       ([ "status"; "jobName"; "buildNumber"; "consoleLink";
          "commitMessage"; "duration"; "errorDetails"; "timestamp";
          "kubernetesDeployed" ] ++ map fst flags)%list).
Proof.
  destruct (postAlways_run flags b)
    as (commit & details & -> & _).
  cbn [fst snd result entered ran sent console]. unfold throws.
  destruct (outcome tools ApiTokenCredentials);
    destruct (outcome tools HttpRequest); cbn [orb];
    rewrite ?app_nil_r.
  all: repeat match goal with
       | |- _ /\ _ => split
       | |- _ <-> _ => split
       end; try reflexivity; try discriminate; intros.
  all: try discriminate; try (split; reflexivity).
  all: try match goal with
       | H : Threw _ = Threw _ |- _ => injection H as <-; split; reflexivity
       end.
  all: try (split; [reflexivity|]; eexists; split; [reflexivity|];
            cbn [url authorization requestBody]; repeat split).
Qed.

(** Every notification sent by a run of the current pipeline holds the
    eleven keys of the map in the order of the source; its status is the
    result the stages left ([SUCCESS] when none was set);
    [kubernetesDeployed] is true unless that result is [FAILURE];
    [securityScanPassed] is the negation of the parameter
    [SKIP_SECURITY_SCAN] and [chaosTestRun] is the parameter
    [RUN_CHAOS_TEST], whatever the stages did; the error details are empty
    for a successful build and hold at most 1003 characters when the build
    log could be read; the commit message is the trimmed output of
    [git log], or the fixed replacement text when it failed. *)
Theorem summary_reports_the_build (n : Notification) :
  In n (sent (run params tools jenkins)) ->
  map fst (requestBody n) =
    [ "status"; "jobName"; "buildNumber"; "consoleLink"; "commitMessage";
      "duration"; "errorDetails"; "timestamp"; "kubernetesDeployed";
      "securityScanPassed"; "chaosTestRun" ] /\
  field "status" (requestBody n) =
    Some (Str (Result_toString (currentResult (staged params tools)))) /\
  field "kubernetesDeployed" (requestBody n) =
    Some (Flag match currentResult (staged params tools) with
               | FAILURE => false
               | SUCCESS | UNSTABLE => true
               end) /\
  field "securityScanPassed" (requestBody n) =
    Some (Flag (negb (SKIP_SECURITY_SCAN params))) /\
  field "chaosTestRun" (requestBody n) =
    Some (Flag (RUN_CHAOS_TEST params)) /\
  (currentResult (staged params tools) = SUCCESS ->
   field "errorDetails" (requestBody n) = Some (Str EmptyString)) /\
  (forall log,
     currentResult (staged params tools) <> SUCCESS ->
     outcome tools BuildLog = Returned log ->
     exists details,
       field "errorDetails" (requestBody n) = Some (Str details) /\
       String.length details <= 1003) /\
  (forall out,
     outcome tools GitLog = Returned out ->
     field "commitMessage" (requestBody n) = Some (Str (Groovy.trim out))) /\
  (throws tools GitLog = true ->
   field "commitMessage" (requestBody n) =
     Some (Str "Could not retrieve commit message")).
Proof.
  intros Hn.
  destruct (run_sent n Hn) as (commit & details & -> & Hcommit & Hok & Hbad).
  cbn [requestBody]. unfold securityFlags, throws.
  repeat split.
  - intros Hsuccess. rewrite Hsuccess in Hok.
    rewrite (Hok eq_refl). reflexivity.
  - intros log Hstatus Hlog. exists details. split; [reflexivity|].
    assert (Hun : unsuccessful (currentResult (staged params tools)) = true)
      by (destruct (currentResult (staged params tools));
          [now elim Hstatus | reflexivity | reflexivity]).
    specialize (Hbad Hun). rewrite Hlog in Hbad.
    destruct (excerpt_run log) as (details' & Hexcerpt & Hshort & Hlong).
    specialize (Hbad start). rewrite Hexcerpt in Hbad.
    injection Hbad as <-. exact (excerpt_bound log details' Hshort Hlong).
  - intros out Hout. rewrite Hout in Hcommit. rewrite Hcommit. reflexivity.
  - intros Hgit. destruct (outcome tools GitLog); [discriminate|].
    rewrite Hcommit. reflexivity.
Qed.

Lemma staged_push_gates :
  In DockerPush (ran (staged params tools)) <->
  throws tools NpmInstall = false /\
  throws tools NpmTest = false /\
  throws tools DockerBuild = false /\
  throws tools DockerhubCredentials = false /\
  (scanning params = true ->
   throws tools NpmAudit = false /\
   (forall out,
      outcome tools TrivyReport = Returned out ->
      exitCode tools TrivyCritical = 0%Z) /\
   (forall e,
      outcome tools TrivyReport = Threw e ->
      Groovy.contains e "CRITICAL vulnerabilities" = false)).
Proof.
  outside DockerPush deploySteps. outside DockerPush chaosSteps.
  unfold throws, scanning.
  stages_of_pipeline.
  all: known_outcomes.
  all: settle.
Qed.

Lemma post_step_is_no_stage_step (status : Result) (s : Step) :
  In s (postSteps status) ->
  ~ In s
      (NpmInstall :: NpmTest :: DockerBuild :: DockerhubCredentials ::
       DockerPush :: securitySteps ++ deploySteps ++ chaosSteps).
Proof.
  intros Hs Hstage. apply postSteps_are in Hs.
  cbv [securitySteps deploySteps chaosSteps app] in Hstage.
  cbn [In] in Hs, Hstage. intuition congruence.
Qed.

Lemma staged_deployment_follows_push (s : Step) :
  In s deploySteps ->
  In s (ran (staged params tools)) ->
  In DockerPush (ran (staged params tools)) /\
  throws tools DockerPush = false.
Proof.
  intros Hs.
  assert (Hchaos : ~ In s (attempted tools chaosSteps)).
  { intros H. apply attempted_incl in H. revert Hs H.
    cbv [deploySteps chaosSteps]. cbn [In]. intuition congruence. }
  revert Hs. cbv [deploySteps]. cbn [In]. unfold throws at 1.
  stages_of_pipeline; known_outcomes; settle.
Qed.

Lemma staged_deployment_after_push :
  In "Kubernetes Deployment" (entered (staged params tools)) <->
  In DockerPush (ran (staged params tools)) /\
  throws tools DockerPush = false.
Proof.
  outside DockerPush deploySteps. outside DockerPush chaosSteps.
  unfold throws, scanning.
  stages_of_pipeline.
  all: known_outcomes.
  all: settle.
Qed.

(** In a run of the current pipeline the script of the push stage (docker
    login, docker push) is run exactly when npm install, npm test, docker
    build and the binding of the Docker Hub credentials succeed and, unless
    the scans are skipped, npm audit succeeds and the container scan does
    not abort.  That the script is run does not say that it succeeds: the
    deployment stage is entered exactly when the script was run and
    returned, and a step of the deployment runs only then.  Whether the
    registry then holds the image is the affair of the script, whose
    outcome the run takes as it comes. *)
Theorem push_and_deployment_gates :
  (In DockerPush (ran (run params tools jenkins)) <->
   throws tools NpmInstall = false /\
   throws tools NpmTest = false /\
   throws tools DockerBuild = false /\
   throws tools DockerhubCredentials = false /\
   (scanning params = true ->
    throws tools NpmAudit = false /\
    (forall out,
       outcome tools TrivyReport = Returned out ->
       exitCode tools TrivyCritical = 0%Z) /\
    (forall e,
       outcome tools TrivyReport = Threw e ->
       Groovy.contains e "CRITICAL vulnerabilities" = false))) /\
  (In "Kubernetes Deployment" (entered (run params tools jenkins)) <->
   In DockerPush (ran (run params tools jenkins)) /\
   throws tools DockerPush = false) /\
  (forall s,
     In s deploySteps ->
     In s (ran (run params tools jenkins)) ->
     In DockerPush (ran (run params tools jenkins)) /\
     throws tools DockerPush = false).
Proof.
  assert (Hstaged :
    In DockerPush (ran (run params tools jenkins)) <->
    In DockerPush (ran (staged params tools))).
  { rewrite run_ran. split; [|tauto].
    intros [H | H]; [exact H|].
    apply post_step_is_no_stage_step in H. elim H. cbn [In]. tauto. }
  split; [|split].
  - rewrite Hstaged. exact staged_push_gates.
  - rewrite Hstaged, run_entered. exact staged_deployment_after_push.
  - intros s Hs. rewrite !run_ran. intros [H | H].
    + destruct (staged_deployment_follows_push s Hs H) as [Hpush Hok].
      split; [left; exact Hpush | exact Hok].
    + apply post_step_is_no_stage_step in H. elim H.
      do 5 right. rewrite !in_app_iff. tauto.
Qed.

Lemma staged_stops_at_critical_finding (out : string) (s : Step) :
  scanning params = true ->
  outcome tools TrivyReport = Returned out ->
  exitCode tools TrivyCritical <> 0%Z ->
  In s (ran (staged params tools)) ->
  ~ In s (DockerhubCredentials :: DockerPush :: deploySteps ++ chaosSteps).
Proof.
  cbv [deploySteps chaosSteps app]. cbn [In]. unfold scanning.
  stages_of_pipeline; known_outcomes; settle.
Qed.

(** When the scans are not skipped, the Trivy report returns and the
    CRITICAL scan exits with a code other than 0, the stages leave the
    result [FAILURE], and no step of the push, of the deployment or of the
    chaos test runs; the notification, if one is sent, reports the status
    [FAILURE] and still reports [securityScanPassed] as true. *)
Theorem critical_finding_stops_the_pipeline (out : string) :
  scanning params = true ->
  outcome tools TrivyReport = Returned out ->
  exitCode tools TrivyCritical <> 0%Z ->
  currentResult (staged params tools) = FAILURE /\
  (forall s,
     In s (ran (run params tools jenkins)) ->
     ~ In s (DockerhubCredentials :: DockerPush :: deploySteps ++ chaosSteps)) /\
  (forall n,
     In n (sent (run params tools jenkins)) ->
     field "status" (requestBody n) = Some (Str "FAILURE") /\
     field "securityScanPassed" (requestBody n) = Some (Flag true)).
Proof.
  intros Hscan Hreport Hcritical.
  assert (Hfailed : currentResult (staged params tools) = FAILURE).
  { unfold currentResult. rewrite staged_result.
    assert (Hstopped : stopped = true).
    { apply stopped_iff. do 4 right. left. split; [exact Hscan|].
      left. exists out. split; assumption. }
    rewrite Hstopped. reflexivity. }
  split; [exact Hfailed|]. split.
  - intros s. rewrite run_ran. intros [H | H].
    + exact (staged_stops_at_critical_finding out s Hscan Hreport Hcritical H).
    + intros Hstage. apply post_step_is_no_stage_step in H. apply H.
      do 3 right. cbn [In] in Hstage. rewrite in_app_iff in Hstage.
      destruct Hstage as [<- | [<- | Hstage]];
        [left; reflexivity | right; left; reflexivity |].
      do 2 right. rewrite !in_app_iff. tauto.
  - intros n Hn.
    destruct (run_sent n Hn) as (commit & details & -> & _).
    rewrite Hfailed. unfold scanning in Hscan.
    cbn [requestBody]. unfold securityFlags. rewrite Hscan.
    split; reflexivity.
Qed.

Lemma staged_scanner_breakdown (e : string) :
  scanning params = true ->
  outcome tools TrivyReport = Threw e ->
  Groovy.contains e "CRITICAL vulnerabilities" = false ->
  ~ In TrivyCritical (ran (staged params tools)) /\
  (In "Security: Container Scan" (entered (staged params tools)) ->
   In "Docker Push" (entered (staged params tools))).
Proof.
  outside TrivyCritical deploySteps. outside TrivyCritical chaosSteps.
  unfold scanning.
  stages_of_pipeline; known_outcomes; settle.
Qed.

(** When the scans are not skipped and the Trivy report itself throws,
    with a message that does not contain [CRITICAL vulnerabilities], the
    CRITICAL scan is never run, the pipeline goes on to the push stage
    whenever it reached the scan stage, and every notification reports
    [securityScanPassed] as true. *)
Theorem scanner_breakdown_is_not_a_finding (e : string) :
  scanning params = true ->
  outcome tools TrivyReport = Threw e ->
  Groovy.contains e "CRITICAL vulnerabilities" = false ->
  ~ In TrivyCritical (ran (run params tools jenkins)) /\
  (In "Security: Container Scan" (entered (run params tools jenkins)) ->
   In "Docker Push" (entered (run params tools jenkins))) /\
  (forall n,
     In n (sent (run params tools jenkins)) ->
     field "securityScanPassed" (requestBody n) = Some (Flag true)).
Proof.
  intros Hscan Hreport Hmessage.
  destruct (staged_scanner_breakdown e Hscan Hreport Hmessage)
    as [Hcritical Hpush].
  rewrite run_entered, run_ran. repeat split.
  - intros [H | H]; [exact (Hcritical H)|].
    apply post_step_is_no_stage_step in H. apply H.
    do 5 right. cbv [securitySteps]. cbn [app In]. tauto.
  - exact Hpush.
  - intros n Hn.
    destruct (run_sent n Hn) as (commit & details & -> & _).
    unfold scanning in Hscan.
    cbn [requestBody]. unfold securityFlags. rewrite Hscan. reflexivity.
Qed.

Lemma staged_security_steps (s : Step) :
  In s securitySteps ->
  In s (ran (staged params tools)) ->
  SKIP_SECURITY_SCAN params = false.
Proof.
  intros Hs.
  assert (Hdeploy : ~ In s (attempted tools deploySteps)).
  { intros H. apply attempted_incl in H. revert Hs H.
    cbv [securitySteps deploySteps]. cbn [In]. intuition congruence. }
  assert (Hchaos : ~ In s (attempted tools chaosSteps)).
  { intros H. apply attempted_incl in H. revert Hs H.
    cbv [securitySteps chaosSteps]. cbn [In]. intuition congruence. }
  revert Hs. cbv [securitySteps]. cbn [In].
  stages_of_pipeline; known_outcomes; settle.
Qed.

Lemma staged_chaos_steps (s : Step) :
  In s chaosSteps ->
  In s (ran (staged params tools)) ->
  RUN_CHAOS_TEST params = true.
Proof.
  intros Hs.
  assert (Hdeploy : ~ In s (attempted tools deploySteps)).
  { intros H. apply attempted_incl in H. revert Hs H.
    cbv [chaosSteps deploySteps]. cbn [In]. intuition congruence. }
  revert Hs. cbv [chaosSteps]. cbn [In].
  stages_of_pipeline; known_outcomes; settle.
Qed.

Lemma staged_stages_entered :
  (In "Security: SAST" (entered (staged params tools)) <->
   SKIP_SECURITY_SCAN params = false /\ throws tools NpmInstall = false) /\
  (In "Chaos Test" (entered (staged params tools)) <->
   RUN_CHAOS_TEST params = true /\ stopped = false).
Proof.
  unfold throws, scanning.
  stages_of_pipeline; known_outcomes; cbn [negb andb orb]; settle.
Qed.

Lemma staged_not_failed :
  currentResult (staged params tools) <> FAILURE <-> stopped = false.
Proof.
  unfold currentResult. rewrite staged_result. destruct stopped.
  - split; [intros H; now elim H | discriminate].
  - split; [reflexivity | intros _].
    destruct (existsb (throws tools) deploySteps
              || RUN_CHAOS_TEST params && existsb (throws tools) chaosSteps);
      discriminate.
Qed.

(** The [when] conditions of the current pipeline: a step of the two
    security stages runs only when [SKIP_SECURITY_SCAN] is false, a step of
    the chaos test only when [RUN_CHAOS_TEST] is true; the SAST stage is
    entered exactly when the scans are not skipped and npm install
    succeeded, the chaos test exactly when it is asked for and the stages
    before it did not fail the build. *)
Theorem skipped_stages_run_nothing :
  (forall s,
     In s securitySteps ->
     In s (ran (run params tools jenkins)) ->
     SKIP_SECURITY_SCAN params = false) /\
  (forall s,
     In s chaosSteps ->
     In s (ran (run params tools jenkins)) ->
     RUN_CHAOS_TEST params = true) /\
  (In "Security: SAST" (entered (run params tools jenkins)) <->
   SKIP_SECURITY_SCAN params = false /\ throws tools NpmInstall = false) /\
  (In "Chaos Test" (entered (run params tools jenkins)) <->
   RUN_CHAOS_TEST params = true /\
   currentResult (staged params tools) <> FAILURE).
Proof.
  rewrite run_entered, staged_not_failed.
  split; [|split; [|exact staged_stages_entered]].
  - intros s Hs. rewrite run_ran. intros [H | H].
    + exact (staged_security_steps s Hs H).
    + apply post_step_is_no_stage_step in H. elim H.
      do 5 right. rewrite in_app_iff. left. exact Hs.
  - intros s Hs. rewrite run_ran. intros [H | H].
    + exact (staged_chaos_steps s Hs H).
    + apply post_step_is_no_stage_step in H. elim H.
      do 5 right. rewrite !in_app_iff. right. right. exact Hs.
Qed.

Lemma staged_deployment_reached (s : Step) :
  In s deploySteps ->
  In s (ran (staged params tools)) ->
  stopped = false.
Proof.
  intros Hs.
  assert (Hchaos : ~ In s (attempted tools chaosSteps)).
  { intros H. apply attempted_incl in H. revert Hs H.
    cbv [deploySteps chaosSteps]. cbn [In]. intuition congruence. }
  revert Hs. cbv [deploySteps]. cbn [In]. unfold throws, scanning.
  stages_of_pipeline; known_outcomes; cbn [negb andb orb]; settle.
Qed.

(** When a step of the deployment of the current pipeline ran and threw,
    the stages leave the result [UNSTABLE], and every notification sent
    reports the status [UNSTABLE] with [kubernetesDeployed] true. *)
Theorem failed_deployment_is_reported_as_deployed
  (s : Step) (n : Notification) :
  In s deploySteps ->
  In s (ran (run params tools jenkins)) ->
  throws tools s = true ->
  In n (sent (run params tools jenkins)) ->
  currentResult (staged params tools) = UNSTABLE /\
  field "status" (requestBody n) = Some (Str "UNSTABLE") /\
  field "kubernetesDeployed" (requestBody n) = Some (Flag true).
Proof.
  intros Hs Hran Hthrows Hn.
  assert (Hunstable : currentResult (staged params tools) = UNSTABLE).
  { rewrite run_ran in Hran. destruct Hran as [Hran | Hpost].
    - unfold currentResult. rewrite staged_result.
      rewrite (staged_deployment_reached s Hs Hran).
      assert (Hsome : existsb (throws tools) deploySteps = true)
        by (apply existsb_exists; exists s; split; assumption).
      rewrite Hsome. reflexivity.
    - apply post_step_is_no_stage_step in Hpost. elim Hpost.
      do 5 right. rewrite !in_app_iff. tauto. }
  split; [exact Hunstable|].
  destruct (run_sent n Hn) as (commit & details & -> & _).
  rewrite Hunstable. split; reflexivity.
Qed.

(** ** The earlier pipeline *)

(** Follows the stages of the earlier pipeline. *)
Ltac stages_of_earlier_pipeline :=
  unfold stagedEarlier, stagesEarlier, start;
  stage installDependencies_run; split_on NpmInstall;
  try (stage runTestsEarlier_run);
  try (stage dockerBuildAndPush_run; split_on DockerhubCredentials;
       [ split_on DockerLoginBuild | ]);
  try (stage kubernetesDeploymentEarlier_run; split_on KubeConfig);
  cbn [runStages].

Lemma stagedEarlier_result :
  result (stagedEarlier tools) =
  if throws tools NpmInstall
     || throws tools DockerhubCredentials
     || throws tools DockerLoginBuild
     || throws tools KubeConfig
  then Some FAILURE
  else if existsb (throws tools) deployStepsEarlier
  then Some UNSTABLE
  else None.
Proof.
  unfold throws.
  stages_of_earlier_pipeline; cbn [result worsen orb andb negb];
    unfold throws;
    repeat match goal with
      | H : outcome tools ?s = _ |- context [outcome tools ?s] => rewrite H
      end;
    cbn [negb andb worsen]; reflexivity.
Qed.

(** The result the stages of the earlier pipeline leave: [FAILURE] exactly
    when npm install, the binding of the Docker Hub credentials, the
    docker login and build, or the binding of the kubeconfig throws;
    otherwise [UNSTABLE] exactly when one of the kubectl steps throws. *)
Theorem build_result_of_the_earlier_pipeline :
  (currentResult (stagedEarlier tools) = FAILURE <->
   throws tools NpmInstall = true \/
   throws tools DockerhubCredentials = true \/
   throws tools DockerLoginBuild = true \/
   throws tools KubeConfig = true) /\
  (currentResult (stagedEarlier tools) = UNSTABLE <->
   currentResult (stagedEarlier tools) <> FAILURE /\
   existsb (throws tools) deployStepsEarlier = true).
Proof.
  unfold currentResult. rewrite stagedEarlier_result.
  assert (Hstopped :
    throws tools NpmInstall || throws tools DockerhubCredentials
    || throws tools DockerLoginBuild || throws tools KubeConfig = true <->
    throws tools NpmInstall = true \/
    throws tools DockerhubCredentials = true \/
    throws tools DockerLoginBuild = true \/
    throws tools KubeConfig = true)
    by (rewrite !orb_true_iff; tauto).
  rewrite <- Hstopped. clear Hstopped.
  destruct (throws tools NpmInstall || throws tools DockerhubCredentials
            || throws tools DockerLoginBuild || throws tools KubeConfig).
  - split; [tauto|]. split; [discriminate | intros [H _]; now elim H].
  - destruct (existsb (throws tools) deployStepsEarlier).
    + split; split; try discriminate; try tauto.
      intros _. split; [discriminate | reflexivity].
    + split; split; try discriminate; try tauto.
      intros [_ H]. discriminate.
Qed.







End PipelineRuns.

Lemma summary_reports_the_build_witness :
  exists n,
    In n (sent (run defaults calm exampleJenkins)) /\
    field "status" (requestBody n) = Some (Str "SUCCESS") /\
    field "errorDetails" (requestBody n) = Some (Str EmptyString).
Proof.
  eexists. split; [cbv; left; reflexivity|].
  match goal with
  | |- field _ (requestBody ?n) = _ /\ _ =>
      destruct (summary_reports_the_build defaults calm exampleJenkins n)
        as (_ & Hstatus & _ & _ & _ & Hdetails & _);
        [cbv; left; reflexivity|]
  end.
  split; [exact Hstatus | apply Hdetails; reflexivity].
Defined.

Lemma critical_finding_stops_the_pipeline_witness :
  currentResult (staged defaults criticalImage) = FAILURE /\
  (forall s,
     In s (ran (run defaults criticalImage exampleJenkins)) ->
     ~ In s (DockerhubCredentials :: DockerPush :: deploySteps ++ chaosSteps)) /\
  (forall n,
     In n (sent (run defaults criticalImage exampleJenkins)) ->
     field "status" (requestBody n) = Some (Str "FAILURE") /\
     field "securityScanPassed" (requestBody n) = Some (Flag true)).
Proof.
  apply (critical_finding_stops_the_pipeline defaults criticalImage
           exampleJenkins EmptyString);
    [reflexivity | reflexivity | discriminate].
Defined.

Lemma scanner_breakdown_is_not_a_finding_witness :
  ~ In TrivyCritical (ran (run defaults scannerMissing exampleJenkins)) /\
  (In "Security: Container Scan"
     (entered (run defaults scannerMissing exampleJenkins)) ->
   In "Docker Push" (entered (run defaults scannerMissing exampleJenkins))) /\
  (forall n,
     In n (sent (run defaults scannerMissing exampleJenkins)) ->
     field "securityScanPassed" (requestBody n) = Some (Flag true)).
Proof.
  apply (scanner_breakdown_is_not_a_finding defaults scannerMissing
           exampleJenkins "script returned exit code 1");
    reflexivity.
Defined.

Lemma failed_deployment_is_reported_as_deployed_witness :
  exists n,
    In n (sent (run defaults clusterDown exampleJenkins)) /\
    currentResult (staged defaults clusterDown) = UNSTABLE /\
    field "status" (requestBody n) = Some (Str "UNSTABLE") /\
    field "kubernetesDeployed" (requestBody n) = Some (Flag true).
Proof.
  eexists. split; [cbv; left; reflexivity|].
  apply (failed_deployment_is_reported_as_deployed defaults clusterDown
           exampleJenkins KubectlClusterInfo).
  - cbv. tauto.
  - cbv. tauto.
  - reflexivity.
  - cbv. left. reflexivity.
Defined.

